(** * CytoPy gating engine: population tree, set algebra and FMO cache

    A shallow embedding of

    - [src/cytopy/flow/gating/actions.py] (class [Gating]): the population
      tree held in [self.populations], the gate registry [self.gates], the
      region evaluator [__update_index], [merge] / [subtraction], gate
      application, editing and removal, and the FMO prediction cache;
    - [src/CytoPy/data/population.py]: [_merge_index], [_merge_thresholds]
      and [merge_populations] on [Population] documents.

    Conventions.  Event identifiers (pandas index labels) are integers [Z].
    Measured values and thresholds are Python floats in the source; they are
    embedded as exact rationals [Q], so there is no NaN, no infinity and no
    binary rounding error.  Python dictionaries keep insertion order and are
    embedded as association lists with unique keys.  A Python exception is
    an explicit [Raise] result; a function that prints a message and returns
    [None] is embedded by its return value ([None]), the text printed is not
    part of the model. *)

From Stdlib Require Import List String Ascii ZArith QArith Qround Bool Lia.
From Stdlib Require Import Sorting.Sorted Permutation.
Import ListNotations.

Close Scope Q_scope.
Open Scope string_scope.
Open Scope list_scope.

(** ** Python runtime: exceptions, dictionaries, numpy helpers *)

Module Py.

Inductive Exn : Type :=
| AssertionError (msg : string)
| KeyError (key : string)
| AttributeError
| TypeError
| ValueError (msg : string)
| ZeroDivisionError
| QhullError.

Inductive Res (A : Type) : Type :=
| Ok (a : A)
| Raise (e : Exn).

Arguments Ok {A} a.
Arguments Raise {A} e.

Definition bind {A B : Type} (r : Res A) (k : A -> Res B) : Res B :=
  match r with
  | Ok a => k a
  | Raise e => Raise e
  end.

Definition assert (b : bool) (msg : string) : Res unit :=
  if b then Ok tt else Raise (AssertionError msg).

Definition of_option {A : Type} (o : option A) (e : Exn) : Res A :=
  match o with
  | Some a => Ok a
  | None => Raise e
  end.

(** A [dict] with string keys, in insertion order. *)
Definition dict (V : Type) : Type := list (string * V).

Definition dict_keys {V : Type} (d : dict V) : list string := map fst d.

Definition dict_values {V : Type} (d : dict V) : list V := map snd d.

Fixpoint dict_get {V : Type} (d : dict V) (k : string) : option V :=
  match d with
  | [] => None
  | (k', v) :: t => if String.eqb k k' then Some v else dict_get t k
  end.

Definition dict_mem {V : Type} (d : dict V) (k : string) : bool :=
  match dict_get d k with
  | Some _ => true
  | None => false
  end.

(** [d[k]]: raises [KeyError] on a missing key. *)
Definition dict_item {V : Type} (d : dict V) (k : string) : Res V :=
  of_option (dict_get d k) (KeyError k).

(** [d[k] = v]: an existing key keeps its position, a new key goes last. *)
Fixpoint dict_set {V : Type} (d : dict V) (k : string) (v : V) : dict V :=
  match d with
  | [] => [(k, v)]
  | (k', v') :: t =>
      if String.eqb k k' then (k, v) :: t else (k', v') :: dict_set t k v
  end.

Fixpoint dict_remove {V : Type} (d : dict V) (k : string) : dict V :=
  match d with
  | [] => []
  | (k', v') :: t =>
      if String.eqb k k' then t else (k', v') :: dict_remove t k
  end.

(** [d.pop(k)] without default: raises [KeyError] on a missing key. *)
Definition dict_pop {V : Type} (d : dict V) (k : string) : Res (dict V) :=
  if dict_mem d k then Ok (dict_remove d k) else Raise (KeyError k).

Definition str_mem (s : string) (l : list string) : bool :=
  existsb (String.eqb s) l.

Definition z_mem (i : Z) (l : list Z) : bool := existsb (Z.eqb i) l.

(** [sep.join(l)]. *)
Fixpoint str_join (sep : string) (l : list string) : string :=
  match l with
  | [] => ""
  | [s] => s
  | s :: t => s ++ sep ++ str_join sep t
  end.

(** [np.unique]: the sorted distinct values of an array. *)
Fixpoint insert_unique (x : Z) (l : list Z) : list Z :=
  match l with
  | [] => [x]
  | y :: t =>
      match Z.compare x y with
      | Lt => x :: l
      | Eq => l
      | Gt => y :: insert_unique x t
      end
  end.

Definition np_unique (l : list Z) : list Z := fold_right insert_unique [] l.

(** [np.concatenate]: raises [ValueError] on an empty sequence of arrays. *)
Definition np_concatenate (ls : list (list Z)) : Res (list Z) :=
  match ls with
  | [] => Raise (ValueError "need at least one array to concatenate")
  | _ => Ok (List.concat ls)
  end.

(** [np.setdiff1d(a, b)]: the sorted distinct values of [a] not in [b]. *)
Definition np_setdiff1d (a b : list Z) : list Z :=
  filter (fun i => negb (z_mem i b)) (np_unique a).

End Py.

Declare Scope py_scope.
Delimit Scope py_scope with py.
Notation "x <- c1 ;; c2" := (Py.bind c1 (fun x => c2))
  (at level 61, c1 at next level, right associativity) : py_scope.
Notation "c1 ;;; c2" := (Py.bind c1 (fun _ => c2))
  (at level 61, right associativity) : py_scope.
Open Scope py_scope.

(** ** [CytoPy/data/population.py]: Population documents and their merge *)

Module PopulationDoc.
Import Py.

(** Modelled from the spec: the geometry classes of [CytoPy.data.geometry]
    ([ThresholdGeom], [PolygonGeom]) are imported by [population.py] but are
    not part of the sources at hand.  Their fields are the ones
    [population.py] reads and writes: the two axes, the two transforms, and
    either the thresholds or the polygon vertices. *)
Record GeomAxes : Type := mkAxes {
  x : option string;
  y : option string;
  transform_x : option string;
  transform_y : option string
}.

Inductive PopulationGeometry : Type :=
| ThresholdGeom (axes : GeomAxes) (x_thr y_thr : option Q)
| PolygonGeom (axes : GeomAxes) (x_values y_values : list Q).

Definition geom_axes (g : PopulationGeometry) : GeomAxes :=
  match g with
  | ThresholdGeom a _ _ => a
  | PolygonGeom a _ _ => a
  end.

Definition x_threshold (g : PopulationGeometry) : Res (option Q) :=
  match g with
  | ThresholdGeom _ tx _ => Ok tx
  | PolygonGeom _ _ _ => Raise AttributeError
  end.

Definition y_threshold (g : PopulationGeometry) : Res (option Q) :=
  match g with
  | ThresholdGeom _ _ ty => Ok ty
  | PolygonGeom _ _ _ => Raise AttributeError
  end.

Definition is_threshold (g : PopulationGeometry) : bool :=
  match g with
  | ThresholdGeom _ _ _ => true
  | PolygonGeom _ _ _ => false
  end.

(** [isinstance(left.geom, type(right.geom))] *)
Definition same_kind (l r : PopulationGeometry) : bool :=
  Bool.eqb (is_threshold l) (is_threshold r).

(** Python [==] on optional strings and optional floats. *)
Definition opt_str_eqb (a b : option string) : bool :=
  match a, b with
  | Some s, Some t => String.eqb s t
  | None, None => true
  | _, _ => false
  end.

Definition opt_float_eqb (a b : option Q) : bool :=
  match a, b with
  | Some s, Some t => Qeq_bool s t
  | None, None => true
  | _, _ => false
  end.

Record Cluster : Type := mkCluster {
  cluster_id : string;
  tag : string
}.

Record Population : Type := mkPopulation {
  population_name : string;
  n : nat;
  parent : string;
  prop_of_parent : option Q;
  prop_of_total : option Q;
  warnings : list string;
  geom : PopulationGeometry;
  clusters : list Cluster;
  definition : option string;
  signature : dict Q;
  index : option (list Z);
  ctrl_index : dict (list Z)
}.

Definition set_clusters (p : Population) (c : list Cluster) : Population :=
  mkPopulation (population_name p) (n p) (parent p) (prop_of_parent p)
    (prop_of_total p) (warnings p) (geom p) c (definition p) (signature p)
    (index p) (ctrl_index p).

(** The shapely operations used on polygon geometries
    ([shape.intersects], [unary_union(...).exterior.coords.xy]). *)
Class Shapely : Type := {
  intersects : PopulationGeometry -> PopulationGeometry -> bool;
  unary_union_xy : PopulationGeometry -> PopulationGeometry -> list Q * list Q
}.

Definition _check_overlap {shp : Shapely} (left right : Population) (error : bool)
  : Res bool :=
  assert (match geom left, geom right with
          | PolygonGeom _ _ _, PolygonGeom _ _ _ => true
          | _, _ => false
          end) "Only Polygon geometries can be checked for overlap" ;;;
  let overlap := intersects (geom left) (geom right) in
  (if error then assert overlap "Invalid: non-overlapping populations"
   else Ok tt) ;;;
  Ok overlap.

Definition _check_transforms_dimensions (left right : Population) : Res unit :=
  let l := geom_axes (geom left) in
  let r := geom_axes (geom right) in
  assert (opt_str_eqb (transform_x l) (transform_x r))
    "X dimension transform differs between left and right populations" ;;;
  assert (opt_str_eqb (transform_y l) (transform_y r))
    "Y dimension transform differs between left and right populations" ;;;
  assert (opt_str_eqb (x l) (x r))
    "X dimension differs between left and right populations" ;;;
  assert (opt_str_eqb (y l) (y r))
    "Y dimension differs between left and right populations".

(** [np.unique(np.concatenate([left.index, right.index], axis=0), axis=0)];
    an index that was never set ([None]) cannot be concatenated. *)
Definition _merge_index (left right : Population) : Res (list Z) :=
  match index left, index right with
  | Some l, Some r => Ok (np_unique (l ++ r))
  | _, _ =>
      Raise (ValueError "zero-dimensional arrays cannot be concatenated")
  end.

(** [pd.DataFrame([left.signature, right.signature]).mean().to_dict()]:
    the column-wise mean of the two rows, a column present in one row only
    keeps that row's value. *)
Definition _merge_signatures (left right : Population) : dict Q :=
  map (fun kv : string * Q =>
         match dict_get (signature right) (fst kv) with
         | Some b => (fst kv, Qdiv (Qplus (snd kv) b) (2 # 1))
         | None => kv
         end) (signature left)
  ++ filter (fun kv : string * Q => negb (dict_mem (signature left) (fst kv)))
       (signature right).

Definition py_len (i : option (list Z)) : Res nat :=
  match i with
  | Some l => Ok (List.length l)
  | None => Raise TypeError
  end.

(** [_merge_thresholds] returns the new population; it also empties
    [left.clusters] when either input carries clusters (the source assigns
    [left.clusters, right_clusters = [], []]), so the updated [left] is
    returned next to the result. *)
Definition _merge_thresholds (left right : Population)
  (new_population_name : string) : Res (Population * Population) :=
  lx <- x_threshold (geom left) ;;
  rx <- x_threshold (geom right) ;;
  assert (opt_float_eqb lx rx)
    "X threshold should match between populations" ;;;
  ly <- y_threshold (geom left) ;;
  ry <- y_threshold (geom right) ;;
  assert (opt_float_eqb ly ry)
    "Y threshold should match between populations" ;;;
  let left' :=
    match clusters left, clusters right with
    | [], [] => left
    | _, _ => set_clusters left []
    end in
  let new_geom := ThresholdGeom (geom_axes (geom left')) lx ly in
  nl <- py_len (index left') ;;
  nr <- py_len (index right) ;;
  idx <- _merge_index left' right ;;
  dl <- of_option (definition left') TypeError ;;
  dr <- of_option (definition right) TypeError ;;
  Ok (mkPopulation new_population_name (nl + nr) (parent left') None None
        (warnings left' ++ warnings right ++ ["MERGED POPULATION"])
        new_geom [] (Some (str_join "," [dl; dr]))
        (_merge_signatures left' right) (Some idx) [],
      left').

Definition _merge_polygons {shp : Shapely} (left right : Population)
  (new_population_name : string) : Res (Population * Population) :=
  _check_overlap left right true ;;;
  let xy := unary_union_xy (geom left) (geom right) in
  let new_geom := PolygonGeom (geom_axes (geom left)) (fst xy) (snd xy) in
  new_idx <- _merge_index left right ;;
  Ok (mkPopulation new_population_name (List.length new_idx) (parent left)
        None None
        (warnings left ++ warnings right ++ ["MERGED POPULATION"])
        new_geom [] None (_merge_signatures left right) (Some new_idx) [],
      left).

(** [new_population_name or f"merge_{left}_{right}"]: [None] and the empty
    string both select the default name. *)
Definition merge_name (left right : Population) (name : option string)
  : string :=
  match name with
  | Some s =>
      if String.eqb s "" then
        "merge_" ++ population_name left ++ "_" ++ population_name right
      else s
  | None => "merge_" ++ population_name left ++ "_" ++ population_name right
  end.

Definition merge_populations {shp : Shapely} (left right : Population)
  (new_population_name : option string) : Res (Population * Population) :=
  _check_transforms_dimensions left right ;;;
  let name := merge_name left right new_population_name in
  assert (String.eqb (parent left) (parent right))
    "Parent populations do not match" ;;;
  assert (same_kind (geom left) (geom right))
    "Geometries must be of the same type" ;;;
  if is_threshold (geom left) then _merge_thresholds left right name
  else _merge_polygons left right name.

End PopulationDoc.

(** ** [cytopy/flow/gating/actions.py]: the [Gating] engine *)

Module Gating.
Import Py.

(** *** Data frames

    A pandas data frame is a list of row labels (event identifiers, assumed
    distinct as in the source's event tables), the names of its columns, and
    the value held at a row and column. *)
Record DataFrame : Type := mkDataFrame {
  df_index : list Z;
  df_columns : list string;
  df_value : Z -> string -> Q
}.

(** [df.shape[0]] *)
Definition df_rows (df : DataFrame) : nat := List.length (df_index df).

(** [df.loc[idx]]: selection by label; a label absent from the frame raises
    [KeyError]. *)
Definition loc (df : DataFrame) (idx : list Z) : Res DataFrame :=
  if forallb (fun i => z_mem i (df_index df)) idx
  then Ok (mkDataFrame idx (df_columns df) (df_value df))
  else Raise (KeyError "label not in index").

(** [df[c]]: a column as a function of the row label. *)
Definition df_col (df : DataFrame) (c : string) : Res (Z -> Q) :=
  if str_mem c (df_columns df) then Ok (fun i => df_value df i c)
  else Raise (KeyError c).

(** [df[mask].index.values] for a boolean row predicate. *)
Definition df_where (df : DataFrame) (keep : Z -> bool) : list Z :=
  filter keep (df_index df).

(** Rounding half to even to a whole number, and to two decimals
    ([DataFrame.round(decimals=2)] and [round(v, 2)]). *)
Definition round_half_even (q : Q) : Z :=
  let fl := Qfloor q in
  let r := Qminus q (inject_Z fl) in
  match Qcompare r (1 # 2) with
  | Lt => fl
  | Gt => (fl + 1)%Z
  | Eq => if Z.even fl then fl else (fl + 1)%Z
  end.

Definition round2 (q : Q) : Q :=
  Qmake (round_half_even (Qmult q (100 # 1))) 100.

Definition df_round2 (df : DataFrame) : DataFrame :=
  mkDataFrame (df_index df) (df_columns df)
    (fun i c => round2 (df_value df i c)).

(** Strict and weak comparisons of floats. *)
Definition Qltb (a b : Q) : bool :=
  match Qcompare a b with Lt => true | _ => false end.

Definition Qgtb (a b : Q) : bool := Qltb b a.

Definition Qgeb (a b : Q) : bool := negb (Qltb a b).

Definition Qleb (a b : Q) : bool := negb (Qltb b a).

(** *** Geometries, population nodes, gates *)

(** The values a [geom] dictionary or a gate's keyword arguments hold. *)
Inductive GVal : Type :=
| GNone
| GStr (s : string)
| GNum (q : Q)
| GList (l : list string)
| GPoint (p : list Q)
| GCords (c : dict (list Q)).

Definition Geom : Type := dict GVal.

(** [geom.get(k)] *)
Definition geom_get (g : Geom) (k : string) : GVal :=
  match dict_get g k with
  | Some v => v
  | None => GNone
  end.

(** Truth value of a geometry entry in [assert x]. *)
Definition truthy (v : GVal) : bool :=
  match v with
  | GNone => false
  | GStr s => negb (String.eqb s "")
  | GNum q => negb (Qeq_bool q 0)
  | GList l => match l with [] => false | _ => true end
  | GPoint p => match p with [] => false | _ => true end
  | GCords c => match c with [] => false | _ => true end
  end.

Definition is_none (v : GVal) : bool :=
  match v with GNone => true | _ => false end.

Definition is_str (v : GVal) (s : string) : bool :=
  match v with GStr t => String.eqb t s | _ => false end.

Definition as_float (v : GVal) : Res Q :=
  match v with GNum q => Ok q | _ => Raise TypeError end.

(** A column named by a geometry value: only a string names a column. *)
Definition df_gcol (df : DataFrame) (v : GVal) : Res (Z -> Q) :=
  match v with
  | GStr c => df_col df c
  | _ => Raise (KeyError "column")
  end.

(** [df[[x, y]].values]: the two coordinates of every row. *)
Definition df_xy (df : DataFrame) (vx vy : GVal) : Res (list (Q * Q)) :=
  cx <- df_gcol df vx ;;
  cy <- df_gcol df vy ;;
  Ok (map (fun i => (cx i, cy i)) (df_index df)).

(** An [anytree.Node] of the population tree.  The parent object is
    referred to by its name, the key under which [self.populations] holds
    it; the children of a node are the nodes naming it as parent, in the
    order they were attached.  Names and objects agree as long as no key of
    [self.populations] is assigned twice, which [__apply_checks], [merge]
    and [subtraction] check before they commit a population. *)
Record Node : Type := mkNode {
  name : string;
  parent : option string;
  index : list Z;
  geom : option Geom;
  prop_of_parent : Q;
  prop_of_total : Q;
  warnings : list string
}.

Definition set_parent (nd : Node) (p : option string) : Node :=
  mkNode (name nd) p (index nd) (geom nd) (prop_of_parent nd)
    (prop_of_total nd) (warnings nd).

Definition set_geom (nd : Node) (g : option Geom) : Node :=
  mkNode (name nd) (parent nd) (index nd) g (prop_of_parent nd)
    (prop_of_total nd) (warnings nd).

Definition set_index (nd : Node) (i : list Z) : Node :=
  mkNode (name nd) (parent nd) i (geom nd) (prop_of_parent nd)
    (prop_of_total nd) (warnings nd).

(** Modelled from the spec: [ChildPopulationCollection] (module
    [.defaults]) is not among the sources; it is embedded from the way
    [actions.py] uses it: a gate type and a dictionary of child populations,
    each with an index and an optional geometry that [as_dict] turns into
    the dictionary of the keywords given to [update_geom]. *)
Record ChildPopulation : Type := mkChild {
  cp_index : list Z;
  cp_geom : option Geom
}.

Record ChildPopulationCollection : Type := mkCollection {
  gate_type : string;
  cpc_populations : dict ChildPopulation
}.

Definition add_population (c : ChildPopulationCollection) (nm : string)
  : ChildPopulationCollection :=
  mkCollection (gate_type c)
    (dict_set (cpc_populations c) nm (mkChild [] None)).

Definition child_update_geom (c : ChildPopulationCollection) (nm : string)
  (g : Geom) : Res ChildPopulationCollection :=
  p <- dict_item (cpc_populations c) nm ;;
  Ok (mkCollection (gate_type c)
        (dict_set (cpc_populations c) nm (mkChild (cp_index p) (Some g)))).

Definition child_update_index (c : ChildPopulationCollection) (nm : string)
  (i : list Z) : Res ChildPopulationCollection :=
  p <- dict_item (cpc_populations c) nm ;;
  Ok (mkCollection (gate_type c)
        (dict_set (cpc_populations c) nm (mkChild i (cp_geom p)))).

(** Keyword arguments stored with a gate. *)
Inductive KVal : Type :=
| KGeom (v : GVal)
| KColl (c : ChildPopulationCollection)
| KFrame (df : DataFrame).

(** A [Gate] document of [data.gating]. *)
Record Gate : Type := mkGate {
  gate_name : string;
  children : list string;
  gate_parent : string;
  method : string;
  kwargs : dict KVal;
  class_ : string
}.

(** The state of one [Gating] object.  [knn_fit_log] is instrumentation,
    not a field of the source: it records, in order, the control and the
    population of every [KNeighborsClassifier.fit] call. *)
Record Gating : Type := mkGating {
  data : DataFrame;
  fmo : dict DataFrame;
  fmo_search_cache : dict (dict (list Z));
  gates : dict Gate;
  populations : dict Node;
  knn_fit_log : list (string * string)
}.

Definition set_populations (G : Gating) (p : dict Node) : Gating :=
  mkGating (data G) (fmo G) (fmo_search_cache G) (gates G) p (knn_fit_log G).

Definition set_gates (G : Gating) (g : dict Gate) : Gating :=
  mkGating (data G) (fmo G) (fmo_search_cache G) g (populations G)
    (knn_fit_log G).

Definition set_cache (G : Gating) (c : dict (dict (list Z))) : Gating :=
  mkGating (data G) (fmo G) c (gates G) (populations G) (knn_fit_log G).

Definition log_fit (G : Gating) (ctrl pop : string) : Gating :=
  mkGating (data G) (fmo G) (fmo_search_cache G) (gates G) (populations G)
    (knn_fit_log G ++ [(ctrl, pop)]).

(** *** External collaborators

    Functions that [actions.py] imports from modules that are not among the
    sources: transforms, the geometric predicates of [.utilities], the
    convex hull of [merge], the nearest-neighbour classifier, the random
    sub-sample of the training rows, the pluggable gating classes and the
    argument check of [create_gate]. *)
Class External : Type := {
  apply_transform : DataFrame -> GVal -> list GVal -> Res DataFrame;
  inside_ellipse :
    list (Q * Q) -> GVal -> GVal -> GVal -> GVal -> Res (list bool);
  inside_polygon :
    DataFrame -> GVal -> GVal -> list (Q * Q) -> Res DataFrame;
  convex_hull_cords : list (Q * Q) -> Res (list Q * list Q);
  knn_fit_predict :
    list (Q * Q) -> list bool -> list (Q * Q) -> Res (list bool);
  sample_10000 : DataFrame -> DataFrame;
  gating_class :
    string -> string -> DataFrame -> dict KVal
    -> Res (ChildPopulationCollection * list string);
  check_class_args : string -> string -> dict KVal -> bool
}.

(** The names of [gating_classes]. *)
Definition gating_classes : list string :=
  ["Static"; "FMOGate"; "DensityBasedClustering"; "DensityThreshold";
   "Quantile"; "MixtureModel"].

(** *** The state and exception monad of the methods of [Gating] *)

Definition M (A : Type) : Type := Gating -> Res A * Gating.

Definition ret {A : Type} (a : A) : M A := fun G => (Ok a, G).

Definition throw {A : Type} (e : Exn) : M A := fun G => (Raise e, G).

Definition bindM {A B : Type} (m : M A) (k : A -> M B) : M B :=
  fun G =>
    match m G with
    | (Ok a, G') => k a G'
    | (Raise e, G') => (Raise e, G')
    end.

Definition lift {A : Type} (r : Res A) : M A := fun G => (r, G).

Definition get : M Gating := fun G => (Ok G, G).

Definition put (G' : Gating) : M unit := fun _ => (Ok tt, G').

(** [for x in l: body x] *)
Fixpoint for_each {A : Type} (l : list A) (body : A -> M unit) : M unit :=
  match l with
  | [] => ret tt
  | a :: t => bindM (body a) (fun _ => for_each t body)
  end.

Declare Scope st_scope.
Delimit Scope st_scope with st.
Notation "x <- c1 ;; c2" := (bindM c1 (fun x => c2))
  (at level 61, c1 at next level, right associativity) : st_scope.
Notation "c1 ;;; c2" := (bindM c1 (fun _ => c2))
  (at level 61, right associativity) : st_scope.

Definition fold_m {A B : Type} (body : B -> A -> M B)
  : list A -> B -> M B :=
  fix go (l : list A) (acc : B) : M B :=
    match l with
    | [] => ret acc
    | a :: t => bindM (body acc a) (go t)
    end.

Fixpoint map_res {A B : Type} (f : A -> Res B) (l : list A) : Res (list B) :=
  match l with
  | [] => Ok []
  | a :: t => b <- f a ;; bs <- map_res f t ;; Ok (b :: bs)
  end.

(** *** The population tree ([anytree]) *)

(** [node.children]: the names of the nodes whose parent is [p]. *)
Definition node_children (pops : dict Node) (p : string) : list string :=
  dict_keys
    (filter (fun kv : string * Node =>
               match parent (snd kv) with
               | Some q => String.eqb q p
               | None => false
               end) pops).

(** [PreOrderIter(node)]: the node, then the subtrees of its children in
    order.  The recursion is bounded by the number of nodes. *)
Fixpoint PreOrderIter (fuel : nat) (pops : dict Node) (nm : string)
  : list string :=
  match fuel with
  | O => []
  | S f => nm :: flat_map (PreOrderIter f pops) (node_children pops nm)
  end.

(** The chain of parents from a node upwards, the node first. *)
Fixpoint ancestors (fuel : nat) (pops : dict Node) (nm : string)
  : list string :=
  match fuel with
  | O => []
  | S f =>
      match dict_get pops nm with
      | Some nd =>
          match parent nd with
          | Some p => nm :: ancestors f pops p
          | None => [nm]
          end
      | None => [nm]
      end
  end.

(** [node.path]: from the root of the node's tree down to the node. *)
Definition node_path (pops : dict Node) (nm : string) : list string :=
  rev (ancestors (List.length pops) pops nm).

(** [find_dependencies]: [None] for an unknown population, otherwise the
    nodes under [root], in pre-order, whose path goes through the
    population. *)
Definition find_dependencies (G : Gating) (population : string)
  : Res (option (list string)) :=
  let pops := populations G in
  if negb (dict_mem pops population) then Ok None
  else
    _ <- dict_item pops "root" ;;
    _ <- dict_item pops population ;;
    Ok (Some (filter (fun n => str_mem population (node_path pops n))
                (PreOrderIter (List.length pops) pops "root"))).

(** [get_population_df] with its default arguments: [None] for an unknown
    population, otherwise [self.data.loc[idx]]. *)
Definition get_population_df (G : Gating) (population_name : string)
  : Res (option DataFrame) :=
  match dict_get (populations G) population_name with
  | None => Ok None
  | Some nd => df <- loc (data G) (index nd) ;; Ok (Some df)
  end.

(** Using the result of [get_population_df] as a frame: [None] has no
    rows, columns or shape. *)
Definition need_frame (o : option DataFrame) : Res DataFrame :=
  of_option o TypeError.

(** *** The region evaluator [__update_index] *)

(** The nested function [geom_bool] of the [2d_threshold] branch. *)
Definition geom_bool (geom : Geom) (definition : string) (p : DataFrame)
  : Res (list Z) :=
  let p := df_round2 p in
  x_ <- dict_item geom "x" ;;
  y_ <- dict_item geom "y" ;;
  tx0 <- dict_item geom "threshold_x" ;;
  tx1 <- as_float tx0 ;;
  ty0 <- dict_item geom "threshold_y" ;;
  ty1 <- as_float ty0 ;;
  let tx := round2 tx1 in
  let ty := round2 ty1 in
  if String.eqb definition "++" then
    cx <- df_gcol p x_ ;; cy <- df_gcol p y_ ;;
    Ok (df_where p (fun i => Qgtb (cx i) tx && Qgtb (cy i) ty))
  else if String.eqb definition "--" then
    cx <- df_gcol p x_ ;; cy <- df_gcol p y_ ;;
    Ok (df_where p (fun i => Qltb (cx i) tx && Qltb (cy i) ty))
  else if String.eqb definition "+-" then
    cx <- df_gcol p x_ ;; cy <- df_gcol p y_ ;;
    Ok (df_where p (fun i => Qgtb (cx i) tx && Qltb (cy i) ty))
  else if String.eqb definition "-+" then
    cx <- df_gcol p x_ ;; cy <- df_gcol p y_ ;;
    Ok (df_where p (fun i => Qltb (cx i) tx && Qgtb (cy i) ty))
  else
    Raise (ValueError "Definition must have a value of +-, -+, --, or ++").

(** [parent[mask]] for a boolean array: the mask has one entry per row. *)
Definition mask_select (df : DataFrame) (mask : list bool) : Res (list Z) :=
  if Nat.eqb (List.length mask) (df_rows df)
  then Ok (map fst (filter snd (combine (df_index df) mask)))
  else Raise (ValueError "Item wrong length").

(** [parent[~parent.index.isin(pos.index)].index.values] *)
Definition complement (df : DataFrame) (pos : list Z) : list Z :=
  df_where df (fun i => negb (z_mem i pos)).

Definition has_keys (g : Geom) (ks : list string) : bool :=
  forallb (dict_mem g) ks.

Definition threshold_index (geom : Geom) (parent : option DataFrame)
  : Res (list Z) :=
  assert (dict_mem geom "threshold") "Geom must contain a key threshold" ;;;
  assert (dict_mem geom "transform_x")
    "Geom must contain a key transform_x" ;;;
  assert (dict_mem geom "definition") "Geom must contain key definition" ;;;
  d <- dict_item geom "definition" ;;
  if is_str d "+" then
    p <- need_frame parent ;;
    gx <- dict_item geom "x" ;;
    cx <- df_gcol p gx ;;
    t0 <- dict_item geom "threshold" ;;
    t <- as_float t0 ;;
    Ok (df_where p (fun i => Qgeb (cx i) t))
  else if is_str d "-" then
    p <- need_frame parent ;;
    gx <- dict_item geom "x" ;;
    cx <- df_gcol p gx ;;
    t0 <- dict_item geom "threshold" ;;
    t <- as_float t0 ;;
    Ok (df_where p (fun i => Qltb (cx i) t))
  else Raise (ValueError "Definition must have a value of + or -").

Definition threshold_2d_index (geom : Geom) (y : GVal)
  (parent : option DataFrame) : Res (list Z) :=
  assert (dict_mem geom "definition") "Geom must contain key definition" ;;;
  assert (has_keys geom ["threshold_x"; "threshold_y"])
    "Geom must contain keys threshold_x and threshold_y" ;;;
  assert (truthy y) "Geom is missing value for y" ;;;
  assert (has_keys geom ["transform_x"; "transform_y"])
    "Geom must contain keys transform_x and transform_y" ;;;
  d <- dict_item geom "definition" ;;
  match d with
  | GList ds =>
      idx <- map_res (fun d' => p <- need_frame parent ;; geom_bool geom d' p)
               ds ;;
      Ok (List.concat idx)
  | GStr d' => p <- need_frame parent ;; geom_bool geom d' p
  | _ =>
      p <- need_frame parent ;;
      geom_bool geom "" p
  end.

Definition rect_index (geom : Geom) (y : GVal) (parent : option DataFrame)
  : Res (list Z) :=
  assert (dict_mem geom "definition") "Geom must contain key definition" ;;;
  assert (has_keys geom ["x_min"; "x_max"; "y_min"; "y_max"])
    "Geom must contain keys x_min, x_max, y_min, y_max" ;;;
  assert (has_keys geom ["transform_x"; "transform_y"])
    "Geom must contain keys transform_x and transform_y" ;;;
  assert (truthy y) "Geom is missing value for y" ;;;
  p <- need_frame parent ;;
  gx <- dict_item geom "x" ;;
  cx <- df_gcol p gx ;;
  x_min <- (v <- dict_item geom "x_min" ;; as_float v) ;;
  x_max <- (v <- dict_item geom "x_max" ;; as_float v) ;;
  gy <- dict_item geom "y" ;;
  cy <- df_gcol p gy ;;
  y_min <- (v <- dict_item geom "y_min" ;; as_float v) ;;
  y_max <- (v <- dict_item geom "y_max" ;; as_float v) ;;
  let pos :=
    df_where p (fun i => (Qgeb (cx i) x_min && Qleb (cx i) x_max)
                         && (Qgeb (cy i) y_min && Qleb (cy i) y_max)) in
  d <- dict_item geom "definition" ;;
  if is_str d "+" then Ok pos
  else if is_str d "-" then Ok (complement p pos)
  else Raise (ValueError "Definition must have a value of + or -").

Definition ellipse_index {ext : External} (geom : Geom) (y : GVal)
  (parent : option DataFrame) : Res (list Z) :=
  assert (dict_mem geom "definition") "Geom must contain key definition" ;;;
  assert (has_keys geom ["centroid"; "width"; "height"; "angle"])
    "Geom must contain keys centroid, width, height, angle" ;;;
  assert (truthy y) "Geom is missing value for y" ;;;
  assert (has_keys geom ["transform_x"; "transform_y"])
    "Geom must contain keys transform_x and transform_y" ;;;
  gx <- dict_item geom "x" ;;
  gy <- dict_item geom "y" ;;
  p <- need_frame parent ;;
  pts <- df_xy p gx gy ;;
  centroid <- dict_item geom "centroid" ;;
  width <- dict_item geom "width" ;;
  height <- dict_item geom "height" ;;
  angle <- dict_item geom "angle" ;;
  mask <- inside_ellipse pts centroid width height angle ;;
  pos <- mask_select p mask ;;
  d <- dict_item geom "definition" ;;
  if is_str d "+" then Ok pos
  else if is_str d "-" then Ok (complement p pos)
  else Raise (ValueError "Definition must have a value of + or -").

Definition poly_index {ext : External} (geom : Geom) (x y : GVal)
  (parent : option DataFrame) : Res (list Z) :=
  assert (has_keys geom ["cords"; "transform_x"; "transform_y"; "x"; "y"])
    "Geom must contain keys cords, transform_x, transform_y, x, y" ;;;
  match geom_get geom "cords" with
  | GCords cords =>
      assert (forallb (dict_mem cords) ["x"; "y"])
        "Cords should contain keys: x, y" ;;;
      xs <- dict_item cords "x" ;;
      ys <- dict_item cords "y" ;;
      p <- need_frame parent ;;
      pos <- inside_polygon p x y (combine xs ys) ;;
      Ok (df_index pos)
  | _ => Raise (AssertionError "Cords should be of type dictionary")
  end.

(** One [apply_transform] step of [__update_index]: applied when both the
    transform and the axis are not [None]. *)
Definition transform_axis {ext : External} (parent : option DataFrame)
  (transform axis : GVal) : Res (option DataFrame) :=
  if negb (is_none transform) && negb (is_none axis) then
    p <- need_frame parent ;;
    p' <- apply_transform p transform [axis] ;;
    Ok (Some p')
  else Ok parent.

Definition __update_index {ext : External} (G : Gating) (population_name : string)
  (geom : Geom) : Res (list Z) :=
  assert (dict_mem (populations G) population_name)
    "Population does not exist" ;;;
  nd <- dict_item (populations G) population_name ;;
  parent_name <- of_option (parent nd) AttributeError ;;
  parent0 <- get_population_df G parent_name ;;
  let transform_x := geom_get geom "transform_x" in
  let transform_y := geom_get geom "transform_y" in
  let x := geom_get geom "x" in
  let y := geom_get geom "y" in
  assert (truthy x) "Geom is missing value for x" ;;;
  parent1 <- transform_axis parent0 transform_x x ;;
  parent2 <- transform_axis parent1 transform_y y ;;
  shape <- dict_item geom "shape" ;;
  if is_str shape "threshold" then threshold_index geom parent2
  else if is_str shape "2d_threshold" then threshold_2d_index geom y parent2
  else if is_str shape "rect" then rect_index geom y parent2
  else if is_str shape "ellipse" then ellipse_index geom y parent2
  else if is_str shape "poly" then poly_index geom x y parent2
  else Raise (ValueError "Geom shape not recognised").

(** *** Methods of [Gating] *)

Local Open Scope st_scope.

(** [Gating.__init__] for a sample without saved populations: the root
    population spans all events of the primary data, and the FMO cache of
    every control is seeded with the [root] entry holding all event labels
    of that control. *)
Definition __init__ (primary : DataFrame) (controls : dict DataFrame)
  (saved_gates : list Gate) : Gating :=
  mkGating primary controls
    (map (fun kv : string * DataFrame =>
            (fst kv, [("root", df_index (snd kv))])) controls)
    (fold_left (fun d g => dict_set d (gate_name g) g) saved_gates [])
    [("root",
      mkNode "root" None (df_index primary)
        (Some [("shape", GNone); ("x", GStr "FSC-A"); ("y", GStr "SSC-A")])
        1 1 [])]
    [].

(** [n / m] on integers. *)
Definition py_div (a b : nat) : Res Q :=
  if Nat.eqb b 0 then Raise ZeroDivisionError
  else Ok (Qdiv (inject_Z (Z.of_nat a)) (inject_Z (Z.of_nat b))).

(** [update_populations] (it returns its argument [output], which no caller
    uses). *)
Definition update_populations (output : ChildPopulationCollection)
  (parent_df : DataFrame) (warnings : list string) (parent_name : string)
  : M unit :=
  for_each (cpc_populations output)
    (fun entry : string * ChildPopulation =>
       let name := fst entry in
       let population := snd entry in
       G <- get ;;
       let n := List.length (cp_index population) in
       props <- lift
         (if Nat.eqb n 0 then Ok (0%Q, 0%Q)
          else (pp <- py_div n (df_rows parent_df) ;;
                pt <- py_div n (df_rows (data G)) ;;
                Ok (pp, pt))%py) ;;
       _ <- lift (dict_item (populations G) parent_name) ;;
       put (set_populations G
              (dict_set (populations G) name
                 (mkNode name (Some parent_name) (cp_index population)
                    (cp_geom population) (fst props) (snd props)
                    warnings)))).

(** [get_population_df] where the caller goes on to use the frame. *)
Definition population_frame (G : Gating) (population_name : string)
  : Res DataFrame :=
  (o <- get_population_df G population_name ;; need_frame o)%py.

(** The name of a node's parent, [node.parent.name]. *)
Definition parent_name_of (G : Gating) (population : string) : Res string :=
  (nd <- dict_item (populations G) population ;;
   of_option (parent nd) AttributeError)%py.

(** [node.geom[k]] *)
Definition node_geom_item (G : Gating) (population k : string) : Res GVal :=
  (nd <- dict_item (populations G) population ;;
   g <- of_option (geom nd) TypeError ;;
   dict_item g k)%py.

Definition register_gate (g : Gate) : M unit :=
  G <- get ;;
  put (set_gates G (dict_set (gates G) (gate_name g) g)).

Definition merge {ext : External} (population_left population_right
  new_population_name : string) : M unit :=
  G <- get ;;
  let pops := populations G in
  lift (assert (negb (dict_mem pops new_population_name)) "already exists") ;;;
  lift (assert (dict_mem pops population_left) "not recognised") ;;;
  lift (assert (dict_mem pops population_right) "not recognised") ;;;
  population_left_parent <- lift (parent_name_of G population_left) ;;
  population_right_parent <- lift (parent_name_of G population_right) ;;
  lift (assert (String.eqb population_left_parent population_right_parent)
          "Population parent must match for merging populations") ;;;
  _ <- lift (dict_item pops population_left_parent) ;;
  x <- lift (node_geom_item G population_left "x") ;;
  y <- lift (node_geom_item G population_left "y") ;;
  left <- lift (dict_item pops population_left) ;;
  right <- lift (dict_item pops population_right) ;;
  let index := np_unique (index left ++ index right) in
  let new0 := add_population (mkCollection "merge" []) new_population_name in
  parent_df <- lift (population_frame G population_left_parent) ;;
  d <- lift (sel <- loc parent_df index ;; df_xy sel x y)%py ;;
  hull <- lift (convex_hull_cords d) ;;
  let cords := GCords [("x", fst hull); ("y", snd hull)] in
  new1 <- lift (child_update_geom new0 new_population_name
                  [("x", x); ("y", y); ("shape", GStr "poly");
                   ("cords", cords)]) ;;
  new2 <- lift (child_update_index new1 new_population_name index) ;;
  update_populations new2 parent_df [] population_left_parent ;;;
  let name :=
    ("merge_" ++ population_left ++ "_" ++ population_right)%string in
  register_gate
    (mkGate name (dict_keys (cpc_populations new2)) population_left_parent
       "merge"
       [("left", KGeom (GStr population_left));
        ("right", KGeom (GStr population_right));
        ("name", KGeom (GStr new_population_name));
        ("x", KGeom x); ("y", KGeom y); ("child_populations", KColl new2)]
       "merge").

(** [str(target)] inside an f-string, for names without quotes or escapes. *)
Definition py_repr_list (l : list string) : string :=
  ("[" ++ str_join ", " (map (fun s => "'" ++ s ++ "'") l) ++ "]")%string.

Definition subtraction (target : list string) (parent new_population_name
  : string) : M unit :=
  G <- get ;;
  let pops := populations G in
  lift (assert (dict_mem pops parent)
          "Error: parent population not recognised") ;;;
  lift (assert (forallb (dict_mem pops) target)
          "Error: target population not recognised") ;;;
  lift (assert (negb (dict_mem pops new_population_name))
          "Error: a population with this name already exists") ;;;
  x <- lift (node_geom_item G parent "x") ;;
  y <- lift (node_geom_item G parent "y") ;;
  pnode <- lift (dict_item pops parent) ;;
  let pindex := index pnode in
  tindex <- lift
    (arrays <- map_res (fun t => (nd <- dict_item pops t ;; Ok (index nd)))
                 target ;;
     all <- np_concatenate arrays ;;
     Ok (np_unique all))%py ;;
  let index := np_setdiff1d pindex tindex in
  let new0 := add_population (mkCollection "sub" []) new_population_name in
  new1 <- lift (child_update_geom new0 new_population_name
                  [("x", x); ("y", y); ("shape", GStr "sub")]) ;;
  new2 <- lift (child_update_index new1 new_population_name index) ;;
  parent_df <- lift (population_frame G parent) ;;
  update_populations new2 parent_df [] parent ;;;
  let name := (parent ++ "_minus_" ++ py_repr_list target)%string in
  register_gate
    (mkGate name [new_population_name] parent "subtraction"
       [("parent", KGeom (GStr parent)); ("target", KGeom (GList target));
        ("name", KGeom (GStr new_population_name));
        ("x", KGeom x); ("y", KGeom y); ("child_populations", KColl new2)]
       "subtraction").

Definition create_gate {ext : External} (gate_name parent class_ method : string)
  (kwargs : dict KVal) (child_populations : ChildPopulationCollection)
  : M bool :=
  G <- get ;;
  if dict_mem (gates G) gate_name then ret false
  else if negb (str_mem class_ gating_classes) then ret false
  else
    let kwargs := dict_set kwargs "child_populations"
                    (KColl child_populations) in
    if negb (check_class_args class_ method kwargs) then ret false
    else
      register_gate
        (mkGate gate_name (dict_keys (cpc_populations child_populations))
           parent method kwargs class_) ;;;
      ret true.

(** [__apply_checks]: the gate document, or [None] when a check fails
    (unknown gate, unknown parent, or a child that already exists). *)
Definition __apply_checks (G : Gating) (gate_name : string) : option Gate :=
  match dict_get (gates G) gate_name with
  | None => None
  | Some gatedoc =>
      if negb (dict_mem (populations G) (gate_parent gatedoc)) then None
      else if existsb (dict_mem (populations G)) (children gatedoc) then None
      else Some gatedoc
  end.

Definition __construct_class_and_gate {ext : External} (gatedoc : Gate)
  (kwargs : dict KVal) : M unit :=
  G <- get ;;
  lift (if str_mem (class_ gatedoc) gating_classes then Ok tt
        else Raise (KeyError (class_ gatedoc))) ;;;
  parent_population <- lift (population_frame G (gate_parent gatedoc)) ;;
  out <- lift (gating_class (class_ gatedoc) (method gatedoc)
                 parent_population kwargs) ;;
  update_populations (fst out) parent_population (snd out)
    (gate_parent gatedoc).

Definition find_dependencies_m (population : string)
  : M (option (list string)) :=
  G <- get ;; lift (find_dependencies G population).

Definition pop_population (x : string) : M unit :=
  G <- get ;;
  p <- lift (dict_pop (populations G) x) ;;
  put (set_populations G p).

(** [remove_population] with [hard_delete=False] (the database copy held by
    the file group is outside the model). *)
Definition remove_population (population_name : string) : M unit :=
  G <- get ;;
  if negb (dict_mem (populations G) population_name) then ret tt
  else
    downstream_populations <- find_dependencies_m population_name ;;
    nd <- lift (dict_item (populations G) population_name) ;;
    put (set_populations G
           (dict_set (populations G) population_name (set_parent nd None))) ;;;
    downstream <- lift (of_option downstream_populations TypeError) ;;
    for_each downstream pop_population.

(** What [remove_gate] returns: [None] for an unknown gate, [True] when
    only the gate is removed, otherwise the removed gates and populations. *)
Inductive RemoveGateResult : Type :=
| ReturnedNone
| ReturnedTrue
| ReturnedRemoved (effected_gates effected_populations : list string).

Definition pop_gate (g : string) : M unit :=
  G <- get ;;
  gs <- lift (dict_pop (gates G) g) ;;
  put (set_gates G gs).

Definition remove_gate (gate_name : string) (propagate : bool)
  : M RemoveGateResult :=
  G <- get ;;
  match dict_get (gates G) gate_name with
  | None => ret ReturnedNone
  | Some gate =>
      if match children gate with [] => true | _ => false end
         || negb propagate
      then pop_gate gate_name ;;; ret ReturnedTrue
      else
        effected_populations <-
          fold_m (fun (effected : list string) (child : string) =>
                    dependencies <- find_dependencies_m child ;;
                    match dependencies with
                    | None => ret effected
                    | Some deps =>
                        remove_population child ;;;
                        ret ((effected ++ deps) ++ [child])
                    end)
            (children gate) [] ;;
        G' <- get ;;
        let effected_gates :=
          dict_keys
            (filter (fun kv : string * Gate =>
                       str_mem (gate_parent (snd kv)) effected_populations)
               (gates G'))
          ++ [gate_name] in
        for_each effected_gates pop_gate ;;;
        ret (ReturnedRemoved effected_gates effected_populations)
  end.

Definition set_node_geom (c : string) (g : Geom) : M unit :=
  G <- get ;;
  nd <- lift (dict_item (populations G) c) ;;
  put (set_populations G
         (dict_set (populations G) c (set_geom nd (Some g)))).

Definition set_node_index (c : string) (i : list Z) : M unit :=
  G <- get ;;
  nd <- lift (dict_item (populations G) c) ;;
  put (set_populations G (dict_set (populations G) c (set_index nd i))).

(** One iteration of the loop of [edit_gate] over the gate's children; the
    accumulator holds [effected_populations] and [immediate_children]. *)
Definition edit_child {ext : External} (updated_geom : dict Geom)
  (acc : list string * list string) (c : string)
  : M (list string * list string) :=
  lift (assert (dict_mem updated_geom c)
          "Invalid child populations specified/missing child") ;;;
  g <- lift (dict_item updated_geom c) ;;
  set_node_geom c g ;;;
  G <- get ;;
  idx <- lift (__update_index G c g) ;;
  set_node_index c idx ;;;
  deps <- find_dependencies_m c ;;
  deps' <- lift (of_option deps TypeError) ;;
  G' <- get ;;
  ret (fst acc ++ deps', snd acc ++ node_children (populations G') c).

Definition edit_gate {ext : External} (gate_name : string)
  (updated_geom : dict Geom) (delete : bool) : M unit :=
  G <- get ;;
  lift (assert (dict_mem (gates G) gate_name) "Invalid gate") ;;;
  gate <- lift (dict_item (gates G) gate_name) ;;
  acc <- fold_m (edit_child updated_geom) (children gate) ([], []) ;;
  if delete then for_each (snd acc) remove_population else ret tt.

(** *** FMO prediction and its cache *)

Definition search_fmo_cache (G : Gating) (target_population fmo : string)
  : Res (option (list Z)) :=
  (c <- dict_item (fmo_search_cache G) fmo ;;
   Ok (dict_get c target_population))%py.

(** The loop that looks for the start of the route: the first population,
    from the target upwards, that is a key of [self.fmo_search_cache], with
    its position. *)
Fixpoint find_start (cache_keys : list string) (rev_route : list string)
  (i : nat) : option (nat * string) :=
  match rev_route with
  | [] => None
  | pop :: t =>
      if str_mem pop cache_keys then Some (i, pop)
      else find_start cache_keys t (S i)
  end.

(** The axes the classifier is trained on for one population. *)
Definition knn_axes (G : Gating) (pop : string)
  (sml_profiles : option (dict Geom)) : Res (GVal * GVal) :=
  (x <- node_geom_item G pop "x" ;;
   y0 <- node_geom_item G pop "y" ;;
   let y := if truthy y0 then y0 else GStr "FSC-A" in
   shape <- node_geom_item G pop "shape" ;;
   if is_str shape "sml" then
     match sml_profiles with
     | None | Some [] => Raise (AssertionError "No SML profiles provided")
     | Some profiles =>
         assert (dict_mem profiles pop) "missing from sml_profiles" ;;;
         geom <- dict_item profiles pop ;;
         Ok (geom_get geom "x", geom_get geom "y")
     end
   else Ok (x, y))%py.

Definition store_cache (fmo pop : string) (cache_idx : list Z) : M unit :=
  G <- get ;;
  c <- lift (dict_item (fmo_search_cache G) fmo) ;;
  put (set_cache G (dict_set (fmo_search_cache G) fmo
                      (dict_set c pop cache_idx))).

(** One iteration of the prediction loop of [get_fmo_data]; the accumulator
    holds [cache_idx] and [fmo_data]. *)
Definition predict_population {ext : External} (fmo : string)
  (sml_profiles : option (dict Geom)) (acc : list Z * DataFrame)
  (pop : string) : M (list Z * DataFrame) :=
  G <- get ;;
  fmo_data <- lift (ctrl <- dict_item (Gating.fmo G) fmo ;;
                    loc ctrl (fst acc))%py ;;
  axes <- lift (knn_axes G pop sml_profiles) ;;
  parent <- lift (parent_name_of G pop) ;;
  train0 <- lift (population_frame G parent) ;;
  _ <- lift (df_xy train0 (fst axes) (snd axes)) ;;
  let train :=
    if Z.ltb 10000 (Z.of_nat (df_rows train0)) then sample_10000 train0
    else train0 in
  nd <- lift (dict_item (populations G) pop) ;;
  let y_ := map (fun i => z_mem i (index nd)) (df_index train) in
  pts <- lift (df_xy train (fst axes) (snd axes)) ;;
  put (log_fit G fmo pop) ;;;
  query <- lift (df_xy fmo_data (fst axes) (snd axes)) ;;
  y_hat <- lift (knn_fit_predict pts y_ query) ;;
  cache_idx <- lift (mask_select fmo_data y_hat) ;;
  store_cache fmo pop cache_idx ;;;
  ret (cache_idx, fmo_data).

Definition get_fmo_data {ext : External} (target_population fmo : string)
  (sml_profiles : option (dict Geom)) : M DataFrame :=
  G <- get ;;
  cached <- lift (search_fmo_cache G target_population fmo) ;;
  match cached with
  | Some cache_idx =>
      lift (ctrl <- dict_item (Gating.fmo G) fmo ;; loc ctrl cache_idx)%py
  | None =>
      root_idx <- lift (c <- dict_item (fmo_search_cache G) fmo ;;
                        dict_item c "root")%py ;;
      _ <- lift (dict_item (populations G) target_population) ;;
      let route := tl (node_path (populations G) target_population) in
      start <- lift
        (match find_start (dict_keys (fmo_search_cache G)) (rev route) 0 with
         | Some (i, pop) =>
             nd <- dict_item (populations G) pop ;;
             Ok (rev (firstn (S i) (rev route)), index nd)
         | None => Ok (route, root_idx)
         end)%py ;;
      fmo_data <- lift (ctrl <- dict_item (Gating.fmo G) fmo ;;
                        loc ctrl (snd start))%py ;;
      final <- fold_m (predict_population fmo sml_profiles) (fst start)
                 (snd start, fmo_data) ;;
      lift (loc (snd final) (fst final))
  end.

(** *** Applying a gate *)

Definition dict_of_pairs {V : Type} (l : list (string * V)) : dict V :=
  fold_left (fun d kv => dict_set d (fst kv) (snd kv)) l [].

(** A keyword argument used as a population or control name. *)
Definition kw_name (d : dict KVal) (k : string) : Res string :=
  match dict_get d k with
  | Some (KGeom (GStr s)) => Ok s
  | _ => Raise (AssertionError "not recognised")
  end.

Definition kw_names (d : dict KVal) (k : string) : Res (list string) :=
  match dict_get d k with
  | Some (KGeom (GList l)) => Ok l
  | _ => Raise TypeError
  end.

(** [gkwargs[k] = self.get_fmo_data(gatedoc.parent, gkwargs[k], None)] *)
Definition load_fmo_kwarg {ext : External} (parent k : string)
  (gkwargs : dict KVal) : M (dict KVal) :=
  ctrl <- lift (match dict_get gkwargs k with
                | Some (KGeom (GStr s)) => Ok s
                | _ => Raise (KeyError k)
                end) ;;
  df <- get_fmo_data parent ctrl None ;;
  ret (dict_set gkwargs k (KFrame df)).

(** [apply]; [plot_output] and [feedback] only drive plotting and printing,
    which are outside the model. *)
Definition apply {ext : External} (gate_name : string) (kwargs : dict KVal)
  : M unit :=
  G <- get ;;
  match __apply_checks G gate_name with
  | None => ret tt
  | Some gatedoc =>
      let gkwargs0 :=
        fold_left (fun d kv => dict_set d (fst kv) (snd kv)) kwargs
          (dict_of_pairs (Gating.kwargs gatedoc)) in
      gkwargs1 <-
        (if dict_mem gkwargs0 "fmo_x"
         then load_fmo_kwarg (gate_parent gatedoc) "fmo_x" gkwargs0
         else ret gkwargs0) ;;
      gkwargs <-
        (if dict_mem kwargs "fmo_y"
         then load_fmo_kwarg (gate_parent gatedoc) "fmo_y" gkwargs1
         else ret gkwargs1) ;;
      if String.eqb (class_ gatedoc) "merge" then
        left <- lift (kw_name gkwargs "left") ;;
        right <- lift (kw_name gkwargs "right") ;;
        new_name <- lift (kw_name gkwargs "name") ;;
        merge left right new_name
      else if String.eqb (class_ gatedoc) "subtraction" then
        target <- lift (kw_names gkwargs "target") ;;
        parent <- lift (kw_name gkwargs "parent") ;;
        new_name <- lift (kw_name gkwargs "name") ;;
        subtraction target parent new_name
      else __construct_class_and_gate gatedoc gkwargs
  end.

End Gating.

(** ** Concrete collaborators and states used by the examples *)

Module Fixtures.
Import Py Gating.

(** Stand-ins for the external collaborators: transforms leave the frame as
    it is, the polygon and ellipse tests accept every row, the hull keeps
    all points, a gating class returns the child populations it was
    configured with, and the classifier labels a control row positive when
    a positive training row has the same two coordinates. *)
#[local] Instance demo_external : External := {|
  apply_transform := fun df _ _ => Ok df;
  inside_ellipse := fun pts _ _ _ _ => Ok (map (fun _ => true) pts);
  inside_polygon := fun df _ _ _ => Ok df;
  convex_hull_cords := fun pts => Ok (map fst pts, map snd pts);
  knn_fit_predict := fun train labels query =>
    Ok (map (fun q : Q * Q =>
               existsb (fun tl : (Q * Q) * bool =>
                          snd tl && Qeq_bool (fst (fst tl)) (fst q)
                          && Qeq_bool (snd (fst tl)) (snd q))
                 (combine train labels)) query);
  sample_10000 := fun df => df;
  gating_class := fun _ _ _ kw =>
    match dict_get kw "child_populations" with
    | Some (KColl c) => Ok (c, [])
    | _ => Raise TypeError
    end;
  check_class_args := fun _ _ _ => true
|}.

(** Six events measured on two channels: event [i] has value [i] on
    [FSC-A] and [10 - i] on [SSC-A]. *)
Definition events : DataFrame :=
  mkDataFrame [1; 2; 3; 4; 5; 6]%Z ["FSC-A"; "SSC-A"]
    (fun i c => if String.eqb c "FSC-A" then inject_Z i
                else inject_Z (10 - i)).

Definition G0 : Gating := __init__ events [("ctrl", events)] [].

Definition run {A : Type} (m : M A) (G : Gating) : Gating := snd (m G).

Definition static_gate (nm parent : string) (kids : dict ChildPopulation)
  : M bool :=
  create_gate nm parent "Static" "rect_gate" [] (mkCollection "geom" kids).

Definition axes_geom (shape : string) : option Geom :=
  Some [("shape", GStr shape); ("x", GStr "FSC-A"); ("y", GStr "SSC-A")].

(** [root -> A -> B] with [A = {1,2,3,4}] and [B = {1,2}], each made by a
    registered gate. *)
Definition G_A : Gating :=
  run (apply "gA" [])
    (run (static_gate "gA" "root"
            [("A", mkChild [1; 2; 3; 4]%Z (axes_geom "rect"))]) G0).

Definition G_AB : Gating :=
  run (apply "gB" [])
    (run (static_gate "gB" "A"
            [("B", mkChild [1; 2]%Z (axes_geom "rect"))]) G_A).

(** The same tree once [A] has been predicted in the control [ctrl]: the
    cache of [ctrl] holds [root] and [A]. *)
Definition G_cached_A : Gating :=
  run (get_fmo_data "A" "ctrl" None) G_AB.

(** A threshold geometry on [FSC-A]. *)
Definition threshold_geom (t : Q) (definition : string) : Geom :=
  [("shape", GStr "threshold"); ("x", GStr "FSC-A"); ("y", GNone);
   ("transform_x", GNone); ("threshold", GNum t);
   ("definition", GStr definition)].



(** Two [Population] documents made by one 1D threshold of 3 on [FSC-A],
    as [__update_index] evaluates it on the six events. *)
Definition threshold_population (nm definition : string) (idx : list Z)
  : PopulationDoc.Population :=
  PopulationDoc.mkPopulation nm (List.length idx) "root" None None []
    (PopulationDoc.ThresholdGeom
       (PopulationDoc.mkAxes (Some "FSC-A") None None None)
       (Some (3 # 1)%Q) None)
    [] (Some definition) [] (Some idx) [].

Definition pos_population : PopulationDoc.Population :=
  threshold_population "pos" "+" [3; 4; 5; 6]%Z.

Definition neg_population : PopulationDoc.Population :=
  threshold_population "neg" "-" [1; 2]%Z.

End Fixtures.

(** ** [actions.py]: accessors, batch application and threshold nudging *)

Module GatingTools.
Import Py Gating.
Local Open Scope st_scope.

(** [clear_gates] *)
Definition clear_gates : M unit :=
  G <- get ;; put (set_gates G []).

(** [fetch_geom]: a copy of the geometry of a known population. *)
Definition fetch_geom (G : Gating) (population : string)
  : Res (option Geom) :=
  (assert (dict_mem (populations G) population) "Population invalid" ;;;
   nd <- dict_item (populations G) population ;;
   Ok (geom nd))%py.



(** [apply_many] with [apply_all=False], its default: nothing is applied
    when a name is not a registered gate; otherwise the registered gates
    that are named are applied in the order of the registry. *)
Definition apply_many {ext : External} (gates : list string) : M unit :=
  G <- get ;;
  if existsb (fun x => negb (dict_mem (Gating.gates G) x)) gates then ret tt
  else
    let gates_to_apply :=
      filter (fun name => str_mem name gates) (dict_keys (Gating.gates G)) in
    for_each gates_to_apply (fun gate_name => apply gate_name []).

(** The assignments of [nudge_threshold] to one geometry. *)
Definition nudge_geom (method : string) (new_x : Q) (new_y : option Q)
  (g : Geom) : Geom :=
  if String.eqb method "gate_1d" then dict_set g "threshold" (GNum new_x)
  else
    let g1 := dict_set g "threshold_x" (GNum new_x) in
    match new_y with
    | Some y => dict_set g1 "threshold_y" (GNum y)
    | None => g1
    end.

(** [nudge_threshold].  [geoms] maps every child of the gate to a copy of
    its geometry; the loop over the children assigns the new thresholds in
    each copy, which fails on a population without geometry ([None] has no
    item assignment); [edit_gate] is then called with its default
    [delete=True]. *)
Definition nudge_threshold {ext : External} (gate_name : string) (new_x : Q)
  (new_y : option Q) : M unit :=
  G <- get ;;
  lift (assert (dict_mem (gates G) gate_name) "Invalid gate name") ;;;
  gate <- lift (dict_item (gates G) gate_name) ;;
  lift (assert (String.eqb (class_ gate) "DensityThreshold")
          "Can only nudge threshold gates") ;;;
  fetched <- lift (map_res (fun c => (g <- fetch_geom G c ;; Ok (c, g))%py)
                     (children gate)) ;;
  geoms <- lift (map_res
                   (fun cg : string * option Geom =>
                      (g <- of_option (snd cg) TypeError ;;
                       Ok (fst cg, nudge_geom (method gate) new_x new_y g))%py)
                   (dict_of_pairs fetched)) ;;
  edit_gate gate_name geoms true.

End GatingTools.

(** ** [population.py]: clusters of a population, merging many populations *)

Module PopulationClusters.
Import Py.

(** A [Cluster] document with all its stored fields;
    [PopulationDoc.Cluster] keeps the two that merging reads. *)
Record Cluster : Type := mkCluster {
  cluster_id : string;
  meta_label : option string;
  n : nat;
  prop_of_events : Q;
  tag : string
}.

(** Truth value of an optional string argument ([if tag:]). *)
Definition given (s : option string) : bool :=
  match s with
  | Some t => negb (String.eqb t "")
  | None => false
  end.

Definition not_none (s : option string) : nat :=
  match s with Some _ => 1 | None => 0 end.

(** The methods below act on [self.clusters]; they are given that list and
    return the new one. *)

(** [add_cluster] *)
Definition add_cluster (clusters : list Cluster) (cluster : Cluster)
  : Res (list Cluster) :=
  assert (negb (existsb (fun x => String.eqb (cluster_id x) (cluster_id cluster)
                                  && String.eqb (tag x) (tag cluster))
                  clusters))
    "Cluster already exists" ;;;
  Ok (clusters ++ [cluster]).

(** Python [!=] between a field and a given string. *)
Definition differs (field : option string) (s : string) : bool :=
  match field with
  | Some t => negb (String.eqb t s)
  | None => true
  end.

(** [delete_cluster] *)
Definition delete_cluster (clusters : list Cluster)
  (cluster_id_ tag_ meta_label_ : option string) : Res (list Cluster) :=
  assert (Nat.eqb (not_none cluster_id_ + not_none tag_
                   + not_none meta_label_) 1)
    "Must provide either cluster_id, tag or meta_label" ;;;
  if given cluster_id_ then
    Ok (filter (fun c => match cluster_id_ with
                         | Some s => negb (String.eqb (cluster_id c) s)
                         | None => true
                         end) clusters)
  else if given tag_ then
    Ok (filter (fun c => match tag_ with
                         | Some s => negb (String.eqb (tag c) s)
                         | None => true
                         end) clusters)
  else if given meta_label_ then
    Ok (filter (fun c => match meta_label_ with
                         | Some s => differs (meta_label c) s
                         | None => true
                         end) clusters)
  else Ok clusters.

(** [delete_all_clusters]: [Some ids] is a list argument, [None] any other
    value (the default ["all"]). *)
Definition delete_all_clusters (clusters : list Cluster)
  (ids : option (list string)) : list Cluster :=
  match ids with
  | Some l => filter (fun c => negb (str_mem (cluster_id c) l)) clusters
  | None => []
  end.

(** [list_clusters] *)
Definition list_clusters (clusters : list Cluster)
  (tag_ meta_label_ : option string) : list string :=
  if given tag_ then
    map cluster_id
      (filter (fun c => match tag_ with
                        | Some s => String.eqb (tag c) s
                        | None => false
                        end) clusters)
  else if given meta_label_ then
    map cluster_id
      (filter (fun c => match meta_label_ with
                        | Some s => negb (differs (meta_label c) s)
                        | None => false
                        end) clusters)
  else map cluster_id clusters.

End PopulationClusters.

Module PopulationMerging.
Import Py PopulationDoc.

Definition set_population_name (p : Population) (nm : string) : Population :=
  mkPopulation nm (n p) (parent p) (prop_of_parent p) (prop_of_total p)
    (warnings p) (geom p) (clusters p) (definition p) (signature p)
    (index p) (ctrl_index p).

(** What [merge_multiple_populations] does: it returns the merged
    population, or raises one of the exceptions of the merge, or
    [IndexError] for [populations[0]] on an empty list. *)
Inductive MultiMerge : Type :=
| Merged (p : Population)
| MergeRaise (e : Exn)
| IndexError.

(** [reduce(lambda p1, p2: merge_populations(p1, p2), populations)] from
    its first element on. *)
Fixpoint reduce_merge {shp : Shapely} (acc : Population)
  (rest : list Population) : Res Population :=
  match rest with
  | [] => Ok acc
  | p :: t =>
      m <- merge_populations acc p None ;;
      reduce_merge (fst m) t
  end.

(** [len(set(names))] *)
Definition distinct_names (populations : list Population) : nat :=
  List.length (nodup string_dec (map population_name populations)).

(** [merge_multiple_populations]; an empty sequence makes [reduce] raise
    [TypeError]. *)
Definition merge_multiple_populations {shp : Shapely}
  (populations : list Population) (new_population_name : option string)
  : MultiMerge :=
  if match new_population_name with
     | None => negb (Nat.eqb (distinct_names populations) 1)
     | Some _ => false
     end
  then
    MergeRaise
      (AssertionError
         "populations are expected to have the same population name")
  else
    let given :=
      match new_population_name with
      | Some s => if String.eqb s "" then None else Some s
      | None => None
      end in
    match given, populations with
    | None, [] => IndexError
    | Some _, [] => MergeRaise TypeError
    | _, p :: t =>
        let name := match given with
                    | Some s => s
                    | None => population_name p
                    end in
        match reduce_merge p t with
        | Ok merged_pop => Merged (set_population_name merged_pop name)
        | Raise e => MergeRaise e
        end
    end.

End PopulationMerging.

(** ** [fcs.py]: the populations and flags of a file group *)

Module FileGroupDoc.
Import Py.

(** A [Population] document of [fcs.py]; the index file is held as the
    array it stores, and the cluster documents are not part of the
    record. *)
Record Population : Type := mkPopulation {
  population_name : string;
  index : list Z;
  n : nat;
  parent : string;
  prop_of_parent : Q;
  prop_of_total : Q;
  warnings : list string;
  geom : list (string * Gating.GVal)
}.

Record FileGroup : Type := mkFileGroup {
  primary_id : string;
  flags : option string;
  populations : list Population;
  gates : list Gating.Gate
}.

Definition set_fg_populations (fg : FileGroup) (p : list Population)
  : FileGroup :=
  mkFileGroup (primary_id fg) (flags fg) p (gates fg).

Definition set_flags (fg : FileGroup) (f : option string) : FileGroup :=
  mkFileGroup (primary_id fg) f (populations fg) (gates fg).

(** [needle in hay] on strings. *)
Fixpoint str_contains (needle hay : string) : bool :=
  String.prefix needle hay
  || match hay with
     | EmptyString => false
     | String _ t => str_contains needle t
     end.

Definition list_populations (fg : FileGroup) : list string :=
  map population_name (populations fg).

Definition list_gates (fg : FileGroup) : list string :=
  map Gating.gate_name (gates fg).

(** The argument of [delete_populations] and [delete_gates]: the builtin
    [all], a list of names, or a string (a name is then looked up as a
    substring). *)
Inductive Selection : Type :=
| BuiltinAll
| Names (l : list string)
| Text (s : string).

Definition delete_populations (fg : FileGroup) (sel : Selection)
  : FileGroup :=
  match sel with
  | BuiltinAll => set_fg_populations fg []
  | Names l =>
      set_fg_populations fg
        (filter (fun p => negb (str_mem (population_name p) l))
           (populations fg))
  | Text s =>
      set_fg_populations fg
        (filter (fun p => negb (str_contains (population_name p) s))
           (populations fg))
  end.

Definition update_population (fg : FileGroup) (population_name_ : string)
  (new_population : Population) : FileGroup :=
  set_fg_populations fg
    (filter (fun p => negb (String.eqb (population_name p) population_name_))
       (populations fg)
     ++ [new_population]).

Definition set_fg_gates (fg : FileGroup) (g : list Gating.Gate)
  : FileGroup :=
  mkFileGroup (primary_id fg) (flags fg) (populations fg) g.

Definition delete_gates (fg : FileGroup) (sel : Selection) : FileGroup :=
  match sel with
  | BuiltinAll => set_fg_gates fg []
  | Names l =>
      set_fg_gates fg
        (filter (fun g => negb (str_mem (Gating.gate_name g) l)) (gates fg))
  | Text s =>
      set_fg_gates fg
        (filter (fun g => negb (str_contains (Gating.gate_name g) s))
           (gates fg))
  end.

Definition validity (fg : FileGroup) : bool :=
  match flags fg with
  | None => true
  | Some f => negb (str_contains "invalid" f)
  end.

Definition get_population (fg : FileGroup) (population_name_ : string)
  : Res Population :=
  match filter (fun p => String.eqb (population_name p) population_name_)
          (populations fg) with
  | [] => Raise (AssertionError "Population does not exist")
  | p :: _ => Ok p
  end.

(** [Gating.register_as_invalid] of [actions.py], on the file group it
    fetches and saves. *)
Definition register_as_invalid (fg : FileGroup) : FileGroup :=
  match flags fg with
  | Some f =>
      if String.eqb f "" then set_flags fg (Some "invalid")
      else set_flags fg (Some (f ++ ",invalid")%string)
  | None => set_flags fg (Some "invalid")
  end.

End FileGroupDoc.

(** ** Sample values for the documents and the editing operations *)

Module Samples.
Import Py Gating.

(** A rectangle on the six events: [2 <= FSC-A <= 4], any [SSC-A]. *)
Definition rect_geom (definition : string) : Geom :=
  [("shape", GStr "rect"); ("x", GStr "FSC-A"); ("y", GStr "SSC-A");
   ("transform_x", GNone); ("transform_y", GNone);
   ("x_min", GNum (2 # 1)); ("x_max", GNum (4 # 1));
   ("y_min", GNum 0); ("y_max", GNum (10 # 1));
   ("definition", GStr definition)].

(** A [DensityThreshold] gate [gT] that split [A] of [root -> A -> B] at
    threshold 3 on [FSC-A]. *)
Definition G_threshold : Gating :=
  Fixtures.run (apply (ext := Fixtures.demo_external) "gT" [])
    (Fixtures.run
       (create_gate (ext := Fixtures.demo_external) "gT" "A"
          "DensityThreshold" "gate_1d" []
          (mkCollection "threshold_1d"
             [("hi", mkChild [3; 4]%Z
                       (Some (Fixtures.threshold_geom (3 # 1) "+")));
              ("lo", mkChild [1; 2]%Z
                       (Some (Fixtures.threshold_geom (3 # 1) "-")))]))
       Fixtures.G_AB).

Definition c1 : PopulationClusters.Cluster :=
  PopulationClusters.mkCluster "c1" None 10 (1 # 10) "run1".
Definition c2 : PopulationClusters.Cluster :=
  PopulationClusters.mkCluster "c2" (Some "meta") 5 (1 # 20) "run1".

Definition stored (name parent_ : string) (idx : list Z)
  : FileGroupDoc.Population :=
  FileGroupDoc.mkPopulation name idx (List.length idx) parent_ 1 1 [] [].

(** A file group holding [root] and an outdated [A]. *)
Definition fg_AB : FileGroupDoc.FileGroup :=
  FileGroupDoc.mkFileGroup "sample_1" None
    [stored "root" "root" [1; 2; 3; 4]%Z; stored "A" "root" [1; 2]%Z] [].

End Samples.

(** * Properties *)

(** ** Facts about the runtime helpers *)

Module PyFacts.
Import Py.

Lemma str_mem_In (s : string) (l : list string) :
  str_mem s l = true <-> In s l.
Proof.
  unfold str_mem. rewrite existsb_exists. split.
  - intros [y [Hy Heq]]. apply String.eqb_eq in Heq. now subst.
  - intros Hin. exists s. split; [assumption | apply String.eqb_refl].
Qed.

Lemma z_mem_In (i : Z) (l : list Z) : z_mem i l = true <-> In i l.
Proof.
  unfold z_mem. rewrite existsb_exists. split.
  - intros [y [Hy Heq]]. apply Z.eqb_eq in Heq. now subst.
  - intros Hin. exists i. split; [assumption | apply Z.eqb_refl].
Qed.

Lemma z_mem_false (i : Z) (l : list Z) : z_mem i l = false <-> ~ In i l.
Proof.
  rewrite <- z_mem_In. destruct (z_mem i l); split; congruence.
Qed.

Lemma In_insert_unique (x z : Z) (l : list Z) :
  In z (insert_unique x l) <-> z = x \/ In z l.
Proof.
  induction l as [| y t IH]; simpl.
  - intuition.
  - destruct (Z.compare_spec x y) as [Heq | Hlt | Hgt]; simpl.
    + subst. intuition.
    + intuition.
    + rewrite IH. intuition.
Qed.

Lemma In_np_unique (z : Z) (l : list Z) : In z (np_unique l) <-> In z l.
Proof.
  induction l as [| x t IH]; simpl.
  - reflexivity.
  - rewrite In_insert_unique, IH. intuition.
Qed.

Lemma insert_unique_sorted (x : Z) (l : list Z) :
  StronglySorted Z.lt l -> StronglySorted Z.lt (insert_unique x l).
Proof.
  induction l as [| y t IH]; simpl; intros Hs.
  - constructor; constructor.
  - apply StronglySorted_inv in Hs. destruct Hs as [Ht Hall].
    destruct (Z.compare_spec x y) as [Heq | Hlt | Hgt].
    + constructor; assumption.
    + constructor.
      * constructor; assumption.
      * constructor; [assumption |].
        eapply Forall_impl; [| exact Hall]. intros a Ha. simpl in Ha. lia.
    + constructor; [now apply IH |].
      rewrite Forall_forall in *. intros a Ha.
      apply In_insert_unique in Ha. destruct Ha as [-> | Ha]; auto.
Qed.

Lemma np_unique_sorted (l : list Z) : StronglySorted Z.lt (np_unique l).
Proof.
  induction l as [| x t IH]; simpl.
  - constructor.
  - now apply insert_unique_sorted.
Qed.

Lemma sorted_NoDup (l : list Z) : StronglySorted Z.lt l -> NoDup l.
Proof.
  induction 1 as [| a l Hs IH Hall]; constructor; auto.
  intros Hin. rewrite Forall_forall in Hall. specialize (Hall a Hin). lia.
Qed.

Lemma np_unique_NoDup (l : list Z) : NoDup (np_unique l).
Proof. apply sorted_NoDup, np_unique_sorted. Qed.

(** Two strictly increasing arrays with the same elements are equal. *)
Lemma sorted_same_elements (l1 l2 : list Z) :
  StronglySorted Z.lt l1 -> StronglySorted Z.lt l2 ->
  (forall e, In e l1 <-> In e l2) -> l1 = l2.
Proof.
  intros H1. revert l2.
  induction H1 as [| a l1 Hs1 IH Hall1]; intros l2 H2 Hiff.
  - destruct l2 as [| b l2]; [reflexivity |].
    exfalso. apply (proj2 (Hiff b)). now left.
  - destruct H2 as [| b l2 Hs2 Hall2].
    + exfalso. apply (proj1 (Hiff a)). now left.
    + rewrite Forall_forall in Hall1, Hall2.
      assert (Hab : a = b).
      { destruct (proj1 (Hiff a) (or_introl eq_refl)) as [Hb | Hb];
          [now subst |].
        destruct (proj2 (Hiff b) (or_introl eq_refl)) as [Ha | Ha];
          [now subst |].
        specialize (Hall1 _ Ha). specialize (Hall2 _ Hb). lia. }
      subst b. f_equal. apply IH; [assumption |].
      intros e. split; intros He.
      * destruct (proj1 (Hiff e) (or_intror He)) as [Heq | Hin];
          [| assumption].
        subst e. specialize (Hall1 _ He). lia.
      * destruct (proj2 (Hiff e) (or_intror He)) as [Heq | Hin];
          [| assumption].
        subst e. specialize (Hall2 _ He). lia.
Qed.

(** The length of [np.unique] is the number of distinct values. *)
Lemma np_unique_length (l : list Z) :
  List.length (np_unique l) = List.length (nodup Z.eq_dec l).
Proof.
  apply Permutation_length, NoDup_Permutation.
  - apply np_unique_NoDup.
  - apply NoDup_nodup.
  - intros e. rewrite In_np_unique, nodup_In. reflexivity.
Qed.

Lemma In_np_setdiff1d (e : Z) (a b : list Z) :
  In e (np_setdiff1d a b) <-> In e a /\ ~ In e b.
Proof.
  unfold np_setdiff1d. rewrite filter_In, In_np_unique, negb_true_iff.
  rewrite z_mem_false. reflexivity.
Qed.

Lemma dict_get_In {V : Type} (d : dict V) (k : string) (v : V) :
  dict_get d k = Some v -> In (k, v) d.
Proof.
  induction d as [| [k' v'] t IH]; simpl; [discriminate |].
  destruct (String.eqb_spec k k') as [-> | Hne].
  - intros [= ->]. now left.
  - intros H. right. now apply IH.
Qed.

Lemma dict_get_keys {V : Type} (d : dict V) (k : string) :
  dict_get d k <> None <-> In k (dict_keys d).
Proof.
  induction d as [| [k' v'] t IH]; simpl.
  - intuition.
  - destruct (String.eqb_spec k k') as [-> | Hne].
    + split; [now left | discriminate].
    + rewrite IH. split; [now right |].
      intros [Heq | Hin]; [congruence | assumption].
Qed.

Lemma dict_mem_keys {V : Type} (d : dict V) (k : string) :
  dict_mem d k = true <-> In k (dict_keys d).
Proof.
  rewrite <- dict_get_keys. unfold dict_mem.
  destruct (dict_get d k); split; congruence.
Qed.

Lemma dict_mem_false {V : Type} (d : dict V) (k : string) :
  dict_mem d k = false <-> dict_get d k = None.
Proof.
  unfold dict_mem. destruct (dict_get d k); split; congruence.
Qed.

Lemma dict_get_set {V : Type} (d : dict V) (k k' : string) (v : V) :
  dict_get (dict_set d k v) k' =
  if String.eqb k' k then Some v else dict_get d k'.
Proof.
  induction d as [| [j w] t IH]; simpl.
  - reflexivity.
  - destruct (String.eqb_spec k j) as [-> | Hkj]; simpl.
    + destruct (String.eqb_spec k' j); reflexivity.
    + rewrite IH. destruct (String.eqb_spec k' j) as [-> | Hk'j].
      * destruct (String.eqb_spec j k); [congruence | reflexivity].
      * reflexivity.
Qed.

Lemma dict_get_In_unique {V : Type} (d : dict V) (k : string) (v : V) :
  NoDup (dict_keys d) -> In (k, v) d -> dict_get d k = Some v.
Proof.
  induction d as [| [k' v'] t IH]; simpl; intros Hnd Hin; [contradiction |].
  inversion Hnd as [| ? ? Hnot Hnd']; subst.
  destruct Hin as [[= -> ->] | Hin].
  - now rewrite String.eqb_refl.
  - destruct (String.eqb_spec k k') as [-> | Hne].
    + exfalso. apply Hnot. apply (in_map fst) in Hin. exact Hin.
    + now apply IH.
Qed.

End PyFacts.

(** ** Merging threshold populations ([population.py]) *)

Module MergeProofs.
Import Py PyFacts.






(** Through the public entry point: with equal axes and transforms,
    [merge_populations] on two threshold populations of one parent is
    [_merge_thresholds] under the given or the default name. *)
Lemma merge_populations_thresholds (shp : PopulationDoc.Shapely)
  (left right : PopulationDoc.Population) (name : option string)
  (ax : PopulationDoc.GeomAxes) (tx ty tx' ty' : option Q) :
  PopulationDoc.geom left = PopulationDoc.ThresholdGeom ax tx ty ->
  PopulationDoc.geom right = PopulationDoc.ThresholdGeom ax tx' ty' ->
  PopulationDoc.parent left = PopulationDoc.parent right ->
  PopulationDoc.merge_populations left right name
  = PopulationDoc._merge_thresholds left right
      (PopulationDoc.merge_name left right name).
Proof.
  intros Hl Hr Hp. unfold PopulationDoc.merge_populations,
    PopulationDoc._check_transforms_dimensions.
  rewrite Hl, Hr, Hp. simpl.
  assert (Hrefl : forall o, PopulationDoc.opt_str_eqb o o = true).
  { intros [s |]; simpl; [apply String.eqb_refl | reflexivity]. }
  rewrite !Hrefl, String.eqb_refl. reflexivity.
Qed.

End MergeProofs.

(** ** The 2D threshold evaluator *)

Module RegionProofs.
Import Py PyFacts Gating.

(** Membership in a quadrant of a 2D threshold, on values and thresholds
    that have already been rounded: strict comparisons on both axes. *)
Definition in_quadrant (definition : string) (x tx y ty : Q) : Prop :=
  (definition = "++" /\ (tx < x)%Q /\ (ty < y)%Q) \/
  (definition = "--" /\ (x < tx)%Q /\ (y < ty)%Q) \/
  (definition = "+-" /\ (tx < x)%Q /\ (y < ty)%Q) \/
  (definition = "-+" /\ (x < tx)%Q /\ (ty < y)%Q).

Lemma Qltb_lt (a b : Q) : Qltb a b = true <-> (a < b)%Q.
Proof.
  unfold Qltb. rewrite Qlt_alt. destruct (a ?= b)%Q; split; congruence.
Qed.

Lemma Qgtb_lt (a b : Q) : Qgtb a b = true <-> (b < a)%Q.
Proof. unfold Qgtb. apply Qltb_lt. Qed.

Lemma In_df_where (p : DataFrame) (keep : Z -> bool) (e : Z) :
  In e (df_where p keep) <-> In e (df_index p) /\ keep e = true.
Proof. unfold df_where. apply filter_In. Qed.

Lemma df_where_round2 (p : DataFrame) (keep : Z -> bool) :
  df_where (df_round2 p) keep = df_where p keep.
Proof. reflexivity. Qed.

Ltac quadrant_cases :=
  unfold in_quadrant;
  repeat match goal with
         | |- context [Qgtb ?a ?b = true] => rewrite (Qgtb_lt a b)
         | |- context [Qltb ?a ?b = true] => rewrite (Qltb_lt a b)
         end;
  intuition (try discriminate; try congruence).

Ltac solve_quadrant :=
  match goal with
  | Hcols : forall k, _ -> exists cx cy, _, Hrun : _ = Ok ?idx |- _ =>
      apply Hcols in Hrun;
      destruct Hrun as (cx & cy & -> & -> & Hrun);
      cbv beta in Hrun; injection Hrun as <-;
      exists cx, cy;
      do 2 eexists;
      split; [reflexivity |]; split; [reflexivity |];
      split; [reflexivity |]; split; [reflexivity |];
      intros e; rewrite In_df_where, andb_true_iff;
      quadrant_cases
  end.

(** What a successful call of [geom_bool] has computed. *)
Lemma geom_bool_inv (geom : Geom) (d : string) (p : DataFrame)
  (idx : list Z) :
  geom_bool geom d p = Ok idx ->
  exists (cx cy : string) (tx ty : Q),
    dict_get geom "x" = Some (GStr cx) /\
    dict_get geom "y" = Some (GStr cy) /\
    dict_get geom "threshold_x" = Some (GNum tx) /\
    dict_get geom "threshold_y" = Some (GNum ty) /\
    forall e,
      In e idx <->
      In e (df_index p) /\
      in_quadrant d (round2 (df_value p e cx)) (round2 tx)
        (round2 (df_value p e cy)) (round2 ty).
Proof.
  unfold geom_bool, dict_item.
  destruct (dict_get geom "x") as [gx |]; simpl; [| discriminate].
  destruct (dict_get geom "y") as [gy |]; simpl; [| discriminate].
  destruct (dict_get geom "threshold_x") as [[| | tx | | |] |]; simpl;
    try discriminate.
  destruct (dict_get geom "threshold_y") as [[| | ty | | |] |]; simpl;
    try discriminate.
  intros Hrun.
  assert (Hcols : forall (k : (Z -> Q) -> (Z -> Q) -> Res (list Z)),
             (cx <- df_gcol (df_round2 p) gx ;;
              cy <- df_gcol (df_round2 p) gy ;; k cx cy)%py = Ok idx ->
             exists cx cy,
               gx = GStr cx /\ gy = GStr cy /\
               k (fun i => round2 (df_value p i cx))
                 (fun i => round2 (df_value p i cy)) = Ok idx).
  { intros k. unfold df_gcol, df_col.
    destruct gx as [| cx | | | |]; simpl; try discriminate.
    destruct (str_mem cx (df_columns p)); simpl;
      [| discriminate].
    destruct gy as [| cy | | | |]; simpl; try discriminate.
    destruct (str_mem cy (df_columns p)); simpl;
      [| discriminate].
    intros Hk. now exists cx, cy. }
  destruct (String.eqb_spec d "++") as [-> | Hpp]; [solve_quadrant |].
  destruct (String.eqb_spec d "--") as [-> | Hmm]; [solve_quadrant |].
  destruct (String.eqb_spec d "+-") as [-> | Hpm]; [solve_quadrant |].
  destruct (String.eqb_spec d "-+") as [-> | Hmp]; [solve_quadrant |].
  discriminate.
Qed.







(** [__update_index] on a [2d_threshold] geometry without transforms is
    [geom_bool] on the rows of the parent population. *)
Lemma update_index_2d_threshold (ext : External) (G : Gating)
  (population_name pn d : string) (nd : Node) (p : DataFrame) (geom : Geom)
  (gx gy : GVal) :
  dict_get (populations G) population_name = Some nd ->
  parent nd = Some pn ->
  get_population_df G pn = Ok (Some p) ->
  dict_get geom "shape" = Some (GStr "2d_threshold") ->
  dict_get geom "definition" = Some (GStr d) ->
  dict_get geom "x" = Some gx -> truthy gx = true ->
  dict_get geom "y" = Some gy -> truthy gy = true ->
  dict_get geom "transform_x" = Some GNone ->
  dict_get geom "transform_y" = Some GNone ->
  dict_mem geom "threshold_x" = true ->
  dict_mem geom "threshold_y" = true ->
  __update_index G population_name geom = geom_bool geom d p.
Proof.
  intros Hnd Hpar Hdf Hshape Hd Hx Htx Hy Hty Hfx Hfy Hthx Hthy.
  unfold __update_index, dict_item, dict_mem, geom_get, transform_axis.
  rewrite Hnd. cbn [of_option bind assert]. rewrite Hpar.
  cbn [of_option bind]. rewrite Hdf, Hx, Hy, Hfx, Hfy, Hshape.
  cbn [bind of_option is_none negb andb]. rewrite Htx.
  cbn [assert bind is_str].
  replace (String.eqb "2d_threshold" "threshold") with false by reflexivity.
  rewrite String.eqb_refl.
  unfold threshold_2d_index, has_keys. cbn [forallb].
  unfold dict_item, dict_mem. unfold dict_mem in Hthx, Hthy.
  rewrite Hd, Hfx, Hfy.
  destruct (dict_get geom "threshold_x"); [| discriminate].
  destruct (dict_get geom "threshold_y"); [| discriminate].
  cbn [andb assert bind of_option]. rewrite Hty. reflexivity.
Qed.

End RegionProofs.

(** ** The gate registry: applying and removing gates *)

Module RegistryProofs.
Import Py PyFacts Gating.



Lemma dict_get_remove_other {V : Type} (d : dict V) (k k' : string) :
  k' <> k -> dict_get (dict_remove d k) k' = dict_get d k'.
Proof.
  intros Hne. induction d as [| [j w] t IH]; simpl; [reflexivity |].
  destruct (String.eqb_spec k j) as [-> | Hkj]; simpl.
  - destruct (String.eqb_spec k' j); [congruence | reflexivity].
  - rewrite IH. reflexivity.
Qed.

Lemma dict_keys_remove {V : Type} (d : dict V) (k : string) :
  NoDup (dict_keys d) -> ~ In k (dict_keys (dict_remove d k)).
Proof.
  induction d as [| [j w] t IH]; simpl; intros Hnd; [tauto |].
  inversion Hnd as [| ? ? Hnot Hnd']; subst.
  destruct (String.eqb_spec k j) as [-> | Hkj]; simpl.
  - exact Hnot.
  - intros [Heq | Hin]; [congruence | now apply IH].
Qed.

(** The claim C3 as the specification words it: without propagation, a
    gate whose children are committed populations is not removed. *)
Definition remove_gate_rejects_committed (ext : External) : Prop :=
  forall (G : Gating) (g : string) (gate : Gate),
    dict_get (gates G) g = Some gate ->
    children gate <> [] ->
    (forall c, In c (children gate) -> In c (dict_keys (populations G))) ->
    fst (remove_gate g false G) <> Ok ReturnedTrue /\
    gates (snd (remove_gate g false G)) = gates G /\
    populations (snd (remove_gate g false G)) = populations G.

(** In the tree [root -> A -> B], gate [gA] has the committed child [A];
    [remove_gate "gA" False] returns [True] and the registry loses [gA]. *)
Lemma remove_gate_rejects_committed_counterexample :
  ~ remove_gate_rejects_committed Fixtures.demo_external.
Proof.
  intros Hclaim.
  destruct (Hclaim Fixtures.G_AB "gA"
              (mkGate "gA" ["A"] "root" "rect_gate"
                 [("child_populations",
                   KColl (mkCollection "geom"
                            [("A", mkChild [1; 2; 3; 4]%Z
                                     (Fixtures.axes_geom "rect"))]))]
                 "Static")) as (_ & Hgates & _).
  - reflexivity.
  - discriminate.
  - intros c [<- | []]. simpl. auto.
  - apply (f_equal (@dict_keys Gate)) in Hgates.
    vm_compute in Hgates. discriminate Hgates.
Qed.

(** C3 (amended).  Without propagation, [remove_gate] on a registered gate
    is not an error, whether or not the gate's children are committed: it
    returns [True], removes that gate from the registry and nothing else
    (the other gates, every population and the FMO cache are kept). *)
Theorem remove_gate_without_propagate_removes_gate_only :
  forall (G : Gating) (g : string) (gate : Gate),
    dict_get (gates G) g = Some gate ->
    remove_gate g false G
    = (Ok ReturnedTrue, set_gates G (dict_remove (gates G) g)) /\
    populations (snd (remove_gate g false G)) = populations G /\
    fmo_search_cache (snd (remove_gate g false G)) = fmo_search_cache G /\
    (forall g', g' <> g ->
        dict_get (gates (snd (remove_gate g false G))) g'
        = dict_get (gates G) g') /\
    (NoDup (dict_keys (gates G)) ->
     ~ In g (dict_keys (gates (snd (remove_gate g false G))))).
Proof.
  intros G g gate Hget.
  assert (Hrun : remove_gate g false G
                 = (Ok ReturnedTrue, set_gates G (dict_remove (gates G) g))).
  { unfold remove_gate, bindM, get. rewrite Hget.
    rewrite orb_true_r. unfold pop_gate, bindM, get, lift, dict_pop, dict_mem.
    rewrite Hget. reflexivity. }
  rewrite Hrun. simpl. repeat split.
  - intros g' Hne. now apply dict_get_remove_other.
  - apply dict_keys_remove.
Qed.

Lemma remove_gate_without_propagate_removes_gate_only_witness :
  fst (remove_gate "gA" false Fixtures.G_AB) = Ok ReturnedTrue /\
  dict_keys (gates (snd (remove_gate "gA" false Fixtures.G_AB))) = ["gB"] /\
  populations (snd (remove_gate "gA" false Fixtures.G_AB))
  = populations Fixtures.G_AB.
Proof.
  destruct (remove_gate_without_propagate_removes_gate_only Fixtures.G_AB
              "gA"
              (mkGate "gA" ["A"] "root" "rect_gate"
                 [("child_populations",
                   KColl (mkCollection "geom"
                            [("A", mkChild [1; 2; 3; 4]%Z
                                     (Fixtures.axes_geom "rect"))]))]
                 "Static") eq_refl) as (Hrun & Hpops & _).
  rewrite Hrun. split; [reflexivity |]. split; [reflexivity |].
  reflexivity.
Defined.

End RegistryProofs.

(** ** The population tree: removal, subtraction and the subset invariant *)

Module TreeProofs.
Import Py PyFacts Gating.

Ltac run_m :=
  unfold bindM, get, put, ret, lift, throw; simpl.








Lemma map_res_ok {A B : Type} (f : A -> Res B) (g : A -> B) (l : list A) :
  (forall a, In a l -> f a = Ok (g a)) -> map_res f l = Ok (map g l).
Proof.
  induction l as [| a t IH]; intros Hall; simpl; [reflexivity |].
  rewrite (Hall a (or_introl eq_refl)). simpl.
  rewrite IH by (intros; apply Hall; now right). reflexivity.
Qed.

(** The index held under a name, empty for an unknown name. *)
Definition index_of (pops : dict Node) (t : string) : list Z :=
  match dict_get pops t with Some nd => index nd | None => [] end.

Lemma new_collection_geom (gt nm : string) (g : Geom) :
  child_update_geom (add_population (mkCollection gt []) nm) nm g
  = Ok (mkCollection gt [(nm, mkChild [] (Some g))]).
Proof.
  unfold child_update_geom, add_population, dict_item, of_option, bind.
  cbn [cpc_populations gate_type dict_set dict_get cp_index].
  rewrite !String.eqb_refl. reflexivity.
Qed.

Lemma new_collection_index (gt nm : string) (og : option Geom)
  (i0 idx : list Z) :
  child_update_index (mkCollection gt [(nm, mkChild i0 og)]) nm idx
  = Ok (mkCollection gt [(nm, mkChild idx og)]).
Proof.
  unfold child_update_index, dict_item, of_option, bind.
  cbn [cpc_populations gate_type dict_set dict_get cp_geom].
  rewrite !String.eqb_refl. reflexivity.
Qed.

Lemma loc_incl (df : DataFrame) (idx : list Z) :
  incl idx (df_index df) ->
  loc df idx = Ok (mkDataFrame idx (df_columns df) (df_value df)).
Proof.
  intros Hincl. unfold loc.
  replace (forallb (fun i => z_mem i (df_index df)) idx) with true;
    [reflexivity |].
  symmetry. apply forallb_forall. intros i Hi. apply z_mem_In. auto.
Qed.

Lemma loc_index (df df' : DataFrame) (idx : list Z) :
  loc df idx = Ok df' -> df_index df' = idx.
Proof.
  unfold loc. destruct (forallb _ idx); [| discriminate].
  intros [= <-]. reflexivity.
Qed.

Lemma population_frame_ok (G : Gating) (nm : string) (nd : Node) :
  dict_get (populations G) nm = Some nd ->
  incl (index nd) (df_index (data G)) ->
  population_frame G nm
  = Ok (mkDataFrame (index nd) (df_columns (data G)) (df_value (data G))).
Proof.
  intros Hget Hincl. unfold population_frame, get_population_df.
  rewrite Hget, (loc_incl _ _ Hincl). reflexivity.
Qed.

Lemma population_frame_index (G : Gating) (nm : string) (df : DataFrame) :
  population_frame G nm = Ok df ->
  exists nd, dict_get (populations G) nm = Some nd /\ df_index df = index nd.
Proof.
  unfold population_frame, get_population_df.
  destruct (dict_get (populations G) nm) as [nd |]; simpl; [| discriminate].
  destruct (loc (data G) (index nd)) as [df0 |] eqn:Hloc; simpl;
    [| discriminate].
  intros [= <-]. exists nd. split; [reflexivity |]. now apply loc_index in Hloc.
Qed.

(** What one iteration of [update_populations] commits. *)
Definition committed (nm parent_name : string) (child : ChildPopulation)
  (warnings : list string) (nd : Node) : Prop :=
  name nd = nm /\ parent nd = Some parent_name /\
  index nd = cp_index child /\ geom nd = cp_geom child /\
  Gating.warnings nd = warnings.

Lemma update_populations_nil (gt : string) (df : DataFrame) (w : list string) (p : string) (G : Gating) :
  update_populations (mkCollection gt []) df w p G = (Ok tt, G).
Proof. reflexivity. Qed.

Lemma update_populations_cons (gt nm : string) (child : ChildPopulation)
  (rest : dict ChildPopulation) (df : DataFrame) (w : list string)
  (p : string) (G G' : Gating) :
  update_populations (mkCollection gt ((nm, child) :: rest)) df w p G
  = (Ok tt, G') ->
  exists nd,
    committed nm p child w nd /\
    dict_mem (populations G) p = true /\
    update_populations (mkCollection gt rest) df w p
      (set_populations G (dict_set (populations G) nm nd)) = (Ok tt, G').
Proof.
  unfold update_populations. simpl. run_m.
  destruct (if Nat.eqb (List.length (cp_index child)) 0 then Ok (0%Q, 0%Q)
            else (pp <- py_div (List.length (cp_index child)) (df_rows df) ;;
                  pt <- py_div (List.length (cp_index child))
                          (df_rows (data G)) ;;
                  Ok (pp, pt))%py) as [[pp pt] | e]; simpl;
    [| discriminate].
  unfold dict_item.
  destruct (dict_get (populations G) p) as [pn |] eqn:Hp; simpl;
    [| discriminate].
  intros Hrest. eexists. split; [| split; [| exact Hrest]].
  - repeat split.
  - unfold dict_mem. now rewrite Hp.
Qed.

Lemma update_populations_single_ok (gt nm p : string)
  (child : ChildPopulation) (df : DataFrame) (w : list string)
  (G : Gating) (pn : Node) :
  dict_get (populations G) p = Some pn ->
  (cp_index child = [] \/
   (df_rows df <> 0%nat /\ df_rows (data G) <> 0%nat)) ->
  exists nd,
    committed nm p child w nd /\
    update_populations (mkCollection gt [(nm, child)]) df w p G
    = (Ok tt, set_populations G (dict_set (populations G) nm nd)).
Proof.
  intros Hp Hrows. unfold update_populations. simpl. run_m.
  unfold dict_item. rewrite Hp. simpl.
  destruct Hrows as [Hnil | [Hdf Hdata]].
  - rewrite Hnil. simpl. eexists. split; [| reflexivity].
    repeat split. simpl. now rewrite Hnil.
  - destruct (Nat.eqb (List.length (cp_index child)) 0); simpl.
    + eexists. split; [| reflexivity]. repeat split.
    + unfold py_div.
      apply Nat.eqb_neq in Hdf. apply Nat.eqb_neq in Hdata.
      rewrite Hdf, Hdata. simpl.
      eexists. split; [| reflexivity]. repeat split.
Qed.

(** The claim C6 as the specification words it: for every known parent and
    every list of known targets, [subtraction] creates the new population
    holding the parent's events that are in no target. *)
Definition subtraction_total_on_known : Prop :=
  forall (G : Gating) (parent new_population_name : string)
         (target : list string) (pnode : Node),
    dict_get (populations G) parent = Some pnode ->
    (forall t, In t target -> In t (dict_keys (populations G))) ->
    ~ In new_population_name (dict_keys (populations G)) ->
    exists nd,
      dict_get
        (populations (snd (subtraction target parent new_population_name G)))
        new_population_name = Some nd /\
      forall e,
        In e (index nd) <->
        In e (index pnode) /\
        ~ exists t tn,
            In t target /\ dict_get (populations G) t = Some tn /\
            In e (index tn).

(** With an empty list of targets [np.concatenate] raises and no population
    is created: [subtraction([], "A", "AnotB")] on [root -> A -> B]. *)
Lemma subtraction_total_on_known_counterexample :
  ~ subtraction_total_on_known.
Proof.
  intros Hclaim.
  destruct (Hclaim Fixtures.G_AB "A" "AnotB" []
              (mkNode "A" (Some "root") [1; 2; 3; 4]%Z
                 (Fixtures.axes_geom "rect") (4 # 6) (4 # 6) []))
    as (nd & Hget & _).
  - reflexivity.
  - intros t [].
  - simpl. intros [H | [H | [H | []]]]; discriminate.
  - vm_compute in Hget. discriminate Hget.
Qed.

(** C6 (amended).  For every known parent whose geometry names an x and a
    y axis and whose index lies within the primary data, every non-empty
    list of known targets and every unused new name, [subtraction] returns
    and commits one new population under the parent: its index holds,
    without duplicates, exactly the parent's events that are in no target;
    its geometry is the parent's two axes and the shape marker [sub],
    nothing else; every other population is left as it was. *)
Theorem subtraction_creates_difference :
  forall (G : Gating) (parent new_population_name : string)
         (target : list string) (pnode : Node) (g : Geom) (x y : GVal),
    dict_get (populations G) parent = Some pnode ->
    geom pnode = Some g ->
    dict_get g "x" = Some x -> dict_get g "y" = Some y ->
    incl (index pnode) (df_index (data G)) ->
    target <> [] ->
    (forall t, In t target -> In t (dict_keys (populations G))) ->
    ~ In new_population_name (dict_keys (populations G)) ->
    exists G' nd,
      subtraction target parent new_population_name G = (Ok tt, G') /\
      dict_get (populations G') new_population_name = Some nd /\
      (forall other,
          other <> new_population_name ->
          dict_get (populations G') other = dict_get (populations G) other) /\
      Gating.parent nd = Some parent /\
      (forall e,
          In e (index nd) <->
          In e (index pnode) /\
          ~ exists t tn,
              In t target /\ dict_get (populations G) t = Some tn /\
              In e (index tn)) /\
      NoDup (index nd) /\
      geom nd = Some [("x", x); ("y", y); ("shape", GStr "sub")].
Proof.
  intros G parent new target pnode g x y Hp Hg Hx Hy Hincl Hne Ht Hnew.
  unfold subtraction. run_m.
  assert (Hpm : dict_mem (populations G) parent = true).
  { unfold dict_mem. now rewrite Hp. }
  rewrite Hpm. simpl.
  assert (Htm : forallb (dict_mem (populations G)) target = true).
  { apply forallb_forall. intros t Hin. apply dict_mem_keys. auto. }
  rewrite Htm. simpl.
  assert (Hnm : dict_mem (populations G) new = false).
  { destruct (dict_mem (populations G) new) eqn:E; [| reflexivity].
    exfalso. apply Hnew. now apply dict_mem_keys. }
  rewrite Hnm. simpl.
  unfold node_geom_item, dict_item. rewrite Hp. simpl. rewrite Hg. simpl. rewrite Hx, Hy. simpl.
  rewrite (map_res_ok _ (index_of (populations G))).
  2:{ intros t Hin. unfold index_of. apply Ht in Hin. apply dict_get_keys in Hin.
      destruct (dict_get (populations G) t); [reflexivity | congruence]. }
  simpl.
  assert (Hcat : np_concatenate (map (index_of (populations G)) target) = Ok (List.concat (map (index_of (populations G)) target))).
  { destruct target; [congruence | reflexivity]. }
  rewrite Hcat. simpl.
  rewrite new_collection_geom. rewrite new_collection_index.
  rewrite (population_frame_ok G parent pnode Hp Hincl).
  set (idx := np_setdiff1d (index pnode) (np_unique (List.concat (map (index_of (populations G)) target)))).
  destruct (update_populations_single_ok "sub" new parent
              (mkChild idx
                 (@Some Geom [("x", x); ("y", y); ("shape", GStr "sub")]))
              (mkDataFrame (index pnode) (df_columns (data G)) (df_value (data G)))
              [] G pnode Hp) as (nd & Hnd & Hrun).
  { simpl. destruct idx as [| e t] eqn:Hidx; [now left | right].
    assert (Hin : In e (index pnode)).
    { assert (He : In e idx) by (rewrite Hidx; now left).
      unfold idx in He. apply In_np_setdiff1d in He. tauto. }
    unfold df_rows. simpl. split.
    - destruct (index pnode); [contradiction | discriminate].
    - apply Hincl in Hin. destruct (df_index (data G)); [contradiction | discriminate]. }
  rewrite Hrun. unfold register_gate. run_m.
  eexists. exists nd. split; [reflexivity |]. simpl.
  destruct Hnd as (Hn & Hpar & Hi & Hgeo & _). simpl in Hi, Hgeo.
  split; [rewrite dict_get_set, String.eqb_refl; reflexivity |].
  split.
  { intros other Hother. rewrite dict_get_set.
    destruct (String.eqb_spec other new); [congruence | reflexivity]. }
  split; [exact Hpar |]. split; [| split; [| exact Hgeo]].
  - intros e. rewrite Hi. unfold idx.
    rewrite In_np_setdiff1d, In_np_unique, in_concat.
    split; intros [Hin Hnot]; (split; [exact Hin |]); intros Hex; apply Hnot.
    + destruct Hex as (t & tn & Ht1 & Ht2 & Ht3).
      exists (index_of (populations G) t). split.
      * now apply in_map.
      * unfold index_of. now rewrite Ht2.
    + destruct Hex as (l & Hl & He). apply in_map_iff in Hl.
      destruct Hl as (t & <- & Ht1). unfold index_of in He.
      destruct (dict_get (populations G) t) as [tn |] eqn:Htn;
        [| contradiction].
      now exists t, tn.
  - rewrite Hi. unfold idx, np_setdiff1d.
    apply NoDup_filter, np_unique_NoDup.
Qed.

(** [A] minus [B] in the tree [root -> A -> B] is [{3, 4}]. *)
Lemma subtraction_creates_difference_witness :
  exists G' nd,
    subtraction ["B"] "A" "AnotB" Fixtures.G_AB = (Ok tt, G') /\
    dict_get (populations G') "AnotB" = Some nd /\
    (forall e, In e (index nd) <-> In e [3; 4]%Z) /\
    geom nd
    = Some [("x", GStr "FSC-A"); ("y", GStr "SSC-A"); ("shape", GStr "sub")].
Proof.
  destruct (subtraction_creates_difference Fixtures.G_AB "A" "AnotB" ["B"]
              (mkNode "A" (Some "root") [1; 2; 3; 4]%Z
                 (Fixtures.axes_geom "rect") (4 # 6) (4 # 6) [])
              [("shape", GStr "rect"); ("x", GStr "FSC-A");
               ("y", GStr "SSC-A")]
              (GStr "FSC-A") (GStr "SSC-A")
              eq_refl eq_refl eq_refl eq_refl)
    as (G' & nd & Hrun & Hget & _ & _ & _ & _ & Hgeom).
  - intros e He. simpl in *. tauto.
  - discriminate.
  - intros t [<- | []]. simpl. auto.
  - simpl. intros [H | [H | [H | []]]]; discriminate.
  - exists G', nd. split; [exact Hrun |]. split; [exact Hget |].
    assert (Hnd : populations G'
                  = populations (snd (subtraction ["B"] "A" "AnotB"
                                        Fixtures.G_AB)))
      by (now rewrite Hrun).
    rewrite Hnd in Hget. vm_compute in Hget.
    injection Hget as <-. split; [reflexivity |]. reflexivity.
Defined.

End TreeProofs.

(** ** FMO prediction and its cache *)

Module FmoProofs.
Import Py PyFacts Gating.

(** The route the specification describes: walking from the target up, the
    populations strictly below the nearest population that has an entry in
    the control's cache, and that population. *)
Fixpoint below_nearest_cached (cached : dict (list Z))
  (rev_path : list string) (acc : list string)
  : list string * option string :=
  match rev_path with
  | [] => (acc, None)
  | pop :: t =>
      if dict_mem cached pop then (acc, Some pop)
      else below_nearest_cached cached t (pop :: acc)
  end.

(** A cache hit: the cached index is returned as rows of the control, and
    the state, the log of classifier fits included, is left as it was. *)
Lemma get_fmo_data_cache_hit (ext : External) (G : Gating)
  (target_population fmo : string) (sml_profiles : option (dict Geom))
  (c : dict (list Z)) (idx : list Z) :
  dict_get (fmo_search_cache G) fmo = Some c ->
  dict_get c target_population = Some idx ->
  get_fmo_data target_population fmo sml_profiles G
  = ((ctrl <- dict_item (Gating.fmo G) fmo ;; loc ctrl idx)%py, G).
Proof.
  intros Hc Hidx. unfold get_fmo_data, bindM, get, lift, search_fmo_cache.
  unfold dict_item at 1. rewrite Hc. simpl. rewrite Hidx. reflexivity.
Qed.


(** When no population of the route is named like a control, the search
    for a start position finds nothing and the whole route is predicted
    again. *)
Lemma find_start_none (cache_keys rev_route : list string) (i : nat) :
  (forall pop, In pop rev_route -> ~ In pop cache_keys) ->
  find_start cache_keys rev_route i = None.
Proof.
  revert i. induction rev_route as [| pop t IH]; intros i Hall; simpl.
  - reflexivity.
  - destruct (str_mem pop cache_keys) eqn:E.
    + apply str_mem_In in E. exfalso. apply (Hall pop); [now left | exact E].
    + apply IH. intros q Hq. apply Hall. now right.
Qed.

(** C2 (the code at the failing input).  In the tree [root -> A -> B] with
    [A] already cached for the control [ctrl], [B] has no entry and its
    nearest cached ancestor is [A], so the route of the specification is
    [B] alone, resumed from the cached index of [A].  The call
    [get_fmo_data("B", "ctrl")] instead fits the classifier for [A] and then
    for [B], starting again from the [root] entry. *)
Theorem get_fmo_data_restarts_from_root :
  search_fmo_cache Fixtures.G_cached_A "B" "ctrl" = Ok None /\
  search_fmo_cache Fixtures.G_cached_A "A" "ctrl"
  = Ok (Some [1; 2; 3; 4]%Z) /\
  dict_get (fmo_search_cache Fixtures.G_cached_A) "ctrl"
  = Some [("root", [1; 2; 3; 4; 5; 6]%Z); ("A", [1; 2; 3; 4]%Z)] /\
  below_nearest_cached
    [("root", [1; 2; 3; 4; 5; 6]%Z); ("A", [1; 2; 3; 4]%Z)]
    (rev (node_path (populations Fixtures.G_cached_A) "B")) []
  = (["B"], Some "A") /\
  find_start (dict_keys (fmo_search_cache Fixtures.G_cached_A))
    (rev (tl (node_path (populations Fixtures.G_cached_A) "B"))) 0 = None /\
  knn_fit_log Fixtures.G_cached_A = [("ctrl", "A")] /\
  knn_fit_log
    (snd (get_fmo_data (ext := Fixtures.demo_external) "B" "ctrl" None
            Fixtures.G_cached_A))
  = [("ctrl", "A"); ("ctrl", "A"); ("ctrl", "B")].
Proof. vm_compute. repeat split. Qed.


End FmoProofs.

(** ** The subset invariant of the population tree *)

Module InvariantProofs.
Import Py PyFacts Gating TreeProofs.

(** *** Well-formed trees and the traversals of [anytree] *)

(** The position of a key in a dictionary's key order. *)
Fixpoint key_rank (ks : list string) (n : string) : nat :=
  match ks with
  | [] => 0
  | k :: t => if String.eqb n k then 0 else S (key_rank t n)
  end.

(** A well-formed population tree: names are unique, the only node without
    parent is [root], and every other node was attached to a parent that
    was already there (parents come before their children). *)
Definition tree_ok (pops : dict Node) : Prop :=
  NoDup (dict_keys pops) /\
  forall n nd,
    dict_get pops n = Some nd ->
    match parent nd with
    | None => n = "root"
    | Some p =>
        (key_rank (dict_keys pops) p < key_rank (dict_keys pops) n)%nat
    end.

Lemma key_rank_In (ks : list string) (n : string) :
  In n ks <-> (key_rank ks n < List.length ks)%nat.
Proof.
  induction ks as [| k t IH]; simpl.
  - split; [tauto | lia].
  - destruct (String.eqb_spec n k) as [-> | Hne].
    + split; [lia | auto].
    + rewrite <- Nat.succ_lt_mono, <- IH. split; [| auto].
      intros [H | H]; [congruence | assumption].
Qed.

Lemma dict_keys_length {V : Type} (d : dict V) :
  List.length (dict_keys d) = List.length d.
Proof. apply length_map. Qed.

Lemma dict_get_Some_keys {V : Type} (d : dict V) (k : string) (v : V) :
  dict_get d k = Some v -> In k (dict_keys d).
Proof. intros H. apply dict_get_keys. congruence. Qed.

Lemma keys_dict_get {V : Type} (d : dict V) (k : string) :
  In k (dict_keys d) -> exists v, dict_get d k = Some v.
Proof.
  intros H. apply dict_get_keys in H.
  destruct (dict_get d k) as [v |]; [now exists v | congruence].
Qed.

Lemma tree_ok_parent_known (pops : dict Node) (n p : string) (nd : Node) :
  tree_ok pops -> dict_get pops n = Some nd -> parent nd = Some p ->
  exists pn, dict_get pops p = Some pn.
Proof.
  intros [_ Hord] Hget Hpar. specialize (Hord n nd Hget). rewrite Hpar in Hord.
  apply keys_dict_get, key_rank_In.
  apply dict_get_Some_keys, key_rank_In in Hget. lia.
Qed.

Lemma ancestors_stable (pops : dict Node) :
  tree_ok pops ->
  forall f1 f2 n,
    (key_rank (dict_keys pops) n < f1)%nat ->
    (key_rank (dict_keys pops) n < f2)%nat ->
    ancestors f1 pops n = ancestors f2 pops n.
Proof.
  intros [_ Hord]. induction f1 as [| f1 IH]; intros f2 n H1 H2; [lia |].
  destruct f2 as [| f2]; [lia |]. simpl.
  destruct (dict_get pops n) as [nd |] eqn:Hget; [| reflexivity].
  specialize (Hord n nd Hget).
  destruct (parent nd) as [p |]; [| reflexivity].
  f_equal. apply IH; lia.
Qed.

Lemma ancestors_child (pops : dict Node) (n p : string) (nd : Node) :
  tree_ok pops -> dict_get pops n = Some nd -> parent nd = Some p ->
  ancestors (List.length pops) pops n
  = n :: ancestors (List.length pops) pops p.
Proof.
  intros Hok Hget Hpar.
  pose proof (dict_get_Some_keys _ _ _ Hget) as Hin.
  apply key_rank_In in Hin. rewrite dict_keys_length in Hin.
  destruct Hok as [Hnd Hord]. pose proof (Hord n nd Hget) as Hlt.
  rewrite Hpar in Hlt.
  destruct (List.length pops) as [| L] eqn:HL; [lia |].
  transitivity (n :: ancestors L pops p).
  - cbn [ancestors]. now rewrite Hget, Hpar.
  - f_equal. apply ancestors_stable; [split; assumption | lia | lia].
Qed.

Lemma ancestors_head (pops : dict Node) (n : string) (f : nat) :
  In n (ancestors (S f) pops n).
Proof.
  simpl. destruct (dict_get pops n) as [nd |]; [| now left].
  destruct (parent nd); now left.
Qed.

Lemma node_path_In (pops : dict Node) (c n : string) :
  In c (node_path pops n) <-> In c (ancestors (List.length pops) pops n).
Proof. unfold node_path. symmetry. apply in_rev. Qed.

Lemma node_children_In (pops : dict Node) (p n : string) :
  In n (node_children pops p) <->
  exists nd, In (n, nd) pops /\ parent nd = Some p.
Proof.
  unfold node_children, dict_keys. rewrite in_map_iff. split.
  - intros [[k nd] [Hk Hin]]. simpl in Hk. subst k.
    apply filter_In in Hin. destruct Hin as [Hin Hpar]. simpl in Hpar.
    exists nd. split; [assumption |].
    destruct (parent nd) as [q |]; [| discriminate].
    apply String.eqb_eq in Hpar. now subst.
  - intros [nd [Hin Hpar]]. exists (n, nd). split; [reflexivity |].
    apply filter_In. split; [assumption |]. simpl. rewrite Hpar.
    apply String.eqb_refl.
Qed.

Lemma preorder_mono (pops : dict Node) (f f' : nat) (a x : string) :
  (f <= f')%nat -> In x (PreOrderIter f pops a) ->
  In x (PreOrderIter f' pops a).
Proof.
  revert f' a. induction f as [| f IH]; intros f' a Hle Hin; [contradiction |].
  destruct f' as [| f']; [lia |]. simpl in *.
  destruct Hin as [Hin | Hin]; [now left | right].
  apply in_flat_map in Hin. destruct Hin as [b [Hb Hin]].
  apply in_flat_map. exists b. split; [assumption |]. apply IH; [lia | assumption].
Qed.

Lemma preorder_step (pops : dict Node) (f : nat) (a p n : string) :
  In p (PreOrderIter f pops a) -> In n (node_children pops p) ->
  In n (PreOrderIter (S f) pops a).
Proof.
  revert a. induction f as [| f IH]; intros a Hp Hn; [contradiction |].
  cbn [PreOrderIter] in Hp. destruct Hp as [-> | Hp].
  - cbn [PreOrderIter]. right. apply in_flat_map. exists n.
    split; [assumption |]. now left.
  - apply in_flat_map in Hp. destruct Hp as [b [Hb Hp]].
    change (PreOrderIter (S (S f)) pops a)
      with (a :: flat_map (PreOrderIter (S f) pops) (node_children pops a)).
    right. apply in_flat_map. exists b. split; [assumption |].
    now apply IH.
Qed.

Lemma preorder_complete (pops : dict Node) :
  tree_ok pops ->
  forall n, In n (dict_keys pops) ->
            In n (PreOrderIter (List.length pops) pops "root").
Proof.
  intros Hok.
  assert (Hrank : forall k n,
             (key_rank (dict_keys pops) n < k)%nat ->
             In n (dict_keys pops) ->
             In n (PreOrderIter (S (key_rank (dict_keys pops) n)) pops
                     "root")).
  { induction k as [| k IH]; intros n Hlt Hin; [lia |].
    destruct (keys_dict_get _ _ Hin) as [nd Hget].
    destruct Hok as [Hnd Hord]. pose proof (Hord n nd Hget) as Hpar.
    destruct (parent nd) as [p |] eqn:Hp.
    - assert (Hpin : In p (dict_keys pops)).
      { apply key_rank_In. apply key_rank_In in Hin. lia. }
      apply preorder_step with (p := p).
      + apply preorder_mono with (f := S (key_rank (dict_keys pops) p));
          [lia |]. apply IH; [lia | assumption].
      + apply node_children_In. exists nd. split; [| assumption].
        now apply dict_get_In.
    - subst n. now left. }
  intros n Hin. pose proof Hin as Hlt. apply key_rank_In in Hlt.
  rewrite dict_keys_length in Hlt.
  apply preorder_mono with (f := S (key_rank (dict_keys pops) n)); [lia |].
  apply (Hrank (S (key_rank (dict_keys pops) n))); [lia | assumption].
Qed.

(** The list [find_dependencies] computes for a known population. *)
Definition deps (pops : dict Node) (c : string) : list string :=
  filter (fun n => str_mem c (node_path pops n))
    (PreOrderIter (List.length pops) pops "root").

Lemma deps_self (pops : dict Node) (c : string) :
  tree_ok pops -> In c (dict_keys pops) -> In c (deps pops c).
Proof.
  intros Hok Hin. unfold deps. apply filter_In. split.
  - now apply preorder_complete.
  - apply str_mem_In, node_path_In.
    apply key_rank_In in Hin. rewrite dict_keys_length in Hin.
    destruct (List.length pops); [lia |]. apply ancestors_head.
Qed.

Lemma deps_closed (pops : dict Node) (c p n : string) (nd : Node) :
  tree_ok pops -> In p (deps pops c) ->
  dict_get pops n = Some nd -> parent nd = Some p ->
  In n (deps pops c).
Proof.
  intros Hok Hp Hget Hpar. unfold deps in *.
  apply filter_In in Hp. destruct Hp as [_ Hc].
  apply filter_In. split.
  - apply preorder_complete; [assumption |].
    now apply dict_get_Some_keys in Hget.
  - apply str_mem_In, node_path_In.
    rewrite (ancestors_child pops n p nd Hok Hget Hpar). right.
    now apply node_path_In, str_mem_In.
Qed.


(** *** Removing populations *)

(** Dictionaries filtered by key. *)
Definition keep_keys {V : Type} (f : string -> bool) (d : dict V) : dict V :=
  filter (fun kv => f (fst kv)) d.

Lemma keep_keys_all {V : Type} (f : string -> bool) (d : dict V) :
  (forall k, In k (dict_keys d) -> f k = true) -> keep_keys f d = d.
Proof.
  induction d as [| [k v] t IH]; intros Hall; simpl; [reflexivity |].
  rewrite (Hall k (or_introl eq_refl)). f_equal.
  apply IH. intros k' Hk'. apply Hall. now right.
Qed.

Lemma dict_keys_keep {V : Type} (f : string -> bool) (d : dict V) :
  dict_keys (keep_keys f d) = filter f (dict_keys d).
Proof.
  induction d as [| [k v] t IH]; simpl; [reflexivity |].
  destruct (f k); simpl; now rewrite IH.
Qed.

Lemma dict_get_keep {V : Type} (f : string -> bool) (d : dict V)
  (n : string) :
  dict_get (keep_keys f d) n = if f n then dict_get d n else None.
Proof.
  induction d as [| [k v] t IH]; simpl.
  - now destruct (f n).
  - destruct (f k) eqn:Hk; simpl.
    + destruct (String.eqb_spec n k) as [-> | Hne].
      * now rewrite Hk.
      * exact IH.
    + destruct (String.eqb_spec n k) as [-> | Hne].
      * rewrite IH, Hk. reflexivity.
      * exact IH.
Qed.

Lemma dict_remove_keep {V : Type} (d : dict V) (x : string) :
  NoDup (dict_keys d) ->
  dict_remove d x = keep_keys (fun k => negb (String.eqb k x)) d.
Proof.
  induction d as [| [k v] t IH]; simpl; intros Hnd; [reflexivity |].
  inversion Hnd as [| ? ? Hnot Hnd']; subst.
  destruct (String.eqb_spec x k) as [-> | Hne].
  - rewrite String.eqb_refl. simpl. symmetry. apply keep_keys_all.
    intros k' Hk'. apply negb_true_iff, String.eqb_neq. congruence.
  - assert (Hkx : String.eqb k x = false) by (apply String.eqb_neq; congruence).
    rewrite Hkx. simpl. f_equal. now apply IH.
Qed.

Lemma keep_keys_keep {V : Type} (f g : string -> bool) (d : dict V) :
  keep_keys f (keep_keys g d) = keep_keys (fun k => g k && f k) d.
Proof.
  induction d as [| [k v] t IH]; simpl; [reflexivity |].
  destruct (g k); simpl; [destruct (f k); simpl |]; now rewrite IH.
Qed.

Lemma keep_keys_ext {V : Type} (f g : string -> bool) (d : dict V) :
  (forall k, f k = g k) -> keep_keys f d = keep_keys g d.
Proof.
  intros Hfg. unfold keep_keys. apply filter_ext. intros [k v]. apply Hfg.
Qed.

Lemma keep_keys_set {V : Type} (f : string -> bool) (d : dict V)
  (k : string) (v : V) :
  f k = false -> keep_keys f (dict_set d k v) = keep_keys f d.
Proof.
  intros Hk. induction d as [| [j w] t IH]; simpl.
  - now rewrite Hk.
  - destruct (String.eqb_spec k j) as [-> | Hne]; simpl.
    + now rewrite Hk.
    + now rewrite IH.
Qed.

Lemma NoDup_keep {V : Type} (f : string -> bool) (d : dict V) :
  NoDup (dict_keys d) -> NoDup (dict_keys (keep_keys f d)).
Proof. intros H. rewrite dict_keys_keep. now apply NoDup_filter. Qed.

(** Popping a list of names one by one, when none of the pops raises,
    leaves the entries whose key is not in the list. *)
Lemma for_each_pop_keep (ds : list string) (G G' : Gating) :
  NoDup (dict_keys (populations G)) ->
  for_each ds pop_population G = (Ok tt, G') ->
  populations G'
  = keep_keys (fun k => negb (str_mem k ds)) (populations G).
Proof.
  revert G. induction ds as [| x t IH]; intros G Hnd Hrun.
  - simpl in Hrun. injection Hrun as <-. symmetry. now apply keep_keys_all.
  - simpl in Hrun. unfold bindM in Hrun.
    unfold pop_population at 1 in Hrun. unfold bindM, get, lift, put in Hrun.
    unfold dict_pop in Hrun.
    destruct (dict_mem (populations G) x); simpl in Hrun; [| discriminate].
    apply IH in Hrun.
    + rewrite Hrun. simpl. rewrite (dict_remove_keep _ _ Hnd), keep_keys_keep.
      apply keep_keys_ext. intros k. simpl.
      rewrite (String.eqb_sym k x). now rewrite negb_orb.
    + simpl. rewrite (dict_remove_keep _ _ Hnd). now apply NoDup_keep.
Qed.

Lemma key_rank_filter (f : string -> bool) (ks : list string) (a b : string) :
  f a = true -> f b = true ->
  (key_rank ks a < key_rank ks b)%nat ->
  (key_rank (filter f ks) a < key_rank (filter f ks) b)%nat.
Proof.
  intros Ha Hb. induction ks as [| k t IH]; simpl; [lia |].
  destruct (String.eqb_spec a k) as [-> | Hak].
  - rewrite Ha. simpl. rewrite String.eqb_refl.
    destruct (String.eqb_spec b k) as [-> | Hbk]; lia.
  - destruct (String.eqb_spec b k) as [-> | Hbk]; [lia |].
    intros Hlt. apply Nat.succ_lt_mono in Hlt. specialize (IH Hlt).
    destruct (f k); simpl; [| assumption].
    apply String.eqb_neq in Hak, Hbk. rewrite Hak, Hbk. lia.
Qed.

(** Removing a set of nodes that contains the children of its members
    leaves a well-formed tree. *)
Lemma tree_ok_keep (pops : dict Node) (f : string -> bool) :
  tree_ok pops ->
  (forall n nd p,
      dict_get pops n = Some nd -> parent nd = Some p ->
      f n = true -> f p = true) ->
  tree_ok (keep_keys f pops).
Proof.
  intros [Hnd Hord] Hclosed. split; [now apply NoDup_keep |].
  intros n nd Hget. rewrite dict_get_keep in Hget.
  destruct (f n) eqn:Hn; [| discriminate].
  specialize (Hord n nd Hget).
  destruct (parent nd) as [p |] eqn:Hp; [| assumption].
  rewrite dict_keys_keep. apply key_rank_filter; try assumption.
  exact (Hclosed n nd p Hget Hp Hn).
Qed.

Lemma tree_ok_has_root (pops : dict Node) (n : string) (nd : Node) :
  tree_ok pops -> dict_get pops n = Some nd ->
  In "root" (dict_keys pops).
Proof.
  intros Hok.
  assert (H : forall k n nd,
             (key_rank (dict_keys pops) n < k)%nat ->
             dict_get pops n = Some nd -> In "root" (dict_keys pops)).
  { induction k as [| k IH]; intros m md Hlt Hget; [lia |].
    pose proof (proj2 Hok m md Hget) as Hpar.
    destruct (parent md) as [p |] eqn:Hp.
    - destruct (tree_ok_parent_known pops m p md Hok Hget Hp) as [pn Hpn].
      apply (IH p pn); [lia | assumption].
    - subst m. now apply dict_get_Some_keys in Hget. }
  intros Hget. apply (H (S (key_rank (dict_keys pops) n)) n nd); [lia | assumption].
Qed.

Lemma find_dependencies_known (G : Gating) (c : string) (nd : Node) :
  tree_ok (populations G) -> dict_get (populations G) c = Some nd ->
  find_dependencies G c = Ok (Some (deps (populations G) c)).
Proof.
  intros Hok Hget. unfold find_dependencies, dict_item, dict_mem.
  rewrite Hget. simpl.
  destruct (keys_dict_get _ _ (tree_ok_has_root _ _ _ Hok Hget)) as [r Hr].
  rewrite Hr. reflexivity.
Qed.

(** What [remove_population] does to a well-formed tree when it returns:
    nothing for an unknown name, otherwise the population and everything
    below it is gone and the rest is untouched. *)
Lemma remove_population_keep (G G' : Gating) (c : string) :
  tree_ok (populations G) ->
  remove_population c G = (Ok tt, G') ->
  (dict_get (populations G) c = None /\ G' = G) \/
  (In c (deps (populations G) c) /\
   populations G'
   = keep_keys (fun k => negb (str_mem k (deps (populations G) c)))
       (populations G)).
Proof.
  intros Hok Hrun. unfold remove_population in Hrun.
  unfold bindM at 1 in Hrun. unfold get at 1 in Hrun.
  destruct (dict_mem (populations G) c) eqn:Hmem; simpl in Hrun.
  - right. unfold dict_mem in Hmem.
    destruct (dict_get (populations G) c) as [nd |] eqn:Hget;
      [| discriminate].
    assert (Hself : In c (deps (populations G) c)).
    { apply deps_self; [assumption |]. now apply dict_get_Some_keys in Hget. }
    split; [assumption |].
    unfold find_dependencies_m, bindM, get, lift, put in Hrun.
    rewrite (find_dependencies_known G c nd Hok Hget) in Hrun.
    unfold dict_item in Hrun. rewrite Hget in Hrun. simpl in Hrun.
    apply for_each_pop_keep in Hrun.
    + rewrite Hrun. simpl. apply keep_keys_set.
      apply negb_false_iff, str_mem_In. assumption.
    + simpl.
      assert (Hkeys : forall (d : dict Node) k v,
                 dict_get d k <> None ->
                 dict_keys (dict_set d k v) = dict_keys d).
      { clear. intros d k v. induction d as [| [j w] t IH]; simpl.
        - congruence.
        - destruct (String.eqb_spec k j) as [-> | Hne]; simpl.
          + reflexivity.
          + intros H. now rewrite IH. }
      rewrite Hkeys by congruence. apply Hok.
  - left. injection Hrun as <-. split; [| reflexivity].
    now apply dict_mem_false.
Qed.

Lemma remove_population_tree_ok (G G' : Gating) (c : string) :
  tree_ok (populations G) ->
  remove_population c G = (Ok tt, G') ->
  tree_ok (populations G') /\
  (forall n nd, dict_get (populations G') n = Some nd ->
                dict_get (populations G) n = Some nd) /\
  dict_get (populations G') c = None.
Proof.
  intros Hok Hrun.
  destruct (remove_population_keep G G' c Hok Hrun)
    as [[Hnone ->] | [Hself Hpops]].
  - auto.
  - rewrite Hpops. split; [| split].
    + apply tree_ok_keep; [assumption |].
      intros n nd p Hget Hpar Hn.
      destruct (str_mem p (deps (populations G) c)) eqn:Hp; [| reflexivity].
      apply str_mem_In in Hp.
      pose proof (deps_closed _ c p n nd Hok Hp Hget Hpar) as Hin.
      apply str_mem_In in Hin. rewrite Hin in Hn. discriminate.
    + intros n nd Hget. rewrite dict_get_keep in Hget.
      destruct (negb (str_mem n (deps (populations G) c)));
        [assumption | discriminate].
    + rewrite dict_get_keep. apply str_mem_In in Hself. now rewrite Hself.
Qed.

(** *** The region evaluator returns rows of the parent *)

(** What the proofs ask of the two external functions that produce frames:
    a transform changes values, not the rows of the frame, and the polygon
    test returns some of the rows it was given. *)
Definition transform_keeps_rows (ext : External) : Prop :=
  forall df m fs df',
    apply_transform df m fs = Ok df' -> df_index df' = df_index df.

Definition polygon_selects_rows (ext : External) : Prop :=
  forall df x y poly pos,
    inside_polygon df x y poly = Ok pos ->
    incl (df_index pos) (df_index df).

Lemma bind_ok {A B : Type} (r : Res A) (k : A -> Res B) (b : B) :
  bind r k = Ok b -> exists a, r = Ok a /\ k a = Ok b.
Proof. destruct r as [a | e]; simpl; [eauto | discriminate]. Qed.

Ltac inv_bind H :=
  let a := fresh "a" in
  let Ha := fresh "Ha" in
  apply bind_ok in H; destruct H as (a & Ha & H).

Ltac inv_binds H :=
  repeat match type of H with
         | bind _ _ = Ok _ => inv_bind H
         end.

Section EvaluatorRows.

Variable ext : External.
Hypothesis Hkeep : transform_keeps_rows ext.
Hypothesis Hpoly : polygon_selects_rows ext.

(** The rows of an optional frame lie within [L]. *)
Definition rows_within (o : option DataFrame) (L : list Z) : Prop :=
  forall df, o = Some df -> incl (df_index df) L.

Lemma need_frame_rows (o : option DataFrame) (L : list Z) (df : DataFrame) :
  rows_within o L -> need_frame o = Ok df -> incl (df_index df) L.
Proof.
  intros Hw. destruct o as [df0 |]; simpl; [| discriminate].
  intros [= <-]. now apply Hw.
Qed.

Lemma df_where_incl (df : DataFrame) (keep : Z -> bool) :
  incl (df_where df keep) (df_index df).
Proof. intros e He. unfold df_where in He. apply filter_In in He. tauto. Qed.

Lemma complement_incl (df : DataFrame) (pos : list Z) :
  incl (complement df pos) (df_index df).
Proof. apply df_where_incl. Qed.

Lemma mask_select_incl (df : DataFrame) (mask : list bool) (idx : list Z) :
  mask_select df mask = Ok idx -> incl idx (df_index df).
Proof.
  unfold mask_select. destruct (Nat.eqb _ _); [| discriminate].
  intros [= <-] e He. apply in_map_iff in He.
  destruct He as [[i b] [<- Hin]]. apply filter_In in Hin.
  destruct Hin as [Hin _]. now apply in_combine_l in Hin.
Qed.

Lemma geom_bool_incl (geom : Geom) (d : string) (p : DataFrame)
  (idx : list Z) :
  geom_bool geom d p = Ok idx -> incl idx (df_index p).
Proof.
  intros Hrun e He.
  destruct (RegionProofs.geom_bool_inv geom d p idx Hrun)
    as (cx & cy & tx & ty & _ & _ & _ & _ & Hiff).
  apply Hiff in He. tauto.
Qed.

Lemma threshold_index_incl (geom : Geom) (o : option DataFrame)
  (L idx : list Z) :
  rows_within o L -> threshold_index geom o = Ok idx -> incl idx L.
Proof.
  intros Hw Hrun. unfold threshold_index in Hrun.
  inv_binds Hrun.
  destruct (is_str a2 "+").
  - inv_binds Hrun. injection Hrun as <-.
    eapply incl_tran; [apply df_where_incl |].
    eapply need_frame_rows; eauto.
  - destruct (is_str a2 "-"); [| discriminate].
    inv_binds Hrun. injection Hrun as <-.
    eapply incl_tran; [apply df_where_incl |].
    eapply need_frame_rows; eauto.
Qed.

Lemma map_res_incl {A : Type} (f : A -> Res (list Z)) (l : list A)
  (res : list (list Z)) (L : list Z) :
  (forall a idx, f a = Ok idx -> incl idx L) ->
  map_res f l = Ok res -> incl (List.concat res) L.
Proof.
  intros Hf. revert res. induction l as [| a t IH]; intros res Hrun.
  - simpl in Hrun. injection Hrun as <-. intros e [].
  - simpl in Hrun. inv_binds Hrun. injection Hrun as <-. simpl.
    apply incl_app; [eapply Hf; eauto | now apply IH].
Qed.

Lemma threshold_2d_index_incl (geom : Geom) (y : GVal)
  (o : option DataFrame) (L idx : list Z) :
  rows_within o L -> threshold_2d_index geom y o = Ok idx -> incl idx L.
Proof.
  intros Hw Hrun. unfold threshold_2d_index in Hrun.
  inv_binds Hrun.
  assert (Hone : forall d idx',
             (p <- need_frame o ;; geom_bool geom d p)%py = Ok idx' ->
             incl idx' L).
  { intros d idx' H. inv_binds H.
    eapply incl_tran; [eapply geom_bool_incl; eauto |].
    eapply need_frame_rows; eauto. }
  destruct a3; try (eapply Hone; exact Hrun).
  inv_binds Hrun. injection Hrun as <-.
  eapply map_res_incl; [| eauto]. intros d idx' H.
  apply (Hone d idx'). exact H.
Qed.

Lemma rect_index_incl (geom : Geom) (y : GVal) (o : option DataFrame)
  (L idx : list Z) :
  rows_within o L -> rect_index geom y o = Ok idx -> incl idx L.
Proof.
  intros Hw Hrun. unfold rect_index in Hrun.
  inv_binds Hrun.
  assert (Hp : incl (df_index a3) L) by (eapply need_frame_rows; eauto).
  destruct (is_str _ "+").
  - injection Hrun as <-. eapply incl_tran; [apply df_where_incl | exact Hp].
  - destruct (is_str _ "-"); [| discriminate].
    injection Hrun as <-. eapply incl_tran; [apply complement_incl | exact Hp].
Qed.

Lemma ellipse_index_incl (geom : Geom) (y : GVal)
  (o : option DataFrame) (L idx : list Z) :
  rows_within o L -> ellipse_index geom y o = Ok idx -> incl idx L.
Proof.
  intros Hw Hrun. unfold ellipse_index in Hrun.
  inv_binds Hrun.
  assert (Hp : incl (df_index a5) L) by (eapply need_frame_rows; eauto).
  assert (Hpos : incl a12 (df_index a5)) by (eapply mask_select_incl; eauto).
  destruct (is_str _ "+").
  - injection Hrun as <-. eapply incl_tran; eauto.
  - destruct (is_str _ "-"); [| discriminate].
    injection Hrun as <-. eapply incl_tran; [apply complement_incl | exact Hp].
Qed.

Lemma poly_index_incl (geom : Geom) (x y : GVal)
  (o : option DataFrame) (L idx : list Z) :
  rows_within o L -> poly_index geom x y o = Ok idx -> incl idx L.
Proof.
  intros Hw Hrun. unfold poly_index in Hrun.
  inv_binds Hrun.
  destruct (geom_get geom "cords"); try discriminate.
  inv_binds Hrun. injection Hrun as <-.
  eapply incl_tran; [eapply Hpoly; eauto |].
  eapply need_frame_rows; eauto.
Qed.

Lemma transform_axis_rows (o o' : option DataFrame)
  (t a : GVal) (L : list Z) :
  rows_within o L -> transform_axis o t a = Ok o' -> rows_within o' L.
Proof.
  intros Hw Hrun. unfold transform_axis in Hrun.
  destruct (negb (is_none t) && negb (is_none a)).
  - inv_binds Hrun. injection Hrun as <-. intros df [= <-].
    rewrite (Hkeep _ _ _ _ Ha0). eapply need_frame_rows; eauto.
  - injection Hrun as <-. assumption.
Qed.

Lemma get_population_df_rows (G : Gating) (p : string)
  (o : option DataFrame) :
  get_population_df G p = Ok o ->
  forall pn, dict_get (populations G) p = Some pn ->
             rows_within o (index pn).
Proof.
  unfold get_population_df. intros Hrun pn Hpn. rewrite Hpn in Hrun.
  inv_binds Hrun. injection Hrun as <-. intros df [= <-].
  apply loc_index in Ha. rewrite Ha. apply incl_refl.
Qed.

(** [__update_index] returns events of the parent population. *)
Lemma update_index_incl (G : Gating) (c : string)
  (g : Geom) (idx : list Z) :
  __update_index G c g = Ok idx ->
  exists nd p,
    dict_get (populations G) c = Some nd /\ parent nd = Some p /\
    forall pn, dict_get (populations G) p = Some pn ->
               incl idx (index pn).
Proof.
  intros Hrun. unfold __update_index in Hrun.
  inv_binds Hrun.
  unfold dict_item in Ha0.
  destruct (dict_get (populations G) c) as [nd |] eqn:Hnd; [| discriminate].
  injection Ha0 as <-.
  destruct (parent nd) as [p |] eqn:Hp; [| discriminate].
  injection Ha1 as <-.
  exists nd, p. split; [reflexivity |]. split; [exact Hp |].
  intros pn Hpn.
  assert (Hw : rows_within a5 (index pn)).
  { eapply transform_axis_rows; [| eassumption].
    eapply transform_axis_rows; [| eassumption].
    eapply get_population_df_rows; eauto. }
  destruct (is_str a6 "threshold");
    [eapply threshold_index_incl; eauto |].
  destruct (is_str a6 "2d_threshold");
    [eapply threshold_2d_index_incl; eauto |].
  destruct (is_str a6 "rect"); [eapply rect_index_incl; eauto |].
  destruct (is_str a6 "ellipse"); [eapply ellipse_index_incl; eauto |].
  destruct (is_str a6 "poly"); [eapply poly_index_incl; eauto |].
  discriminate.
Qed.

End EvaluatorRows.

(** *** Runs of the methods that return *)

Lemma bindM_inv {A B : Type} (m : M A) (k : A -> M B) (G G' : Gating)
  (b : B) :
  bindM m k G = (Ok b, G') ->
  exists a G1, m G = (Ok a, G1) /\ k a G1 = (Ok b, G').
Proof.
  unfold bindM. destruct (m G) as [[a | e] G1]; [eauto | discriminate].
Qed.

Lemma lift_inv {A : Type} (r : Res A) (G G' : Gating) (a : A) :
  lift r G = (Ok a, G') -> r = Ok a /\ G' = G.
Proof. unfold lift. intros [= -> ->]. auto. Qed.

Lemma get_inv (G G' a : Gating) : get G = (Ok a, G') -> a = G /\ G' = G.
Proof. unfold get. intros [= -> ->]. auto. Qed.

Lemma put_inv (G0 G G' : Gating) (u : unit) :
  put G0 G = (Ok u, G') -> G' = G0.
Proof. unfold put. intros [= _ ->]. reflexivity. Qed.

Lemma ret_inv {A : Type} (a b : A) (G G' : Gating) :
  ret a G = (Ok b, G') -> b = a /\ G' = G.
Proof. unfold ret. intros [= -> ->]. auto. Qed.

Ltac inv_m H :=
  repeat
    (cbv beta in H;
     match type of H with
     | bindM (lift _) _ _ = (Ok _, _) =>
         let a := fresh "a" in
         let G1 := fresh "G" in
         let Hl := fresh "Hl" in
         apply bindM_inv in H; destruct H as (a & G1 & Hl & H);
         apply lift_inv in Hl; destruct Hl as [Hl ->]
     | bindM get _ _ = (Ok _, _) =>
         let a := fresh "a" in
         let G1 := fresh "G" in
         let Hl := fresh "Hl" in
         apply bindM_inv in H; destruct H as (a & G1 & Hl & H);
         apply get_inv in Hl; destruct Hl as [-> ->]
     | bindM _ _ _ = (Ok _, _) =>
         let a := fresh "a" in
         let G1 := fresh "G" in
         let Hl := fresh "Hm" in
         apply bindM_inv in H; destruct H as (a & G1 & Hl & H)
     end).

(** *** Committing populations: [update_populations], [subtraction], [merge] *)

(** The subset invariant: every population that has a parent holds only
    events of that parent, and the parent is in the tree. *)
Definition subset_ok (pops : dict Node) : Prop :=
  forall nm nd p,
    dict_get pops nm = Some nd -> parent nd = Some p ->
    exists pn, dict_get pops p = Some pn /\ incl (index nd) (index pn).

Definition subset_invariant (G : Gating) : Prop := subset_ok (populations G).



Lemma register_gate_populations (g : Gate) (G G' : Gating) (u : unit) :
  register_gate g G = (Ok u, G') -> populations G' = populations G.
Proof.
  unfold register_gate, bindM, get, put. intros [= _ <-]. reflexivity.
Qed.

Lemma assert_true (b : bool) (msg : string) (u : unit) :
  assert b msg = Ok u -> b = true.
Proof. destruct b; [reflexivity | discriminate]. Qed.




(** *** Editing a gate *)

(** The shape of the tree: the keys in order, each with its parent. *)
Definition shape_of (pops : dict Node) : list (string * option string) :=
  map (fun kv => (fst kv, parent (snd kv))) pops.

Lemma shape_keys (a b : dict Node) :
  shape_of a = shape_of b -> dict_keys a = dict_keys b.
Proof.
  intros H. apply (f_equal (map fst)) in H. unfold shape_of in H.
  rewrite !map_map in H. exact H.
Qed.

Lemma shape_parent (a : dict Node) :
  forall b n,
    shape_of a = shape_of b ->
    option_map parent (dict_get a n) = option_map parent (dict_get b n).
Proof.
  induction a as [| [k v] t IH]; intros [| [k' v'] t'] n H;
    simpl in *; try discriminate; [reflexivity |].
  injection H as -> Hpar Ht.
  destruct (String.eqb n k'); simpl; [now rewrite Hpar | now apply IH].
Qed.

Lemma shape_children (a b : dict Node) (c : string) :
  shape_of a = shape_of b -> node_children a c = node_children b c.
Proof.
  revert b. unfold node_children.
  induction a as [| [k v] t IH]; intros [| [k' v'] t'] H;
    simpl in *; try discriminate; [reflexivity |].
  injection H as -> Hpar Ht. rewrite Hpar.
  destruct (parent v') as [q |]; [destruct (String.eqb q c) |]; simpl;
    rewrite (IH t' Ht); reflexivity.
Qed.

Lemma tree_ok_shape (a b : dict Node) :
  shape_of a = shape_of b -> tree_ok a -> tree_ok b.
Proof.
  intros H [Hnd Hord]. pose proof (shape_keys a b H) as Hk.
  split; [now rewrite <- Hk |].
  intros n nd Hget. rewrite <- Hk.
  pose proof (shape_parent a b n H) as Hp. rewrite Hget in Hp. simpl in Hp.
  destruct (dict_get a n) as [nd0 |] eqn:Hget0; [| discriminate].
  injection Hp as Hp. specialize (Hord n nd0 Hget0). now rewrite Hp in Hord.
Qed.

Lemma shape_dict_set (pops : dict Node) (c : string) (nd nd' : Node) :
  dict_get pops c = Some nd -> parent nd' = parent nd ->
  shape_of (dict_set pops c nd') = shape_of pops.
Proof.
  intros Hget Hpar. induction pops as [| [k v] t IH]; simpl in *;
    [discriminate |].
  destruct (String.eqb_spec c k) as [-> | Hne]; simpl.
  - injection Hget as ->. now rewrite Hpar.
  - now rewrite IH.
Qed.

Lemma dict_set_set {V : Type} (d : dict V) (k : string) (v v' : V) :
  dict_set (dict_set d k v) k v' = dict_set d k v'.
Proof.
  induction d as [| [j w] t IH]; simpl.
  - now rewrite String.eqb_refl.
  - destruct (String.eqb_spec k j) as [-> | Hne]; simpl.
    + now rewrite String.eqb_refl.
    + destruct (String.eqb_spec k j); [congruence |]. now rewrite IH.
Qed.

(** During [edit_gate], the subset relation holds on every edge whose
    parent has not been edited. *)
Definition edges_ok (edited : list string) (pops : dict Node) : Prop :=
  forall n nd p pn,
    dict_get pops n = Some nd -> parent nd = Some p ->
    dict_get pops p = Some pn -> ~ In p edited ->
    incl (index nd) (index pn).

Lemma edges_ok_weaken (E E' : list string) (pops : dict Node) :
  incl E E' -> edges_ok E pops -> edges_ok E' pops.
Proof.
  intros Hsub Hok n nd p pn Hn Hpar Hp Hnot.
  apply (Hok n nd p pn Hn Hpar Hp). intros Hin. apply Hnot. now apply Hsub.
Qed.

Lemma set_node_geom_inv (c : string) (g : Geom) (G G' : Gating) (u : unit) :
  set_node_geom c g G = (Ok u, G') ->
  exists nd,
    dict_get (populations G) c = Some nd /\
    G' = set_populations G
           (dict_set (populations G) c (set_geom nd (Some g))).
Proof.
  intros H. unfold set_node_geom in H. inv_m H.
  unfold dict_item in Hl.
  destruct (dict_get (populations G) c) as [nd |]; [| discriminate].
  injection Hl as <-. apply put_inv in H. eauto.
Qed.

Lemma set_node_index_inv (c : string) (i : list Z) (G G' : Gating)
  (u : unit) :
  set_node_index c i G = (Ok u, G') ->
  exists nd,
    dict_get (populations G) c = Some nd /\
    G' = set_populations G (dict_set (populations G) c (set_index nd i)).
Proof.
  intros H. unfold set_node_index in H. inv_m H.
  unfold dict_item in Hl.
  destruct (dict_get (populations G) c) as [nd |]; [| discriminate].
  injection Hl as <-. apply put_inv in H. eauto.
Qed.

Section Editing.

Variable ext : External.
Hypothesis Hkeep : transform_keeps_rows ext.
Hypothesis Hpoly : polygon_selects_rows ext.

(** One step of the loop of [edit_gate]: the child gets a new geometry and
    an index made of events of its parent; nothing else changes. *)
Lemma edit_child_inv (geoms : dict Geom)
  (acc acc' : list string * list string) (c : string) (G G' : Gating) :
  edit_child geoms acc c G = (Ok acc', G') ->
  exists nd nd',
    dict_get (populations G) c = Some nd /\
    populations G' = dict_set (populations G) c nd' /\
    parent nd' = parent nd /\
    (forall p pn, parent nd = Some p ->
                  dict_get (populations G) p = Some pn ->
                  incl (index nd') (index pn)) /\
    snd acc' = snd acc ++ node_children (populations G') c.
Proof.
  intros H. unfold edit_child in H. inv_m H.
  apply set_node_geom_inv in Hm. destruct Hm as (nd & Hnd & ->).
  apply set_node_index_inv in Hm0. destruct Hm0 as (nd1 & Hnd1 & ->).
  simpl in Hnd1. rewrite dict_get_set, String.eqb_refl in Hnd1.
  injection Hnd1 as <-.
  unfold find_dependencies_m in Hm1. inv_m Hm1.
  apply lift_inv in Hm1. destruct Hm1 as [_ ->].
  apply ret_inv in H. destruct H as [-> ->].
  match goal with
  | Hu : __update_index _ _ ?g = Ok ?i |- _ =>
      rename Hu into Hupd; rename g into g0; rename i into idx
  end.
  exists nd, (set_index (set_geom nd (Some g0)) idx).
  split; [assumption |]. simpl. rewrite dict_set_set.
  split; [reflexivity |]. split; [reflexivity |]. split; [| reflexivity].
  intros p pn Hpar Hp.
  destruct (update_index_incl ext Hkeep Hpoly _ c g0 idx Hupd)
    as (nd2 & p2 & Hnd2 & Hpar2 & Hincl).
  simpl in Hnd2. rewrite dict_get_set, String.eqb_refl in Hnd2.
  injection Hnd2 as <-. simpl in Hpar2.
  assert (p2 = p) by congruence. subst p2.
  simpl in Hincl.
  destruct (String.eqb_spec p c) as [-> | Hne].
  - specialize (Hincl (set_geom nd (Some g0))).
    rewrite dict_get_set, String.eqb_refl in Hincl.
    assert (pn = nd) by congruence. subst pn. now apply Hincl.
  - apply Hincl. rewrite dict_get_set.
    destruct (String.eqb_spec p c); [congruence | assumption].
Qed.

Lemma edit_loop (geoms : dict Geom) :
  forall (cs E : list string) (acc acc' : list string * list string)
         (G G' : Gating),
    edges_ok E (populations G) ->
    fold_m (edit_child geoms) cs acc G = (Ok acc', G') ->
    shape_of (populations G') = shape_of (populations G) /\
    edges_ok (cs ++ E) (populations G') /\
    incl (snd acc) (snd acc') /\
    (forall c, In c cs ->
               incl (node_children (populations G') c) (snd acc')).
Proof.
  induction cs as [| c t IH]; intros E acc acc' G G' Hedges Hrun.
  - simpl in Hrun. apply ret_inv in Hrun. destruct Hrun as [-> ->].
    split; [reflexivity |]. split; [assumption |].
    split; [apply incl_refl | intros c []].
  - simpl in Hrun. apply bindM_inv in Hrun.
    destruct Hrun as (acc1 & G1 & Hstep & Hrun).
    destruct (edit_child_inv geoms acc acc1 c G G1 Hstep)
      as (nd & nd' & Hnd & Hpops & Hpar & Hincl & Hacc).
    assert (Hshape1 : shape_of (populations G1) = shape_of (populations G)).
    { rewrite Hpops. now apply (shape_dict_set _ c nd nd'). }
    assert (Hedges1 : edges_ok (c :: E) (populations G1)).
    { intros n nd0 p pn Hn Hp0 Hp Hnot. rewrite Hpops in Hn, Hp.
      rewrite dict_get_set in Hn, Hp.
      destruct (String.eqb_spec p c) as [-> | Hpc];
        [exfalso; apply Hnot; now left |].
      destruct (String.eqb_spec n c) as [-> | Hnc].
      - injection Hn as <-. apply (Hincl p pn); [congruence | assumption].
      - apply (Hedges n nd0 p pn Hn Hp0 Hp). intros Hin. apply Hnot.
        now right. }
    destruct (IH (c :: E) acc1 acc' G1 G' Hedges1 Hrun)
      as (Hshape & Hedges' & Hsub & Hkids).
    split; [congruence |]. split; [| split].
    + eapply edges_ok_weaken; [| exact Hedges'].
      intros x Hx. apply in_app_iff in Hx. simpl in Hx. simpl.
      rewrite in_app_iff. tauto.
    + intros x Hx. apply Hsub. rewrite Hacc. apply in_app_iff. now left.
    + intros c' [<- | Hin]; [| now apply Hkids].
      intros x Hx. apply Hsub. rewrite Hacc. apply in_app_iff. right.
      now rewrite (shape_children _ _ c Hshape) in Hx.
Qed.

Lemma remove_loop (imm : list string) :
  forall (G G' : Gating),
    tree_ok (populations G) ->
    for_each imm remove_population G = (Ok tt, G') ->
    tree_ok (populations G') /\
    (forall n nd, dict_get (populations G') n = Some nd ->
                  dict_get (populations G) n = Some nd) /\
    (forall c, In c imm -> dict_get (populations G') c = None).
Proof.
  induction imm as [| c t IH]; intros G G' Hok Hrun.
  - simpl in Hrun. apply ret_inv in Hrun. destruct Hrun as [_ ->].
    split; [assumption |]. split; [auto | intros c []].
  - simpl in Hrun. apply bindM_inv in Hrun.
    destruct Hrun as ([] & G1 & Hstep & Hrun).
    destruct (remove_population_tree_ok G G1 c Hok Hstep)
      as (Hok1 & Hsub1 & Hgone).
    destruct (IH G1 G' Hok1 Hrun) as (Hok' & Hsub & Hgone').
    split; [assumption |]. split; [auto |].
    intros c' [<- | Hin]; [| now apply Hgone'].
    destruct (dict_get (populations G') c) as [nd |] eqn:Hget;
      [| reflexivity].
    apply Hsub in Hget. congruence.
Qed.

(** [edit_gate] with [delete=True] on a well-formed tree. *)
Lemma edit_gate_subset (G G' : Gating) (gate_name : string)
  (updated_geom : dict Geom) :
  tree_ok (populations G) -> subset_invariant G ->
  edit_gate gate_name updated_geom true G = (Ok tt, G') ->
  subset_invariant G' /\ tree_ok (populations G').
Proof.
  intros Hok Hinv Hrun. unfold edit_gate in Hrun. inv_m Hrun.
  assert (Hedges : edges_ok [] (populations G)).
  { intros n nd p pn Hn Hpar Hp _.
    destruct (Hinv n nd p Hn Hpar) as (pn' & Hpn' & Hi).
    assert (pn' = pn) by congruence. now subst. }
  destruct (edit_loop updated_geom _ _ _ _ _ _ Hedges Hm)
    as (Hshape & Hedges1 & _ & Hkids).
  assert (Hok1 : tree_ok (populations G0)).
  { apply (tree_ok_shape (populations G)); [now symmetry | assumption]. }
  destruct (remove_loop _ G0 G' Hok1 Hrun) as (Hok' & Hsub & Hgone).
  split; [| assumption].
  intros n nd p Hn Hpar.
  destruct (tree_ok_parent_known _ n p nd Hok' Hn Hpar) as [pn Hpn].
  exists pn. split; [assumption |].
  pose proof (Hsub n nd Hn) as Hn1. pose proof (Hsub p pn Hpn) as Hp1.
  apply (Hedges1 n nd p pn Hn1 Hpar Hp1).
  rewrite app_nil_r. intros Hin.
  assert (Hchild : In n (node_children (populations G0) p)).
  { apply node_children_In. exists nd. split; [| assumption].
    now apply dict_get_In. }
  apply (Hkids p Hin) in Hchild. apply Hgone in Hchild. congruence.
Qed.

End Editing.

(** *** New populations keep the tree well formed *)

Lemma key_rank_app_old (ks l : list string) (x : string) :
  In x ks -> key_rank (ks ++ l) x = key_rank ks x.
Proof.
  induction ks as [| k t IH]; simpl; [tauto |].
  destruct (String.eqb_spec x k) as [-> | Hne]; [reflexivity |].
  intros [H | H]; [congruence | now rewrite IH].
Qed.

Lemma key_rank_app_new (ks : list string) (x : string) :
  ~ In x ks -> key_rank (ks ++ [x]) x = List.length ks.
Proof.
  induction ks as [| k t IH]; simpl; intros Hnot.
  - now rewrite String.eqb_refl.
  - destruct (String.eqb_spec x k) as [-> | Hne]; [tauto |].
    rewrite IH; tauto.
Qed.

Lemma dict_set_fresh {V : Type} (d : dict V) (k : string) (v : V) :
  dict_get d k = None -> dict_set d k v = d ++ [(k, v)].
Proof.
  induction d as [| [j w] t IH]; simpl; [reflexivity |].
  destruct (String.eqb k j); [discriminate |].
  intros H. now rewrite IH.
Qed.

(** Attaching a new name under an existing parent keeps the tree
    well formed. *)
Lemma tree_ok_insert_fresh (pops : dict Node) (nm p : string) (nd : Node) :
  tree_ok pops -> dict_get pops nm = None ->
  parent nd = Some p -> In p (dict_keys pops) ->
  tree_ok (dict_set pops nm nd).
Proof.
  intros [Hnd Hord] Hfresh Hpar Hp.
  assert (Hnot : ~ In nm (dict_keys pops)).
  { intros Hin. apply dict_get_keys in Hin. congruence. }
  assert (Hkeys : dict_keys (dict_set pops nm nd) = dict_keys pops ++ [nm]).
  { rewrite (dict_set_fresh _ _ _ Hfresh). unfold dict_keys.
    now rewrite map_app. }
  split.
  - rewrite Hkeys. apply NoDup_app.
    + assumption.
    + constructor; [intros [] | constructor].
    + intros x Hx [<- | []]. contradiction.
  - intros n nd0 Hget. rewrite Hkeys. rewrite dict_get_set in Hget.
    destruct (String.eqb_spec n nm) as [-> | Hne].
    + injection Hget as <-. rewrite Hpar.
      rewrite (key_rank_app_old _ _ _ Hp), (key_rank_app_new _ _ Hnot).
      now apply key_rank_In.
    + pose proof (Hord n nd0 Hget) as H.
      pose proof (dict_get_Some_keys _ _ _ Hget) as Hn.
      destruct (parent nd0) as [q |]; [| assumption].
      assert (Hq : In q (dict_keys pops)).
      { apply key_rank_In. apply key_rank_In in Hn. lia. }
      now rewrite !key_rank_app_old.
Qed.

Lemma update_populations_tree_ok (rest : dict ChildPopulation) :
  forall (gt : string) (df : DataFrame) (w : list string) (p : string)
         (G G' : Gating),
    tree_ok (populations G) ->
    NoDup (dict_keys rest) ->
    (forall nm, In nm (dict_keys rest) ->
                dict_get (populations G) nm = None) ->
    update_populations (mkCollection gt rest) df w p G = (Ok tt, G') ->
    tree_ok (populations G').
Proof.
  induction rest as [| [nm child] t IH];
    intros gt df w p G G' Hok Hnd Hall Hrun.
  - rewrite update_populations_nil in Hrun. now injection Hrun as <-.
  - apply update_populations_cons in Hrun.
    destruct Hrun as (nd & (_ & Hpar & _) & Hp & Hrun).
    simpl in Hnd. apply NoDup_cons_iff in Hnd. destruct Hnd as [Hnot Hnd'].
    apply (IH gt df w p _ G') in Hrun; try assumption.
    + simpl. apply (tree_ok_insert_fresh _ nm p nd); try assumption.
      * apply Hall. now left.
      * now apply dict_mem_keys.
    + intros nm' Hin. simpl. rewrite dict_get_set.
      destruct (String.eqb_spec nm' nm) as [-> | Hne]; [contradiction |].
      apply Hall. now right.
Qed.

Lemma subtraction_tree_ok (G G' : Gating) (target : list string)
  (parent new_population_name : string) :
  tree_ok (populations G) ->
  subtraction target parent new_population_name G = (Ok tt, G') ->
  tree_ok (populations G').
Proof.
  intros Hok Hrun. unfold subtraction in Hrun. inv_m Hrun.
  match goal with
  | H : assert (negb (dict_mem _ new_population_name)) _ = Ok _ |- _ =>
      apply assert_true in H; apply negb_true_iff, dict_mem_false in H;
      rename H into Hfresh
  end.
  rewrite new_collection_geom in *.
  match goal with
  | H : Ok _ = Ok ?c |- _ => injection H as <-
  end.
  rewrite new_collection_index in *.
  match goal with
  | H : Ok _ = Ok ?c |- _ => injection H as <-
  end.
  apply register_gate_populations in Hrun. rewrite Hrun.
  match goal with
  | Hm : update_populations _ _ _ _ ?G = (Ok ?u, ?G0) |- _ =>
      destruct u;
      refine (update_populations_tree_ok _ _ _ _ _ G G0 Hok _ _ Hm)
  end.
  - constructor; [intros [] | constructor].
  - intros nm [<- | []]. assumption.
Qed.


(** Executable checks of the two invariants, for concrete trees. *)
Definition tree_okb (pops : dict Node) : bool :=
  let ks := dict_keys pops in
  forallb (fun k => Nat.eqb (List.length (filter (String.eqb k) ks)) 1) ks
  && forallb (fun kv : string * Node =>
                match parent (snd kv) with
                | None => String.eqb (fst kv) "root"
                | Some p => Nat.ltb (key_rank ks p) (key_rank ks (fst kv))
                end) pops.

Definition subset_okb (pops : dict Node) : bool :=
  forallb (fun kv : string * Node =>
             match parent (snd kv) with
             | None => true
             | Some p =>
                 match dict_get pops p with
                 | Some pn =>
                     forallb (fun e => z_mem e (index pn)) (index (snd kv))
                 | None => false
                 end
             end) pops.

Lemma once_NoDup (ks : list string) :
  forallb (fun k => Nat.eqb (List.length (filter (String.eqb k) ks)) 1) ks
  = true -> NoDup ks.
Proof.
  induction ks as [| k t IH]; intros H; [constructor |].
  rewrite forallb_forall in H.
  assert (Hocc : forall x, In x t ->
                           (1 <= List.length (filter (String.eqb x) t))%nat).
  { intros x Hx.
    assert (Hf : In x (filter (String.eqb x) t)).
    { apply filter_In. split; [assumption | apply String.eqb_refl]. }
    destruct (filter (String.eqb x) t); [contradiction | simpl; lia]. }
  constructor.
  - intros Hin. specialize (H k (or_introl eq_refl)).
    apply Nat.eqb_eq in H. cbn [filter] in H.
    rewrite String.eqb_refl in H. cbn [List.length] in H.
    specialize (Hocc k Hin). lia.
  - apply IH. apply forallb_forall. intros x Hx.
    specialize (H x (or_intror Hx)). apply Nat.eqb_eq in H.
    apply Nat.eqb_eq. cbn [filter] in H.
    destruct (String.eqb x k); [| assumption].
    cbn [List.length] in H. specialize (Hocc x Hx). lia.
Qed.

Lemma tree_okb_ok (pops : dict Node) : tree_okb pops = true -> tree_ok pops.
Proof.
  unfold tree_okb. intros H. apply andb_true_iff in H. destruct H as [Hk Hp].
  split; [now apply once_NoDup |].
  intros n nd Hget. apply dict_get_In in Hget.
  rewrite forallb_forall in Hp. specialize (Hp (n, nd) Hget). simpl in Hp.
  destruct (parent nd); [now apply Nat.ltb_lt | now apply String.eqb_eq].
Qed.

Lemma subset_okb_ok (pops : dict Node) :
  subset_okb pops = true -> subset_ok pops.
Proof.
  unfold subset_okb. intros H nm nd p Hget Hpar.
  apply dict_get_In in Hget. rewrite forallb_forall in H.
  specialize (H (nm, nd) Hget). simpl in H. rewrite Hpar in H.
  destruct (dict_get pops p) as [pn |]; [| discriminate].
  exists pn. split; [reflexivity |].
  intros e He. rewrite forallb_forall in H. apply z_mem_In. now apply H.
Qed.





Lemma demo_transform_keeps_rows : transform_keeps_rows Fixtures.demo_external.
Proof. intros df m fs df' H. simpl in H. now injection H as <-. Qed.

Lemma demo_polygon_selects_rows :
  polygon_selects_rows Fixtures.demo_external.
Proof.
  intros df x y poly pos H. simpl in H. injection H as <-. apply incl_refl.
Qed.


End InvariantProofs.

(** ** Subtrees: dependents, removal of populations and of gates *)

Module SubtreeProofs.
Import Py PyFacts Gating TreeProofs InvariantProofs.

(** [below pops a x]: the node [x] is [a] or lies under [a]. *)
Inductive below (pops : dict Node) (a : string) : string -> Prop :=
| below_self : below pops a a
| below_child (x p : string) (nd : Node) :
    dict_get pops x = Some nd -> parent nd = Some p ->
    below pops a p -> below pops a x.

Lemma below_trans (pops : dict Node) (a b x : string) :
  below pops a b -> below pops b x -> below pops a x.
Proof.
  intros Hab Hbx. induction Hbx as [| x p nd Hget Hpar _ IH].
  - exact Hab.
  - exact (below_child pops a x p nd Hget Hpar IH).
Qed.

Lemma below_rank (pops : dict Node) (a x : string) :
  tree_ok pops -> below pops a x ->
  x = a \/ (key_rank (dict_keys pops) a < key_rank (dict_keys pops) x)%nat.
Proof.
  intros [_ Hord] H. induction H as [| x p nd Hget Hpar _ IH].
  - now left.
  - right. specialize (Hord x nd Hget). rewrite Hpar in Hord.
    destruct IH as [-> | IH]; lia.
Qed.

(** The path of a node holds exactly the nodes it lies under. *)
Lemma below_ancestors (pops : dict Node) (c x : string) :
  tree_ok pops ->
  In x (dict_keys pops) ->
  (In c (ancestors (List.length pops) pops x) <-> below pops c x).
Proof.
  intros Hok.
  assert (H : forall k x,
             (key_rank (dict_keys pops) x < k)%nat ->
             In x (dict_keys pops) ->
             (In c (ancestors (List.length pops) pops x) <-> below pops c x)).
  { induction k as [| k IH]; intros y Hlt Hin; [lia |].
    destruct (keys_dict_get _ _ Hin) as [nd Hget].
    pose proof (proj2 Hok y nd Hget) as Hord.
    destruct (parent nd) as [p |] eqn:Hpar.
    - rewrite (ancestors_child pops y p nd Hok Hget Hpar).
      destruct (tree_ok_parent_known pops y p nd Hok Hget Hpar) as [pn Hpn].
      assert (IHp : In c (ancestors (List.length pops) pops p)
                    <-> below pops c p).
      { apply IH; [lia |]. now apply dict_get_Some_keys in Hpn. }
      split.
      + intros [<- | Hin']; [constructor |].
        apply (below_child pops c y p nd Hget Hpar). now apply IHp.
      + intros Hb. inversion Hb as [| ? p' nd' Hget' Hpar' Hb']; subst.
        * now left.
        * right. apply IHp. congruence.
    - subst y.
      assert (Hanc : ancestors (List.length pops) pops "root" = ["root"]).
      { destruct pops as [| kv t]; [discriminate |].
        cbn [List.length ancestors]. now rewrite Hget, Hpar. }
      rewrite Hanc. split.
      + intros [<- | []]. constructor.
      + intros Hb. inversion Hb as [| ? p' nd' Hget' Hpar' Hb']; subst.
        * now left.
        * congruence. }
  intros Hin. apply (H (S (key_rank (dict_keys pops) x))); [lia | assumption].
Qed.

Lemma preorder_below (pops : dict Node) :
  NoDup (dict_keys pops) ->
  forall f a x, In x (PreOrderIter f pops a) -> below pops a x.
Proof.
  intros Hnd. induction f as [| f IH]; intros a x Hin; [contradiction |].
  cbn [PreOrderIter] in Hin. destruct Hin as [<- | Hin]; [constructor |].
  apply in_flat_map in Hin. destruct Hin as (b & Hb & Hin).
  apply node_children_In in Hb. destruct Hb as (nd & Hb & Hpar).
  apply (below_trans pops a b x); [| now apply IH].
  apply (below_child pops a b a nd); [| assumption | constructor].
  now apply dict_get_In_unique.
Qed.

(** Two children of one node have no common descendant. *)
Lemma below_sibling (pops : dict Node) (a c c' : string) (nc nc' : Node) :
  tree_ok pops ->
  dict_get pops c = Some nc -> parent nc = Some a ->
  dict_get pops c' = Some nc' -> parent nc' = Some a ->
  below pops c' c -> c = c'.
Proof.
  intros Hok Hc Hpc Hc' Hpc' Hb.
  inversion Hb as [| ? p nd Hget Hpar Hb']; subst; [reflexivity |].
  assert (nd = nc) by congruence. subst nd.
  assert (p = a) by congruence. subst p.
  apply (below_rank pops c' a Hok) in Hb'.
  pose proof (proj2 Hok c' nc' Hc') as Hord. rewrite Hpc' in Hord.
  destruct Hb' as [-> | Hlt]; lia.
Qed.

Lemma below_siblings_disjoint (pops : dict Node) (a c c' x : string)
  (nc nc' : Node) :
  tree_ok pops ->
  dict_get pops c = Some nc -> parent nc = Some a ->
  dict_get pops c' = Some nc' -> parent nc' = Some a ->
  below pops c x -> below pops c' x -> c = c'.
Proof.
  intros Hok Hc Hpc Hc' Hpc' Hb. induction Hb as [| x p nd Hget Hpar Hb IH].
  - intros Hb'. exact (below_sibling pops a c c' nc nc' Hok Hc Hpc Hc' Hpc' Hb').
  - intros Hb'. inversion Hb' as [| ? p' nd' Hget' Hpar' Hb'']; subst.
    + symmetry.
      apply (below_sibling pops a x c nc' nc Hok Hc' Hpc' Hc Hpc).
      exact (below_child pops c x p nd Hget Hpar Hb).
    + apply IH. congruence.
Qed.

Lemma NoDup_flat_map {A B : Type} (g : A -> list B) (l : list A) :
  NoDup l ->
  (forall a, In a l -> NoDup (g a)) ->
  (forall a a' b, In a l -> In a' l -> In b (g a) -> In b (g a') -> a = a') ->
  NoDup (flat_map g l).
Proof.
  induction l as [| a t IH]; intros Hnd Hg Hdisj; simpl; [constructor |].
  inversion Hnd as [| ? ? Hnot Hnd']; subst.
  apply NoDup_app.
  - apply Hg. now left.
  - apply IH; [assumption | intros; apply Hg; now right |].
    intros a1 a2 b H1 H2. apply Hdisj; now right.
  - intros b Hb Hb'. apply in_flat_map in Hb'. destruct Hb' as (a' & Ha' & Hb').
    assert (a = a') by (apply (Hdisj a a' b); auto; [now left | now right]).
    subst a'. contradiction.
Qed.

Lemma NoDup_filter_keys {V : Type} (P : string * V -> bool) (d : dict V) :
  NoDup (dict_keys d) -> NoDup (dict_keys (filter P d)).
Proof.
  induction d as [| [k v] t IH]; simpl; intros Hnd; [constructor |].
  inversion Hnd as [| ? ? Hnot Hnd']; subst.
  destruct (P (k, v)); simpl; [| now apply IH].
  constructor; [| now apply IH].
  intros Hin. apply Hnot. unfold dict_keys in *.
  apply in_map_iff in Hin. destruct Hin as (kv & Hk & Hin).
  apply filter_In in Hin. apply in_map_iff. exists kv. tauto.
Qed.

(** A pre-order walk of a well-formed tree meets every node once. *)
Lemma preorder_NoDup (pops : dict Node) :
  tree_ok pops -> forall f a, NoDup (PreOrderIter f pops a).
Proof.
  intros Hok. pose proof (proj1 Hok) as Hnd.
  induction f as [| f IH]; intros a; [constructor |].
  cbn [PreOrderIter]. constructor.
  - intros Hin. apply in_flat_map in Hin. destruct Hin as (b & Hb & Hin).
    apply node_children_In in Hb. destruct Hb as (nd & Hb & Hpar).
    apply (dict_get_In_unique _ _ _ Hnd) in Hb.
    apply (preorder_below pops Hnd) in Hin.
    apply (below_rank pops b a Hok) in Hin.
    pose proof (proj2 Hok b nd Hb) as Hord. rewrite Hpar in Hord.
    destruct Hin as [-> | Hlt]; lia.
  - apply NoDup_flat_map.
    + unfold node_children. now apply NoDup_filter_keys.
    + intros b _. apply IH.
    + intros c c' x Hc Hc' Hx Hx'.
      apply node_children_In in Hc, Hc'.
      destruct Hc as (nc & Hc & Hpc). destruct Hc' as (nc' & Hc' & Hpc').
      apply (dict_get_In_unique _ _ _ Hnd) in Hc, Hc'.
      apply (below_siblings_disjoint pops a c c' x nc nc' Hok Hc Hpc Hc' Hpc');
        now apply (preorder_below pops Hnd f).
Qed.

Lemma preorder_known (pops : dict Node) (c : string) (f : nat) (x : string) :
  tree_ok pops -> In c (dict_keys pops) ->
  In x (PreOrderIter f pops "root") -> In x (dict_keys pops).
Proof.
  intros Hok Hc Hin.
  apply (preorder_below pops (proj1 Hok)) in Hin.
  inversion Hin as [| ? p nd Hget Hpar Hb]; subst.
  - destruct (keys_dict_get _ _ Hc) as [nc Hnc].
    exact (tree_ok_has_root pops c nc Hok Hnc).
  - now apply dict_get_Some_keys in Hget.
Qed.

(** Membership in the list [find_dependencies] computes. *)
Lemma deps_In (pops : dict Node) (c n : string) :
  tree_ok pops -> In c (dict_keys pops) ->
  (In n (deps pops c) <-> In n (dict_keys pops) /\ below pops c n).
Proof.
  intros Hok Hc. unfold deps. rewrite filter_In. split.
  - intros [Hpre Hpath].
    assert (Hn : In n (dict_keys pops))
      by exact (preorder_known pops c _ n Hok Hc Hpre).
    split; [assumption |].
    apply below_ancestors; [assumption | assumption |].
    now apply node_path_In, str_mem_In.
  - intros [Hn Hb]. split; [now apply preorder_complete |].
    apply str_mem_In, node_path_In. now apply below_ancestors.
Qed.

Lemma deps_NoDup (pops : dict Node) (c : string) :
  tree_ok pops -> NoDup (deps pops c).
Proof. intros Hok. unfold deps. apply NoDup_filter. now apply preorder_NoDup. Qed.


Lemma dict_keys_set_known {V : Type} (d : dict V) (k : string) (v : V) :
  In k (dict_keys d) -> dict_keys (dict_set d k v) = dict_keys d.
Proof.
  induction d as [| [j w] t IH]; simpl; [contradiction |].
  destruct (String.eqb_spec k j) as [-> | Hne]; simpl; [reflexivity |].
  intros [H | H]; [congruence |]. now rewrite IH.
Qed.

(** Popping names that are all there, each once, never raises. *)
Lemma for_each_pop_total (ds : list string) :
  forall G : Gating,
    NoDup (dict_keys (populations G)) -> NoDup ds ->
    incl ds (dict_keys (populations G)) ->
    for_each ds pop_population G
    = (Ok tt,
       set_populations G
         (keep_keys (fun k => negb (str_mem k ds)) (populations G))).
Proof.
  induction ds as [| x t IH]; intros G Hnd Hds Hincl.
  - simpl. unfold ret. f_equal. destruct G. unfold set_populations. simpl.
    f_equal. symmetry. now apply keep_keys_all.
  - inversion Hds as [| ? ? Hnot Hds']; subst.
    cbn [for_each]. unfold bindM.
    assert (Hx : dict_mem (populations G) x = true).
    { apply dict_mem_keys, Hincl. now left. }
    unfold pop_population at 1. unfold bindM, get, lift, put, dict_pop.
    rewrite Hx. rewrite (dict_remove_keep _ _ Hnd).
    rewrite IH.
    + f_equal. unfold set_populations. simpl. f_equal.
      rewrite keep_keys_keep. apply keep_keys_ext. intros k.
      rewrite (String.eqb_sym k x). now rewrite negb_orb.
    + simpl. now apply NoDup_keep.
    + assumption.
    + intros y Hy. simpl. rewrite dict_keys_keep. apply filter_In. split.
      * apply Hincl. now right.
      * apply negb_true_iff, String.eqb_neq. intros ->. contradiction.
Qed.

Lemma deps_known (pops : dict Node) (c : string) :
  tree_ok pops -> In c (dict_keys pops) -> incl (deps pops c) (dict_keys pops).
Proof.
  intros Hok Hc n Hn. now apply (deps_In pops c n Hok Hc) in Hn.
Qed.

(** [remove_population] on a known population of a well-formed tree. *)
Lemma remove_population_run (G : Gating) (c : string) :
  tree_ok (populations G) -> In c (dict_keys (populations G)) ->
  remove_population c G
  = (Ok tt,
     set_populations G
       (keep_keys (fun k => negb (str_mem k (deps (populations G) c)))
          (populations G))).
Proof.
  intros Hok Hc.
  destruct (keys_dict_get _ _ Hc) as [nd Hget].
  unfold remove_population. unfold bindM at 1. unfold get at 1.
  assert (Hmem : dict_mem (populations G) c = true)
    by now apply dict_mem_keys.
  rewrite Hmem. cbn [negb].
  unfold find_dependencies_m, bindM, get, lift, put.
  rewrite (find_dependencies_known G c nd Hok Hget).
  unfold dict_item. rewrite Hget. cbn [of_option].
  rewrite for_each_pop_total.
  - f_equal. unfold set_populations. simpl. f_equal.
    apply keep_keys_set. apply negb_false_iff, str_mem_In.
    now apply deps_self.
  - simpl. rewrite dict_keys_set_known by assumption. apply Hok.
  - now apply deps_NoDup.
  - simpl. rewrite dict_keys_set_known by assumption.
    now apply deps_known.
Qed.

Lemma deps_path (pops : dict Node) (c n : string) :
  tree_ok pops -> In c (dict_keys pops) -> In n (dict_keys pops) ->
  str_mem n (deps pops c) = str_mem c (node_path pops n).
Proof.
  intros Hok Hc Hn. apply eq_true_iff_eq. rewrite !str_mem_In.
  rewrite (deps_In pops c n Hok Hc), node_path_In.
  rewrite (below_ancestors pops c n Hok Hn). tauto.
Qed.

(** X1.  For an unknown name [find_dependencies] returns [None].  For a
    population of a well-formed tree it returns, each once, exactly the
    populations whose path from the root goes through it: the population
    itself, and with every population its children. *)
Theorem find_dependencies_is_subtree :
  forall (G : Gating) (c : string),
    tree_ok (populations G) ->
    (~ In c (dict_keys (populations G)) -> find_dependencies G c = Ok None) /\
    (In c (dict_keys (populations G)) ->
     exists ds,
       find_dependencies G c = Ok (Some ds) /\
       NoDup ds /\
       (forall n, In n ds <->
                  In n (dict_keys (populations G)) /\
                  In c (node_path (populations G) n)) /\
       In c ds /\
       (forall n nd p,
           dict_get (populations G) n = Some nd -> parent nd = Some p ->
           In p ds -> In n ds)).
Proof.
  intros G c Hok. split.
  - intros Hnot. unfold find_dependencies.
    destruct (dict_mem (populations G) c) eqn:E; [| reflexivity].
    apply dict_mem_keys in E. contradiction.
  - intros Hc. destruct (keys_dict_get _ _ Hc) as [nd Hget].
    exists (deps (populations G) c).
    split; [exact (find_dependencies_known G c nd Hok Hget) |].
    split; [now apply deps_NoDup |]. split; [| split].
    + intros n. rewrite (deps_In _ c n Hok Hc). split.
      * intros [Hn Hb]. split; [assumption |].
        now apply node_path_In, below_ancestors.
      * intros [Hn Hp]. split; [assumption |].
        now apply (below_ancestors _ c n Hok Hn), node_path_In.
    + now apply deps_self.
    + intros n nd' p Hn Hpar Hp.
      exact (deps_closed _ c p n nd' Hok Hp Hn Hpar).
Qed.

(** In [root -> A -> B] the dependents of [A] are [A] and [B]. *)
Lemma find_dependencies_is_subtree_witness :
  find_dependencies Fixtures.G_AB "C" = Ok None /\
  exists ds,
    find_dependencies Fixtures.G_AB "A" = Ok (Some ds) /\
    NoDup ds /\ In "B" ds /\ ~ In "root" ds.
Proof.
  destruct (find_dependencies_is_subtree Fixtures.G_AB "C") as [Hnone _].
  { apply tree_okb_ok. reflexivity. }
  destruct (find_dependencies_is_subtree Fixtures.G_AB "A") as [_ Hsome].
  { apply tree_okb_ok. reflexivity. }
  split.
  - apply Hnone. simpl. intros [H | [H | [H | []]]]; discriminate.
  - destruct Hsome as (ds & Hrun & Hnd & Hin & _ & _).
    { simpl. auto. }
    exists ds. split; [exact Hrun |]. split; [exact Hnd |]. split.
    + apply Hin. split; [simpl; auto | vm_compute; auto].
    + intros Hroot. apply Hin in Hroot. destruct Hroot as [_ Hroot].
      vm_compute in Hroot. destruct Hroot as [H | []]. discriminate H.
Defined.

(** X2.  On a well-formed tree [remove_population] of a known population
    returns normally.  It removes exactly the populations whose path from
    the root goes through that population; the others keep their entry and
    their order.  The gate registry, the FMO cache and the data are not
    touched, so the gates that made the removed populations stay
    registered. *)
Theorem remove_population_removes_subtree :
  forall (G : Gating) (c : string),
    tree_ok (populations G) -> In c (dict_keys (populations G)) ->
    exists G',
      remove_population c G = (Ok tt, G') /\
      (forall n,
          dict_get (populations G') n
          = if str_mem c (node_path (populations G) n) then None
            else dict_get (populations G) n) /\
      dict_keys (populations G')
      = filter (fun n => negb (str_mem c (node_path (populations G) n)))
          (dict_keys (populations G)) /\
      gates G' = gates G /\
      fmo_search_cache G' = fmo_search_cache G /\
      data G' = data G /\ fmo G' = fmo G.
Proof.
  intros G c Hok Hc. eexists. split; [now apply remove_population_run |].
  simpl. split; [| split; [| repeat split]].
  - intros n. rewrite dict_get_keep.
    destruct (dict_get (populations G) n) as [nd |] eqn:Hn.
    + apply dict_get_Some_keys in Hn.
      rewrite (deps_path _ c n Hok Hc Hn).
      now destruct (str_mem c _).
    + now destruct (negb _), (str_mem c _).
  - rewrite dict_keys_keep. apply filter_ext_in. intros n Hn.
    now rewrite (deps_path _ c n Hok Hc Hn).
Qed.

(** Removing [A] from [root -> A -> B] leaves the root alone, and both
    gates registered. *)
Lemma remove_population_removes_subtree_witness :
  exists G',
    remove_population "A" Fixtures.G_AB = (Ok tt, G') /\
    dict_keys (populations G') = ["root"] /\
    dict_keys (gates G') = ["gA"; "gB"].
Proof.
  destruct (remove_population_removes_subtree Fixtures.G_AB "A")
    as (G' & Hrun & _ & Hkeys & Hgates & _).
  - apply tree_okb_ok. reflexivity.
  - simpl. auto.
  - exists G'. split; [exact Hrun |]. split.
    + rewrite Hkeys. reflexivity.
    + rewrite Hgates. reflexivity.
Defined.

(** X3.  [remove_population] keeps the invariants of the tree: on a
    well-formed tree in which every population holds only events of its
    parent it returns normally, for a known and for an unknown name, and
    the tree it leaves is well formed with the same subset property. *)
Theorem remove_population_keeps_invariants :
  forall (G : Gating) (c : string),
    tree_ok (populations G) -> subset_invariant G ->
    exists G',
      remove_population c G = (Ok tt, G') /\
      tree_ok (populations G') /\ subset_invariant G'.
Proof.
  intros G c Hok Hinv.
  assert (Hrun : exists G', remove_population c G = (Ok tt, G')).
  { destruct (dict_mem (populations G) c) eqn:E.
    - apply dict_mem_keys in E. eexists.
      now apply remove_population_run.
    - exists G. unfold remove_population, bindM, get. now rewrite E. }
  destruct Hrun as [G' Hrun]. exists G'. split; [exact Hrun |].
  destruct (remove_population_tree_ok G G' c Hok Hrun) as (Hok' & Hsub & _).
  split; [exact Hok' |].
  intros n nd p Hn Hpar.
  destruct (tree_ok_parent_known _ n p nd Hok' Hn Hpar) as [pn Hpn].
  exists pn. split; [exact Hpn |].
  destruct (Hinv n nd p (Hsub n nd Hn) Hpar) as (pn' & Hpn' & Hincl).
  apply Hsub in Hpn. assert (pn' = pn) by congruence. now subst.
Qed.

Lemma remove_population_keeps_invariants_witness :
  exists G',
    remove_population "B" Fixtures.G_AB = (Ok tt, G') /\
    tree_ok (populations G') /\ subset_invariant G'.
Proof.
  apply (remove_population_keeps_invariants Fixtures.G_AB "B").
  - apply tree_okb_ok. reflexivity.
  - apply subset_okb_ok. reflexivity.
Defined.

Lemma below_root (pops : dict Node) (n : string) :
  tree_ok pops -> In n (dict_keys pops) -> below pops "root" n.
Proof.
  intros Hok.
  assert (H : forall k n,
             (key_rank (dict_keys pops) n < k)%nat ->
             In n (dict_keys pops) -> below pops "root" n).
  { induction k as [| k IH]; intros m Hlt Hin; [lia |].
    destruct (keys_dict_get _ _ Hin) as [nd Hget].
    pose proof (proj2 Hok m nd Hget) as Hord.
    destruct (parent nd) as [p |] eqn:Hpar.
    - destruct (tree_ok_parent_known pops m p nd Hok Hget Hpar) as [pn Hpn].
      apply (below_child pops "root" m p nd Hget Hpar).
      apply IH; [lia |]. now apply dict_get_Some_keys in Hpn.
    - subst m. constructor. }
  intros Hin. apply (H (S (key_rank (dict_keys pops) n))); [lia | assumption].
Qed.

Lemma keep_keys_none {V : Type} (f : string -> bool) (d : dict V) :
  (forall k, In k (dict_keys d) -> f k = false) -> keep_keys f d = [].
Proof.
  induction d as [| [k v] t IH]; intros Hall; simpl; [reflexivity |].
  rewrite (Hall k (or_introl eq_refl)). apply IH.
  intros k' Hk'. apply Hall. now right.
Qed.

(** X4.  The root is not protected: on a well-formed tree,
    [remove_population("root")] returns normally and leaves no population
    at all, the root included. *)
Theorem remove_root_empties_tree :
  forall G : Gating,
    tree_ok (populations G) -> In "root" (dict_keys (populations G)) ->
    exists G',
      remove_population "root" G = (Ok tt, G') /\ populations G' = [].
Proof.
  intros G Hok Hroot. eexists. split; [now apply remove_population_run |].
  simpl. apply keep_keys_none. intros k Hk.
  apply negb_false_iff, str_mem_In, deps_In; try assumption.
  split; [assumption | now apply below_root].
Qed.

Lemma remove_root_empties_tree_witness :
  exists G',
    remove_population "root" Fixtures.G_AB = (Ok tt, G') /\
    populations G' = [].
Proof.
  apply (remove_root_empties_tree Fixtures.G_AB).
  - apply tree_okb_ok. reflexivity.
  - simpl. auto.
Defined.


(** *** Removing a gate with propagation *)

Lemma for_each_gate_total (gs : list string) :
  forall G : Gating,
    NoDup (dict_keys (gates G)) -> NoDup gs ->
    incl gs (dict_keys (gates G)) ->
    for_each gs pop_gate G
    = (Ok tt,
       set_gates G (keep_keys (fun k => negb (str_mem k gs)) (gates G))).
Proof.
  induction gs as [| x t IH]; intros G Hnd Hgs Hincl.
  - simpl. unfold ret. f_equal. destruct G. unfold set_gates. simpl.
    f_equal. symmetry. now apply keep_keys_all.
  - inversion Hgs as [| ? ? Hnot Hgs']; subst.
    cbn [for_each]. unfold bindM.
    assert (Hx : dict_mem (gates G) x = true).
    { apply dict_mem_keys, Hincl. now left. }
    unfold pop_gate at 1. unfold bindM, get, lift, put, dict_pop.
    rewrite Hx. rewrite (dict_remove_keep _ _ Hnd).
    rewrite IH.
    + f_equal. unfold set_gates. simpl. f_equal.
      rewrite keep_keys_keep. apply keep_keys_ext. intros k.
      rewrite (String.eqb_sym k x). now rewrite negb_orb.
    + simpl. now apply NoDup_keep.
    + assumption.
    + intros y Hy. simpl. rewrite dict_keys_keep. apply filter_In. split.
      * apply Hincl. now right.
      * apply negb_true_iff, String.eqb_neq. intros ->. contradiction.
Qed.

Lemma below_known (pops : dict Node) (a x : string) :
  tree_ok pops -> below pops a x -> In x (dict_keys pops) ->
  In a (dict_keys pops).
Proof.
  intros Hok Hb. induction Hb as [| x p nd Hget Hpar _ IH]; [auto |].
  intros _. apply IH.
  destruct (tree_ok_parent_known pops x p nd Hok Hget Hpar) as [pn Hpn].
  now apply dict_get_Some_keys in Hpn.
Qed.

Lemma below_keep (pops : dict Node) (f : string -> bool) (a x : string) :
  below (keep_keys f pops) a x -> below pops a x.
Proof.
  intros Hb. induction Hb as [| x p nd Hget Hpar _ IH]; [constructor |].
  apply (below_child pops a x p nd); [| assumption | assumption].
  rewrite dict_get_keep in Hget. now destruct (f x).
Qed.

Lemma str_mem_app (k : string) (l1 l2 : list string) :
  str_mem k (l1 ++ l2) = str_mem k l1 || str_mem k l2.
Proof. unfold str_mem. apply existsb_app. Qed.

(** One iteration of the loop of [remove_gate] over the gate's children. *)
Definition remove_child (effected : list string) (child : string)
  : M (list string) :=
  bindM (find_dependencies_m child)
    (fun dependencies =>
       match dependencies with
       | None => ret effected
       | Some deps =>
           bindM (remove_population child)
             (fun _ => ret ((effected ++ deps) ++ [child]))
       end).

Lemma fold_m_cons {A B : Type} (body : B -> A -> M B) (a : A) (t : list A)
  (acc : B) :
  fold_m body (a :: t) acc = bindM (body acc a) (fold_m body t).
Proof. reflexivity. Qed.

Lemma remove_child_known (G : Gating) (E : list string) (c : string) :
  tree_ok (populations G) -> In c (dict_keys (populations G)) ->
  remove_child E c G
  = (Ok ((E ++ deps (populations G) c) ++ [c]),
     set_populations G
       (keep_keys (fun k => negb (str_mem k (deps (populations G) c)))
          (populations G))).
Proof.
  intros Hok Hc. destruct (keys_dict_get _ _ Hc) as [nd Hget].
  unfold remove_child, find_dependencies_m, bindM, get, lift, ret.
  rewrite (find_dependencies_known G c nd Hok Hget).
  now rewrite (remove_population_run G c Hok Hc).
Qed.

Lemma remove_child_unknown (G : Gating) (E : list string) (c : string) :
  dict_mem (populations G) c = false -> remove_child E c G = (Ok E, G).
Proof.
  intros Hc.
  unfold remove_child, find_dependencies_m, bindM, get, lift, ret.
  unfold find_dependencies. now rewrite Hc.
Qed.

(** The loop of [remove_gate] over the children of the gate: [A] is what
    the loop adds to [effected_populations]. *)
Lemma remove_children_loop (cs : list string) :
  forall (G : Gating) (E : list string),
    tree_ok (populations G) ->
    exists A,
      fold_m remove_child cs E G
      = (Ok (E ++ A),
         set_populations G
           (keep_keys (fun k => negb (str_mem k A)) (populations G))) /\
      tree_ok (keep_keys (fun k => negb (str_mem k A)) (populations G)) /\
      (forall n, In n A ->
                 In n (dict_keys (populations G)) /\
                 exists c, In c cs /\ below (populations G) c n) /\
      (forall c, In c cs -> In c (dict_keys (populations G)) -> In c A).
Proof.
  induction cs as [| c t IH]; intros G E Hok.
  - exists []. cbn [fold_m]. unfold ret. rewrite app_nil_r.
    assert (Hall : keep_keys (fun k => negb (str_mem k [])) (populations G)
                   = populations G) by now apply keep_keys_all.
    rewrite Hall. split; [| split; [assumption | split]].
    + f_equal. now destruct G.
    + intros n [].
    + intros c [].
  - rewrite fold_m_cons. unfold bindM at 1.
    destruct (dict_mem (populations G) c) eqn:Hmem.
    + apply dict_mem_keys in Hmem.
      rewrite (remove_child_known G E c Hok Hmem).
      set (D := deps (populations G) c).
      set (G1 := set_populations G
                   (keep_keys (fun k => negb (str_mem k D)) (populations G))).
      assert (Hok1 : tree_ok (populations G1)).
      { destruct (remove_population_tree_ok G G1 c Hok
                    (remove_population_run G c Hok Hmem)) as [H _].
        exact H. }
      destruct (IH G1 ((E ++ D) ++ [c]) Hok1) as (A1 & Hrun & Hok' & HA & Hkids).
      exists (D ++ [c] ++ A1).
      assert (Hkeep : keep_keys (fun k => negb (str_mem k A1)) (populations G1)
                      = keep_keys (fun k => negb (str_mem k (D ++ [c] ++ A1)))
                          (populations G)).
      { unfold G1. simpl. rewrite keep_keys_keep. apply keep_keys_ext.
        intros k. rewrite str_mem_app.
        change (str_mem k (c :: A1)) with (String.eqb k c || str_mem k A1).
        destruct (String.eqb_spec k c) as [-> | Hne].
        - assert (Hc : str_mem c D = true)
            by (apply str_mem_In; now apply deps_self).
          rewrite Hc. reflexivity.
        - simpl. now rewrite negb_orb. }
      split; [| split; [| split]].
      * rewrite Hrun. f_equal.
        -- f_equal. now rewrite <- !app_assoc.
        -- unfold set_populations. rewrite Hkeep. reflexivity.
      * rewrite <- Hkeep. exact Hok'.
      * intros n Hn. apply in_app_iff in Hn. destruct Hn as [Hn | Hn].
        { apply (deps_In _ c n Hok Hmem) in Hn. destruct Hn as [Hk Hb].
          split; [assumption |]. exists c. split; [now left | assumption]. }
        simpl in Hn. destruct Hn as [<- | Hn].
        { split; [assumption |]. exists c. split; [now left | constructor]. }
        destruct (HA n Hn) as (Hk & c' & Hc' & Hb). split.
        -- simpl in Hk. rewrite dict_keys_keep in Hk.
           now apply filter_In in Hk.
        -- exists c'. split; [now right |]. simpl in Hb.
           now apply below_keep in Hb.
      * intros c' [<- | Hin] Hk.
        { apply in_app_iff. right. now left. }
        destruct (str_mem c' D) eqn:HD.
        -- apply in_app_iff. left. now apply str_mem_In.
        -- apply in_app_iff. right. right. apply Hkids; [assumption |].
           simpl. rewrite dict_keys_keep. apply filter_In.
           split; [assumption | now rewrite HD].
    + rewrite (remove_child_unknown G E c Hmem).
      destruct (IH G E Hok) as (A & Hrun & Hok' & HA & Hkids).
      exists A. split; [exact Hrun |]. split; [exact Hok' |]. split.
      * intros n Hn. destruct (HA n Hn) as (Hk & c' & Hc' & Hb).
        split; [assumption |]. exists c'. split; [now right | assumption].
      * intros c' [<- | Hin] Hk.
        -- apply dict_mem_keys in Hk. congruence.
        -- now apply Hkids.
Qed.

Lemma In_filter_keys {V : Type} (P : string * V -> bool) (d : dict V)
  (k : string) :
  NoDup (dict_keys d) ->
  (In k (dict_keys (filter P d)) <->
   exists v, dict_get d k = Some v /\ P (k, v) = true).
Proof.
  intros Hnd. unfold dict_keys. rewrite in_map_iff. split.
  - intros ([k' v] & Hk & Hin). simpl in Hk. subst k'.
    apply filter_In in Hin. destruct Hin as [Hin HP].
    exists v. split; [now apply dict_get_In_unique | assumption].
  - intros (v & Hget & HP). exists (k, v). split; [reflexivity |].
    apply filter_In. split; [now apply dict_get_In | assumption].
Qed.

(** X5.  [remove_gate] with propagation, on a well-formed tree and a
    registry without repeated names, for a registered gate that has
    children, each of which (when it is in the tree) sits under the gate's
    parent as [apply] puts it.  The call returns the removed gates and
    populations.  The populations removed are exactly those whose path
    from the root goes through a child of the gate; all others are kept as
    they were and the tree stays well formed.  The gates removed are the
    gate itself and every gate whose parent population was removed; the
    other gates are kept.  The FMO cache is not touched. *)
Theorem remove_gate_propagates :
  forall (G : Gating) (g : string) (gate : Gate),
    tree_ok (populations G) ->
    NoDup (dict_keys (gates G)) ->
    dict_get (gates G) g = Some gate ->
    children gate <> [] ->
    (forall c nd,
        In c (children gate) -> dict_get (populations G) c = Some nd ->
        parent nd = Some (gate_parent gate)) ->
    exists egs eps G',
      remove_gate g true G = (Ok (ReturnedRemoved egs eps), G') /\
      (forall n,
          In n eps <->
          In n (dict_keys (populations G)) /\
          exists c, In c (children gate) /\
                    In c (node_path (populations G) n)) /\
      (forall n,
          dict_get (populations G') n
          = if str_mem n eps then None else dict_get (populations G) n) /\
      tree_ok (populations G') /\
      (forall k,
          In k egs <->
          k = g \/
          exists gt, dict_get (gates G) k = Some gt /\
                     In (gate_parent gt) eps) /\
      (forall k,
          dict_get (gates G') k
          = if str_mem k egs then None else dict_get (gates G) k) /\
      fmo_search_cache G' = fmo_search_cache G.
Proof.
  intros G g gate Hok Hnd Hget Hne Hunder.
  destruct (remove_children_loop (children gate) G [] Hok)
    as (A & Hloop & Hok' & HA & Hkids).
  simpl in Hloop.
  set (pops' := keep_keys (fun k => negb (str_mem k A)) (populations G)) in *.
  set (egs := dict_keys
                (filter (fun kv : string * Gate =>
                           str_mem (gate_parent (snd kv)) A) (gates G))
              ++ [g]).
  assert (HinA : forall n,
             In n A <->
             In n (dict_keys (populations G)) /\
             exists c, In c (children gate) /\ below (populations G) c n).
  { intros n. split; [apply HA |]. intros (Hn & c & Hc & Hb).
    assert (Hck : In c (dict_keys (populations G)))
      by exact (below_known _ c n Hok Hb Hn).
    pose proof (Hkids c Hc Hck) as HcA. clear Hc Hck.
    induction Hb as [| x p nd Hx Hpar Hb IH]; [assumption |].
    destruct (tree_ok_parent_known _ x p nd Hok Hx Hpar) as [pn Hpn].
    specialize (IH (dict_get_Some_keys _ _ _ Hpn)).
    destruct (str_mem x A) eqn:HxA; [now apply str_mem_In |]. exfalso.
    assert (Hx' : dict_get pops' x = Some nd).
    { unfold pops'. rewrite dict_get_keep, HxA. exact Hx. }
    destruct (tree_ok_parent_known _ x p nd Hok' Hx' Hpar) as [pn' Hpn'].
    unfold pops' in Hpn'. rewrite dict_get_keep in Hpn'.
    apply str_mem_In in IH. rewrite IH in Hpn'. discriminate. }
  assert (Hparent : ~ In (gate_parent gate) A).
  { intros Hin. apply HinA in Hin. destruct Hin as (Hp & c & Hc & Hb).
    assert (Hck : In c (dict_keys (populations G)))
      by exact (below_known _ c _ Hok Hb Hp).
    destruct (keys_dict_get _ _ Hck) as [nc Hnc].
    pose proof (Hunder c nc Hc Hnc) as Hpar.
    pose proof (proj2 Hok c nc Hnc) as Hord. rewrite Hpar in Hord.
    apply (below_rank _ c _ Hok) in Hb. destruct Hb as [Heq | Hlt]; [| lia].
    rewrite Heq in Hord. lia. }
  assert (Hegs : forall k,
             In k egs <->
             k = g \/
             exists gt, dict_get (gates G) k = Some gt /\
                        In (gate_parent gt) A).
  { intros k. unfold egs. rewrite in_app_iff, (In_filter_keys _ _ _ Hnd).
    simpl. split.
    - intros [(gt & Hk & HP) | [<- | []]]; [right | now left].
      exists gt. split; [assumption | now apply str_mem_In].
    - intros [-> | (gt & Hk & HP)]; [right; now left | left].
      exists gt. split; [assumption | now apply str_mem_In]. }
  assert (Hegs_nd : NoDup egs).
  { unfold egs. apply NoDup_app.
    - now apply NoDup_filter_keys.
    - constructor; [intros [] | constructor].
    - intros k Hk [<- | []].
      apply (In_filter_keys _ _ _ Hnd) in Hk.
      destruct Hk as (gt & Hk & HP). simpl in HP.
      assert (gt = gate) by congruence. subst gt.
      apply str_mem_In in HP. contradiction. }
  assert (Hegs_in : incl egs (dict_keys (gates G))).
  { intros k Hk. apply Hegs in Hk.
    destruct Hk as [-> | (gt & Hk & _)]; eapply dict_get_Some_keys; eauto. }
  exists egs, A. eexists. split.
  - unfold remove_gate. unfold bindM at 1. unfold get at 1. rewrite Hget.
    assert (Hif : (match children gate with [] => true | _ => false end
                   || negb true) = false).
    { destruct (children gate); [congruence | reflexivity]. }
    rewrite Hif. unfold bindM at 1.
    change (fold_m _ (children gate) [] G)
      with (fold_m remove_child (children gate) [] G).
    rewrite Hloop.
    unfold bindM at 1. unfold get at 1.
    cbn [gates set_populations]. fold egs.
    unfold bindM at 1.
    rewrite (for_each_gate_total egs); [reflexivity | | |]; assumption.
  - cbn [populations gates set_gates set_populations fmo_search_cache].
    fold pops'.
    split; [| split; [| split; [exact Hok' | split; [exact Hegs | split;
                                                    [| reflexivity]]]]].
    + intros n. rewrite HinA. split.
      * intros (Hn & c & Hc & Hb). split; [assumption |]. exists c.
        split; [assumption |]. now apply node_path_In, below_ancestors.
      * intros (Hn & c & Hc & Hb). split; [assumption |]. exists c.
        split; [assumption |].
        now apply (below_ancestors _ c n Hok Hn), node_path_In.
    + intros n. unfold pops'. rewrite dict_get_keep.
      now destruct (str_mem n A).
    + intros k. rewrite dict_get_keep. now destruct (str_mem k egs).
Qed.

(** Removing gate [gA] from [root -> A -> B] removes [A] and [B], and
    with them the gate [gB], whose parent [A] is gone. *)
Lemma remove_gate_propagates_witness :
  exists egs eps G',
    remove_gate "gA" true Fixtures.G_AB
    = (Ok (ReturnedRemoved egs eps), G') /\
    dict_get (populations G') "A" = None /\
    dict_get (populations G') "B" = None /\
    dict_get (gates G') "gA" = None /\
    dict_get (gates G') "gB" = None /\
    dict_get (populations G') "root"
    = dict_get (populations Fixtures.G_AB) "root".
Proof.
  destruct (remove_gate_propagates Fixtures.G_AB "gA"
              (mkGate "gA" ["A"] "root" "rect_gate"
                 [("child_populations",
                   KColl (mkCollection "geom"
                            [("A", mkChild [1; 2; 3; 4]%Z
                                     (Fixtures.axes_geom "rect"))]))]
                 "Static"))
    as (egs & eps & G' & Hrun & Heps & Hpops & _ & Hegs & Hgates & _).
  - apply tree_okb_ok. reflexivity.
  - simpl. repeat constructor; simpl; intuition discriminate.
  - reflexivity.
  - discriminate.
  - intros c nd [<- | []] Hc. vm_compute in Hc. injection Hc as <-.
    reflexivity.
  - exists egs, eps, G'. split; [exact Hrun |].
    assert (HA : In "A" eps).
    { apply Heps. split; [simpl; auto |]. exists "A".
      split; [now left | vm_compute; auto]. }
    assert (HB : In "B" eps).
    { apply Heps. split; [simpl; auto |]. exists "A".
      split; [now left | vm_compute; auto]. }
    assert (Hroot : ~ In "root" eps).
    { intros H. apply Heps in H. destruct H as (_ & c & [<- | []] & H).
      vm_compute in H. destruct H as [H | []]. discriminate H. }
    assert (HgA : In "gA" egs) by (apply Hegs; now left).
    assert (HgB : In "gB" egs).
    { apply Hegs. right. eexists. split; [reflexivity |]. exact HA. }
    rewrite !Hpops, !Hgates.
    apply str_mem_In in HA, HB, HgA, HgB. rewrite HA, HB, HgA, HgB.
    destruct (str_mem "root" eps) eqn:E;
      [apply str_mem_In in E; contradiction |].
    repeat split.
Defined.

End SubtreeProofs.

(** ** Creating, applying and re-applying gates *)

Module ApplyProofs.
Import Py PyFacts Gating GatingTools TreeProofs InvariantProofs SubtreeProofs.

(** The proportions [update_populations] records for a population of [n]
    events. *)
Definition proportions (n parent_rows total_rows : nat) : Res (Q * Q) :=
  if Nat.eqb n 0 then Ok (0%Q, 0%Q)
  else (pp <- py_div n parent_rows ;;
        pt <- py_div n total_rows ;;
        Ok (pp, pt)).

Lemma update_populations_single (gt nm p : string) (child : ChildPopulation)
  (df : DataFrame) (w : list string) (G : Gating) :
  update_populations (mkCollection gt [(nm, child)]) df w p G
  = match proportions (List.length (cp_index child)) (df_rows df)
            (df_rows (data G)) with
    | Ok props =>
        if dict_mem (populations G) p then
          (Ok tt,
           set_populations G
             (dict_set (populations G) nm
                (mkNode nm (Some p) (cp_index child) (cp_geom child)
                   (fst props) (snd props) w)))
        else (Raise (KeyError p), G)
    | Raise e => (Raise e, G)
    end.
Proof.
  unfold update_populations, proportions. cbn [cpc_populations for_each].
  unfold bindM, get, lift, put, ret. cbn [fst snd].
  destruct (if Nat.eqb (List.length (cp_index child)) 0 then Ok (0%Q, 0%Q)
            else (pp <- py_div (List.length (cp_index child)) (df_rows df) ;;
                  pt <- py_div (List.length (cp_index child))
                          (df_rows (data G)) ;;
                  Ok (pp, pt))) as [props | e]; [| reflexivity].
  unfold dict_item, dict_mem.
  destruct (dict_get (populations G) p); reflexivity.
Qed.

(** The gate [subtraction] registers. *)
Definition subtraction_gate (target : list string) (parent new : string)
  (x y : GVal) (idx : list Z) : Gate :=
  mkGate (parent ++ "_minus_" ++ py_repr_list target)%string [new] parent
    "subtraction"
    [("parent", KGeom (GStr parent)); ("target", KGeom (GList target));
     ("name", KGeom (GStr new)); ("x", KGeom x); ("y", KGeom y);
     ("child_populations",
      KColl (mkCollection "sub"
               [(new, mkChild idx
                        (Some [("x", x); ("y", y); ("shape", GStr "sub")]))]))]
    "subtraction".

(** The index [subtraction] computes. *)
Definition subtraction_index (pops : dict Node) (pnode : Node)
  (target : list string) : list Z :=
  np_setdiff1d (index pnode)
    (np_unique (List.concat (map (index_of pops) target))).

Lemma map_res_index_of (pops : dict Node) (target : list string)
  (arrays : list (list Z)) :
  map_res (fun t => nd <- dict_item pops t ;; Ok (index nd)) target
  = Ok arrays ->
  arrays = map (index_of pops) target.
Proof.
  revert arrays. induction target as [| t ts IH]; intros arrays H; simpl in H.
  - now injection H as <-.
  - unfold dict_item in H at 1. unfold index_of at 1. simpl.
    destruct (dict_get pops t) as [nd |]; simpl in H; [| discriminate].
    destruct (map_res _ ts) as [bs |]; simpl in H; [| discriminate].
    injection H as <-. f_equal. now apply IH.
Qed.

(** What a call of [subtraction] that returns has done. *)
Lemma subtraction_inv (G G' : Gating) (target : list string)
  (parent new : string) :
  subtraction target parent new G = (Ok tt, G') ->
  exists pnode g x y props,
    dict_get (populations G) parent = Some pnode /\
    geom pnode = Some g /\ dict_get g "x" = Some x /\
    dict_get g "y" = Some y /\
    dict_get (populations G) new = None /\
    target <> [] /\
    forallb (dict_mem (populations G)) target = true /\
    incl (index pnode) (df_index (data G)) /\
    proportions
      (List.length (subtraction_index (populations G) pnode target))
      (List.length (index pnode)) (df_rows (data G)) = Ok props /\
    G' = set_gates
           (set_populations G
              (dict_set (populations G) new
                 (mkNode new (Some parent)
                    (subtraction_index (populations G) pnode target)
                    (Some [("x", x); ("y", y); ("shape", GStr "sub")])
                    (fst props) (snd props) [])))
           (dict_set (gates G)
              (parent ++ "_minus_" ++ py_repr_list target)%string
              (subtraction_gate target parent new x y
                 (subtraction_index (populations G) pnode target))).
Proof.
  intros Hrun. unfold subtraction in Hrun. inv_m Hrun.
  apply assert_true in Hl0.
  apply assert_true in Hl1. apply negb_true_iff, dict_mem_false in Hl1.
  unfold node_geom_item, dict_item in Hl2, Hl3, Hl4.
  destruct (dict_get (populations G) parent) as [pnode |] eqn:Hp;
    [| discriminate].
  cbn [of_option bind] in Hl2, Hl3, Hl4. injection Hl4 as <-.
  destruct (geom pnode) as [g |] eqn:Hg; [| discriminate].
  cbn [of_option bind] in Hl2, Hl3.
  destruct (dict_get g "x") as [x |] eqn:Hx; [| discriminate].
  destruct (dict_get g "y") as [y |] eqn:Hy; [| discriminate].
  injection Hl2 as <-. injection Hl3 as <-.
  match goal with
  | H : (arrays <- map_res _ target ;; _) = Ok ?i |- _ =>
      rename H into Hidx; rename i into tindex
  end.
  destruct (map_res _ target) as [arrays |] eqn:Harr; [| discriminate].
  apply map_res_index_of in Harr. subst arrays. cbn [bind] in Hidx.
  assert (Hne : target <> []).
  { destruct target; [discriminate | discriminate]. }
  assert (Hcat : np_concatenate (map (index_of (populations G)) target)
                 = Ok (List.concat (map (index_of (populations G)) target))).
  { destruct target; [congruence | reflexivity]. }
  rewrite Hcat in Hidx. cbn [bind] in Hidx. injection Hidx as <-.
  rewrite new_collection_geom in Hl6. injection Hl6 as <-.
  rewrite new_collection_index in Hl7. injection Hl7 as <-.
  match goal with
  | H : population_frame G parent = Ok ?d |- _ =>
      rename H into Hframe; rename d into parent_df
  end.
  assert (Hrows : df_index parent_df = index pnode).
  { apply population_frame_index in Hframe.
    destruct Hframe as (nd & Hnd & ->). congruence. }
  assert (Hincl : incl (index pnode) (df_index (data G))).
  { unfold population_frame, get_population_df in Hframe.
    rewrite Hp in Hframe. unfold loc in Hframe.
    destruct (forallb _ (index pnode)) eqn:Hall; [| discriminate].
    intros e He. apply z_mem_In.
    exact (proj1 (forallb_forall _ _) Hall e He). }
  rewrite update_populations_single in Hm. cbn [cp_index cp_geom] in Hm.
  unfold df_rows at 1 in Hm. rewrite Hrows in Hm.
  fold (subtraction_index (populations G) pnode target) in Hm, Hrun.
  destruct (proportions _ _ _) as [props |] eqn:Hprops; [| discriminate].
  assert (Hpm : dict_mem (populations G) parent = true)
    by (unfold dict_mem; now rewrite Hp).
  rewrite Hpm in Hm. injection Hm as _ <-.
  unfold register_gate in Hrun. inv_m Hrun. apply put_inv in Hrun.
  exists pnode, g, x, y, props.
  repeat (split; [assumption || reflexivity |]).
  subst G'. reflexivity.
Qed.


(** The converse: when the checks of [subtraction] pass it returns, with
    the state spelled out. *)
Lemma subtraction_run (G : Gating) (target : list string)
  (parent new : string) (pnode : Node) (g : Geom) (x y : GVal)
  (props : Q * Q) :
  dict_get (populations G) parent = Some pnode ->
  geom pnode = Some g -> dict_get g "x" = Some x ->
  dict_get g "y" = Some y ->
  dict_get (populations G) new = None ->
  target <> [] ->
  forallb (dict_mem (populations G)) target = true ->
  incl (index pnode) (df_index (data G)) ->
  proportions
    (List.length (subtraction_index (populations G) pnode target))
    (List.length (index pnode)) (df_rows (data G)) = Ok props ->
  subtraction target parent new G
  = (Ok tt,
     set_gates
       (set_populations G
          (dict_set (populations G) new
             (mkNode new (Some parent)
                (subtraction_index (populations G) pnode target)
                (Some [("x", x); ("y", y); ("shape", GStr "sub")])
                (fst props) (snd props) [])))
       (dict_set (gates G)
          (parent ++ "_minus_" ++ py_repr_list target)%string
          (subtraction_gate target parent new x y
             (subtraction_index (populations G) pnode target)))).
Proof.
  intros Hp Hg Hx Hy Hnew Hne Htm Hincl Hprops.
  unfold subtraction. run_m.
  assert (Hpm : dict_mem (populations G) parent = true)
    by (unfold dict_mem; now rewrite Hp).
  rewrite Hpm. simpl. rewrite Htm. simpl.
  apply dict_mem_false in Hnew. rewrite Hnew. simpl.
  unfold node_geom_item, dict_item. rewrite Hp. simpl. rewrite Hg. simpl.
  rewrite Hx, Hy. simpl.
  rewrite (map_res_ok _ (index_of (populations G))).
  2:{ intros t Hin. unfold index_of.
      pose proof (proj1 (forallb_forall _ _) Htm t Hin) as Ht.
      unfold dict_mem in Ht.
      destruct (dict_get (populations G) t); [reflexivity | discriminate]. }
  simpl.
  assert (Hcat : np_concatenate (map (index_of (populations G)) target)
                 = Ok (List.concat (map (index_of (populations G)) target))).
  { destruct target; [congruence | reflexivity]. }
  rewrite Hcat. simpl.
  rewrite new_collection_geom, new_collection_index.
  rewrite (population_frame_ok G parent pnode Hp Hincl).
  rewrite update_populations_single. cbn [cp_index cp_geom].
  unfold df_rows at 1. cbn [df_index].
  fold (subtraction_index (populations G) pnode target).
  rewrite Hprops, Hpm. reflexivity.
Qed.

(** A population committed last, under a parent that was there, has no
    dependents but itself: removing it gives back the tree before. *)
Lemma remove_fresh_leaf (G : Gating) (pops : dict Node) (new : string)
  (nd : Node) :
  tree_ok (populations G) ->
  populations G = dict_set pops new nd ->
  dict_get pops new = None ->
  remove_population new G = (Ok tt, set_populations G pops).
Proof.
  intros Hok Hpops Hnew.
  assert (Happ : populations G = pops ++ [(new, nd)]).
  { rewrite Hpops. now apply dict_set_fresh. }
  assert (Hnot : ~ In new (dict_keys pops)).
  { intros Hin. apply dict_get_keys in Hin. congruence. }
  assert (Hin : In new (dict_keys (populations G))).
  { rewrite Happ. unfold dict_keys. rewrite map_app, in_app_iff. right.
    now left. }
  rewrite (remove_population_run G new Hok Hin). f_equal. f_equal.
  assert (Hself : str_mem new (deps (populations G) new) = true)
    by (apply str_mem_In; now apply deps_self).
  set (f := fun k => negb (str_mem k (deps (populations G) new))).
  rewrite Happ. unfold keep_keys. rewrite filter_app.
  cbn [filter fst]. unfold f at 2. rewrite Hself. cbn [negb].
  rewrite app_nil_r.
  apply keep_keys_all. intros k Hk. unfold f.
  destruct (str_mem k (deps (populations G) new)) eqn:E; [| reflexivity].
  exfalso. apply str_mem_In in E. apply (deps_In _ new k Hok Hin) in E.
  destruct E as [_ Hb]. apply (below_rank _ new k Hok) in Hb.
  assert (Hkeys : dict_keys (populations G) = dict_keys pops ++ [new]).
  { rewrite Happ. unfold dict_keys. now rewrite map_app. }
  rewrite Hkeys in Hb.
  rewrite (key_rank_app_new _ _ Hnot), (key_rank_app_old _ _ _ Hk) in Hb.
  apply key_rank_In in Hk.
  destruct Hb as [-> | Hlt]; [| lia].
  apply Hnot. now apply key_rank_In.
Qed.

Lemma set_gates_populations (G : Gating) (p : dict Node) (gs : dict Gate) :
  set_populations (set_gates (set_populations G p) gs) (populations G)
  = set_gates G gs.
Proof. destruct G. reflexivity. Qed.

(** Applying a gate registered by [subtraction], when its checks pass, is
    the call of [subtraction] with the arguments the gate stores. *)
Lemma apply_subtraction_gate (ext : External) (G : Gating) (g : string)
  (target : list string) (parent new : string) (x y : GVal) (idx : list Z) :
  dict_get (gates G) g = Some (subtraction_gate target parent new x y idx) ->
  dict_mem (populations G) parent = true ->
  dict_mem (populations G) new = false ->
  apply g [] G = subtraction target parent new G.
Proof.
  intros Hgate Hp Hnew.
  unfold apply, bindM at 1, get at 1. unfold __apply_checks.
  rewrite Hgate. cbn [subtraction_gate gate_parent children existsb].
  rewrite Hp, Hnew. reflexivity.
Qed.

(** X6.  A subtraction can be undone and redone.  After [subtraction]
    has returned, applying the gate it registered does nothing while the
    new population is there; [remove_population] of the new population
    gives back the populations as they were before, and applying the
    registered gate then rebuilds exactly the state [subtraction] had
    produced. *)
Theorem subtraction_undo_redo :
  forall (ext : External) (G G' : Gating) (target : list string)
         (parent new : string),
    tree_ok (populations G) ->
    subtraction target parent new G = (Ok tt, G') ->
    let g := (parent ++ "_minus_" ++ py_repr_list target)%string in
    apply g [] G' = (Ok tt, G') /\
    exists G1,
      remove_population new G' = (Ok tt, G1) /\
      populations G1 = populations G /\
      gates G1 = gates G' /\
      apply g [] G1 = (Ok tt, G').
Proof.
  intros ext G G' target parent new Hok Hrun g.
  pose proof (subtraction_tree_ok G G' target parent new Hok Hrun) as Hok'.
  destruct (subtraction_inv G G' target parent new Hrun)
    as (pnode & gm & x & y & props & Hp & Hg & Hx & Hy & Hnew & Hne & Htm
        & Hincl & Hprops & HG').
  set (idx := subtraction_index (populations G) pnode target) in *.
  set (nd := mkNode new (Some parent) idx
               (Some [("x", x); ("y", y); ("shape", GStr "sub")])
               (fst props) (snd props) []) in *.
  set (gate := subtraction_gate target parent new x y idx) in *.
  assert (Hgate : dict_get (gates G') g = Some gate).
  { rewrite HG'. cbn [gates set_gates]. rewrite dict_get_set.
    unfold g. now rewrite String.eqb_refl. }
  assert (Hpops : populations G' = dict_set (populations G) new nd).
  { rewrite HG'. reflexivity. }
  split.
  - unfold apply, bindM, get. unfold __apply_checks. rewrite Hgate.
    cbn [gate subtraction_gate gate_parent children existsb].
    assert (Hp' : dict_mem (populations G') parent = true).
    { unfold dict_mem. rewrite Hpops, dict_get_set.
      destruct (String.eqb parent new); [reflexivity | now rewrite Hp]. }
    assert (Hn' : dict_mem (populations G') new = true).
    { unfold dict_mem. rewrite Hpops, dict_get_set.
      now rewrite String.eqb_refl. }
    rewrite Hp', Hn'. reflexivity.
  - exists (set_populations G' (populations G)). split; [| split; [| split]].
    + exact (remove_fresh_leaf G' (populations G) new nd Hok' Hpops Hnew).
    + reflexivity.
    + reflexivity.
    + assert (HG1 : set_populations G' (populations G)
                    = set_gates G (gates G')).
      { rewrite HG' at 1. cbn [gates set_gates].
        rewrite set_gates_populations. rewrite HG'. reflexivity. }
      rewrite HG1.
      assert (Hpm : dict_mem (populations G) parent = true)
        by (unfold dict_mem; now rewrite Hp).
      rewrite (apply_subtraction_gate ext (set_gates G (gates G')) g target
                 parent new x y idx Hgate Hpm);
        [| now apply dict_mem_false].
      rewrite (subtraction_run (set_gates G (gates G')) target parent new
                 pnode gm x y props); try assumption.
      cbn [populations gates set_gates]. fold idx. fold nd. fold gate.
      f_equal. rewrite HG'. cbn [gates set_gates].
      rewrite dict_set_set. now destruct G.
Qed.


Lemma subtraction_undo_redo_witness :
  apply (ext := Fixtures.demo_external) "A_minus_['B']" []
    (snd (subtraction ["B"] "A" "AnotB" Fixtures.G_AB))
  = (Ok tt, snd (subtraction ["B"] "A" "AnotB" Fixtures.G_AB)) /\
  exists G1,
    remove_population "AnotB" (snd (subtraction ["B"] "A" "AnotB" Fixtures.G_AB))
    = (Ok tt, G1) /\
    populations G1 = populations Fixtures.G_AB /\
    apply (ext := Fixtures.demo_external) "A_minus_['B']" [] G1
    = (Ok tt, snd (subtraction ["B"] "A" "AnotB" Fixtures.G_AB)).
Proof.
  destruct (subtraction_undo_redo Fixtures.demo_external Fixtures.G_AB
              (snd (subtraction ["B"] "A" "AnotB" Fixtures.G_AB))
              ["B"] "A" "AnotB") as (Hblocked & G1 & Hrm & Hpops & _ & Hredo).
  - apply tree_okb_ok. reflexivity.
  - reflexivity.
  - split; [exact Hblocked |]. exists G1. auto.
Defined.

(** *** Failing calls *)

(** One step of a method that raised: either the step raised, with the
    state it was given, or the rest of the method did. *)
Ltac raise_step H :=
  match type of H with
  | bindM get _ _ = (Raise _, _) =>
      unfold bindM at 1 in H; unfold get at 1 in H; cbv beta iota in H
  | bindM (lift (Ok _)) _ _ = (Raise _, _) =>
      unfold bindM at 1 in H; unfold lift at 1 in H; cbv beta iota in H
  | bindM (lift ?r) _ _ = (Raise _, _) =>
      let a := fresh "a" in
      let E := fresh "E" in
      unfold bindM at 1 in H; unfold lift at 1 in H;
      destruct r as [a | ?] eqn:E; cbv beta iota in H;
      [| injection H as _ <-; reflexivity]
  end.

Ltac commit_fails H :=
  match type of H with
  | context [proportions ?n ?a ?b] =>
      destruct (proportions n a b); cbv beta iota in H;
      [| injection H as _ <-; reflexivity]
  end;
  match type of H with
  | context [if dict_mem ?p ?k then _ else _] =>
      destruct (dict_mem p k); cbv beta iota in H;
      [| injection H as _ <-; reflexivity]
  end;
  discriminate H.

(** X7.  [merge] and [subtraction] change nothing when they fail: every
    check and every computation that can raise comes before the first
    assignment, so a call that raises leaves the state it was given. *)
Theorem merge_and_subtraction_fail_without_change :
  forall (ext : External) (G G' : Gating) (e : Exn),
    (forall population_left population_right new_population_name,
        merge population_left population_right new_population_name G
        = (Raise e, G') -> G' = G) /\
    (forall target parent new_population_name,
        subtraction target parent new_population_name G = (Raise e, G') ->
        G' = G).
Proof.
  intros ext G G' e. split.
  - intros l r new H. unfold merge in H.
    do 15 raise_step H.
    rewrite new_collection_geom in H. raise_step H.
    rewrite new_collection_index in H. raise_step H.
    unfold bindM at 1 in H. rewrite update_populations_single in H.
    commit_fails H.
  - intros t p new H. unfold subtraction in H.
    do 8 raise_step H.
    rewrite new_collection_geom in H. raise_step H.
    rewrite new_collection_index in H. raise_step H.
    raise_step H.
    unfold bindM at 1 in H. rewrite update_populations_single in H.
    commit_fails H.
Qed.


(** Subtracting nothing from [A] raises, and the state is the one given. *)
Lemma merge_and_subtraction_fail_without_change_witness :
  fst (subtraction [] "A" "AnotB" Fixtures.G_AB)
  = Raise (ValueError "need at least one array to concatenate") /\
  snd (subtraction [] "A" "AnotB" Fixtures.G_AB) = Fixtures.G_AB.
Proof.
  split; [reflexivity |].
  destruct (merge_and_subtraction_fail_without_change Fixtures.demo_external
              Fixtures.G_AB (snd (subtraction [] "A" "AnotB" Fixtures.G_AB))
              (ValueError "need at least one array to concatenate"))
    as [_ Hsub].
  apply (Hsub [] "A" "AnotB"). reflexivity.
Defined.

(** *** The registry *)

Lemma dict_keys_set_fresh {V : Type} (d : dict V) (k : string) (v : V) :
  ~ In k (dict_keys d) -> dict_keys (dict_set d k v) = dict_keys d ++ [k].
Proof.
  intros Hnot. rewrite dict_set_fresh.
  - unfold dict_keys. now rewrite map_app.
  - destruct (dict_get d k) eqn:E; [| reflexivity].
    exfalso. apply Hnot. apply dict_get_keys. congruence.
Qed.



(** X9.  [apply] does nothing, and reports no error to its caller, for a
    registered gate whose parent is not a population or one of whose
    children already is a population: the state is the one before the
    call. *)
Theorem apply_refuses_unknown_parent_or_existing_child :
  forall (ext : External) (G : Gating) (g : string) (gate : Gate)
         (kwargs : dict KVal),
    dict_get (gates G) g = Some gate ->
    (~ In (gate_parent gate) (dict_keys (populations G)) \/
     exists c, In c (children gate) /\ In c (dict_keys (populations G))) ->
    __apply_checks G g = None /\ apply g kwargs G = (Ok tt, G).
Proof.
  intros ext G g gate kw Hget Hbad.
  assert (Hchecks : __apply_checks G g = None).
  { unfold __apply_checks. rewrite Hget.
    destruct (dict_mem (populations G) (gate_parent gate)) eqn:Hp;
      [| reflexivity].
    cbn [negb].
    destruct Hbad as [Hnot | (c & Hc & Hin)].
    - apply dict_mem_keys in Hp. contradiction.
    - assert (Hex : existsb (dict_mem (populations G)) (children gate) = true).
      { apply existsb_exists. exists c. split; [assumption |].
        now apply dict_mem_keys. }
      now rewrite Hex. }
  split; [exact Hchecks |].
  unfold apply, bindM, get. now rewrite Hchecks.
Qed.

(** In [root -> A -> B], gate [gA] cannot be applied again: [A] exists. *)
Lemma apply_refuses_unknown_parent_or_existing_child_witness :
  apply (ext := Fixtures.demo_external) "gA" [] Fixtures.G_AB
  = (Ok tt, Fixtures.G_AB).
Proof.
  eapply (apply_refuses_unknown_parent_or_existing_child
            Fixtures.demo_external Fixtures.G_AB "gA").
  - reflexivity.
  - right. exists "A". simpl. auto.
Defined.

(** *** Applying several gates *)

(** X10.  [apply_many] checks every name before it applies anything: if
    one of the names given is not a registered gate, no gate is applied,
    the registered ones included, and the state is unchanged. *)
Theorem apply_many_rejects_unknown_name :
  forall (ext : External) (G : Gating) (gates : list string) (x : string),
    In x gates -> ~ In x (dict_keys (Gating.gates G)) ->
    apply_many gates G = (Ok tt, G).
Proof.
  intros ext G gs x Hin Hnot. unfold apply_many, bindM, get.
  assert (Hex : existsb (fun y => negb (dict_mem (Gating.gates G) y)) gs
                = true).
  { apply existsb_exists. exists x. split; [assumption |].
    apply negb_true_iff. destruct (dict_mem (Gating.gates G) x) eqn:E;
      [| reflexivity].
    apply dict_mem_keys in E. contradiction. }
  now rewrite Hex.
Qed.

Lemma apply_many_rejects_unknown_name_witness :
  apply_many (ext := Fixtures.demo_external) ["gA"; "gC"]
    (snd (remove_population "A" Fixtures.G_AB))
  = (Ok tt, snd (remove_population "A" Fixtures.G_AB)).
Proof.
  apply (apply_many_rejects_unknown_name Fixtures.demo_external
           (snd (remove_population "A" Fixtures.G_AB)) ["gA"; "gC"] "gC").
  - simpl. auto.
  - simpl. intuition discriminate.
Defined.






(** *** Merging two populations of the tree *)

(** X13.  When [merge] returns, the two populations had the same parent
    and the new name was free.  The new population sits under that parent,
    last in the tree; its index is the sorted, duplicate-free union of the
    two indices; its geometry is a polygon on the axes of the left
    population.  Every other population is as before, and a gate named
    after the two populations, with the new population as only child, is
    registered for re-application. *)
Theorem merge_creates_union :
  forall (ext : External) (G G' : Gating)
         (population_left population_right new_population_name : string),
    merge population_left population_right new_population_name G
    = (Ok tt, G') ->
    exists left right p nd gate x y cords,
      dict_get (populations G) population_left = Some left /\
      dict_get (populations G) population_right = Some right /\
      parent left = Some p /\ parent right = Some p /\
      ~ In new_population_name (dict_keys (populations G)) /\
      dict_keys (populations G')
      = dict_keys (populations G) ++ [new_population_name] /\
      dict_get (populations G') new_population_name = Some nd /\
      (forall other, other <> new_population_name ->
                     dict_get (populations G') other
                     = dict_get (populations G) other) /\
      parent nd = Some p /\
      index nd = np_unique (index left ++ index right) /\
      (forall e, In e (index nd) <-> In e (index left) \/ In e (index right)) /\
      StronglySorted Z.lt (index nd) /\
      node_geom_item G population_left "x" = Ok x /\
      node_geom_item G population_left "y" = Ok y /\
      geom nd = Some [("x", x); ("y", y); ("shape", GStr "poly");
                      ("cords", cords)] /\
      dict_get (gates G')
        ("merge_" ++ population_left ++ "_" ++ population_right)%string
      = Some gate /\
      children gate = [new_population_name] /\
      gate_parent gate = p /\ class_ gate = "merge".
Proof.
  intros ext G G' l r new Hrun. unfold merge in Hrun. inv_m Hrun.
  apply assert_true in Hl. apply negb_true_iff, dict_mem_false in Hl.
  apply assert_true in Hl4. apply String.eqb_eq in Hl4. subst a3.
  unfold dict_item in Hl8, Hl9.
  destruct (dict_get (populations G) l) as [left |] eqn:Hleft;
    [| discriminate].
  destruct (dict_get (populations G) r) as [right |] eqn:Hright;
    [| discriminate].
  injection Hl8 as <-. injection Hl9 as <-.
  unfold parent_name_of, dict_item in Hl2, Hl3.
  rewrite Hleft in Hl2. rewrite Hright in Hl3. simpl in Hl2, Hl3.
  destruct (parent left) as [pl |] eqn:Hpl; [| discriminate].
  destruct (parent right) as [pr |] eqn:Hpr; [| discriminate].
  injection Hl2 as ->. injection Hl3 as ->.
  rewrite new_collection_geom in Hl13. injection Hl13 as <-.
  rewrite new_collection_index in Hl14. injection Hl14 as <-.
  rewrite update_populations_single in Hm. cbn [cp_index cp_geom] in Hm.
  destruct (proportions _ _ _) as [props |]; [| discriminate].
  destruct (dict_mem (populations G) a2); [| discriminate].
  injection Hm as _ <-.
  unfold register_gate in Hrun. inv_m Hrun. apply put_inv in Hrun.
  subst G'. cbn [populations gates set_gates set_populations gate_name
                 cpc_populations dict_keys map fst].
  assert (Hfresh : ~ In new (dict_keys (populations G))).
  { intros Hin. apply dict_get_keys in Hin. congruence. }
  do 8 eexists.
  split; [reflexivity |]. split; [reflexivity |].
  split; [exact Hpl |]. split; [exact Hpr |].
  split; [exact Hfresh |].
  split; [now apply dict_keys_set_fresh |].
  split; [rewrite dict_get_set, String.eqb_refl; reflexivity |].
  split.
  { intros other Hne. rewrite dict_get_set.
    destruct (String.eqb_spec other new); [congruence | reflexivity]. }
  cbn [parent index geom].
  split; [reflexivity |]. split; [reflexivity |].
  split; [intros e; now rewrite In_np_unique, in_app_iff |].
  split; [apply np_unique_sorted |].
  split; [eassumption |]. split; [eassumption |].
  split; [reflexivity |].
  split; [rewrite dict_get_set, String.eqb_refl; reflexivity |].
  cbn [children gate_parent class_]. auto.
Qed.

(** Merging [B] with itself under [A] in [root -> A -> B]. *)
Lemma merge_creates_union_witness :
  exists nd,
    dict_get
      (populations (snd (merge (ext := Fixtures.demo_external) "B" "B" "BB"
                           Fixtures.G_AB))) "BB" = Some nd /\
    parent nd = Some "A" /\ index nd = [1; 2]%Z.
Proof.
  destruct (merge_creates_union Fixtures.demo_external Fixtures.G_AB
              (snd (merge (ext := Fixtures.demo_external) "B" "B" "BB"
                      Fixtures.G_AB)) "B" "B" "BB" eq_refl)
    as (left & right & p & nd & gate & x & y & cords & Hl & Hr & Hpl & _ & _
        & _ & Hnd & _ & Hpar & Hidx & _).
  exists nd. split; [exact Hnd |].
  vm_compute in Hl, Hr. injection Hl as <-. injection Hr as <-.
  simpl in Hpl. injection Hpl as <-. split; [exact Hpar |].
  rewrite Hidx. reflexivity.
Defined.

(** *** Proportions *)

Lemma py_div_bounds (n m : nat) (q : Q) :
  py_div n m = Ok q -> (n <= m)%nat ->
  (0 <= q)%Q /\ (q <= 1)%Q /\
  q = Qdiv (inject_Z (Z.of_nat n)) (inject_Z (Z.of_nat m)).
Proof.
  unfold py_div. destruct (Nat.eqb m 0) eqn:E; [discriminate |].
  intros [= <-] Hle. apply Nat.eqb_neq in E.
  assert (Hm : (0 < inject_Z (Z.of_nat m))%Q).
  { rewrite <- (Zlt_Qlt 0). lia. }
  split; [| split; [| reflexivity]].
  - apply Qle_shift_div_l; [assumption |]. rewrite Qmult_0_l.
    rewrite <- (Zle_Qle 0). lia.
  - apply Qle_shift_div_r; [assumption |]. rewrite Qmult_1_l.
    rewrite <- Zle_Qle. lia.
Qed.

Lemma proportions_bounds (n a b : nat) (props : Q * Q) :
  proportions n a b = Ok props -> (n <= a)%nat -> (n <= b)%nat ->
  (0 <= fst props <= 1)%Q /\ (0 <= snd props <= 1)%Q /\
  (fst props == Qdiv (inject_Z (Z.of_nat n)) (inject_Z (Z.of_nat a)))%Q /\
  (snd props == Qdiv (inject_Z (Z.of_nat n)) (inject_Z (Z.of_nat b)))%Q.
Proof.
  unfold proportions. destruct (Nat.eqb n 0) eqn:E.
  - intros [= <-] _ _. apply Nat.eqb_eq in E. subst n. simpl.
    unfold Qdiv. rewrite !Qmult_0_l.
    repeat split; try apply Qle_refl; try reflexivity; discriminate.
  - destruct (py_div n a) as [pp |] eqn:Ha; [| discriminate].
    destruct (py_div n b) as [pt |] eqn:Hb; [| discriminate].
    simpl. intros [= <-] Hna Hnb. simpl.
    destruct (py_div_bounds n a pp Ha Hna) as (H1 & H2 & ->).
    destruct (py_div_bounds n b pt Hb Hnb) as (H3 & H4 & ->).
    repeat split; try assumption; reflexivity.
Qed.

Lemma np_unique_length_le (l : list Z) :
  (List.length (np_unique l) <= List.length l)%nat.
Proof.
  apply NoDup_incl_length; [apply np_unique_NoDup |].
  intros e He. now apply In_np_unique.
Qed.

(** X14.  The proportions [subtraction] records for the new population
    are its number of events divided by the number of events of the
    parent and by the number of events of the sample, and both lie
    between 0 and 1. *)
Theorem subtraction_records_proportions :
  forall (G G' : Gating) (target : list string)
         (parent new_population_name : string),
    subtraction target parent new_population_name G = (Ok tt, G') ->
    exists pnode nd,
      dict_get (populations G) parent = Some pnode /\
      dict_get (populations G') new_population_name = Some nd /\
      (prop_of_parent nd
       == Qdiv (inject_Z (Z.of_nat (List.length (index nd))))
            (inject_Z (Z.of_nat (List.length (index pnode)))))%Q /\
      (prop_of_total nd
       == Qdiv (inject_Z (Z.of_nat (List.length (index nd))))
            (inject_Z (Z.of_nat (df_rows (data G)))))%Q /\
      (0 <= prop_of_parent nd <= 1)%Q /\ (0 <= prop_of_total nd <= 1)%Q.
Proof.
  intros G G' target parent new Hrun.
  destruct (subtraction_inv G G' target parent new Hrun)
    as (pnode & g & x & y & props & Hp & _ & _ & _ & _ & _ & _ & Hincl
        & Hprops & ->).
  set (idx := subtraction_index (populations G) pnode target) in *.
  assert (Hnd : NoDup idx).
  { unfold idx, subtraction_index, np_setdiff1d.
    apply NoDup_filter, np_unique_NoDup. }
  assert (Hsub : incl idx (index pnode)).
  { intros e He. unfold idx, subtraction_index in He.
    apply In_np_setdiff1d in He. tauto. }
  assert (Hle1 : (List.length idx <= List.length (index pnode))%nat)
    by now apply NoDup_incl_length.
  assert (Hle2 : (List.length idx <= df_rows (data G))%nat).
  { apply NoDup_incl_length; [assumption |].
    intros e He. apply Hincl. now apply Hsub. }
  destruct (proportions_bounds _ _ _ props Hprops Hle1 Hle2)
    as (H1 & H2 & H3 & H4).
  exists pnode. eexists. split; [exact Hp |].
  cbn [populations set_gates set_populations].
  split; [rewrite dict_get_set, String.eqb_refl; reflexivity |].
  cbn [prop_of_parent prop_of_total index]. auto.
Qed.

(** [A] minus [B] in [root -> A -> B] holds 2 of the 4 events of [A] and
    of the 6 events of the sample. *)
Lemma subtraction_records_proportions_witness :
  exists nd,
    dict_get
      (populations (snd (subtraction ["B"] "A" "AnotB" Fixtures.G_AB)))
      "AnotB" = Some nd /\
    (prop_of_parent nd == 1 # 2)%Q /\ (prop_of_total nd == 1 # 3)%Q.
Proof.
  destruct (subtraction_records_proportions Fixtures.G_AB
              (snd (subtraction ["B"] "A" "AnotB" Fixtures.G_AB))
              ["B"] "A" "AnotB" eq_refl)
    as (pnode & nd & Hp & Hnd & Hpp & Hpt & _).
  exists nd. split; [exact Hnd |].
  vm_compute in Hp. injection Hp as <-.
  vm_compute in Hnd. injection Hnd as <-.
  split; reflexivity.
Defined.

End ApplyProofs.

(** ** The FMO cache: seeding and memoisation *)

Module CacheProofs.
Import Py PyFacts Gating TreeProofs FmoProofs InvariantProofs.




(** One iteration of the prediction loop that returned. *)
Lemma predict_population_inv (ext : External) (fmo : string)
  (sml : option (dict Geom)) (acc acc' : list Z * DataFrame) (pop : string)
  (G G' : Gating) :
  predict_population fmo sml acc pop G = (Ok acc', G') ->
  exists ctrl c,
    dict_get (Gating.fmo G) fmo = Some ctrl /\
    dict_get (fmo_search_cache G) fmo = Some c /\
    incl (fst acc') (df_index ctrl) /\
    G' = set_cache (log_fit G fmo pop)
           (dict_set (fmo_search_cache G) fmo (dict_set c pop (fst acc'))).
Proof.
  intros H. unfold predict_population in H. inv_m H.
  apply put_inv in Hm. subst.
  unfold store_cache in Hm0. inv_m Hm0. apply put_inv in Hm0. subst.
  apply ret_inv in H. destruct H as [-> ->].
  cbn [fmo_search_cache log_fit] in *.
  match goal with
  | Hf : (ctrl <- dict_item (Gating.fmo G) fmo ;; loc ctrl (fst acc)) = Ok ?d
    |- _ => rename Hf into Hframe; rename d into fmo_data
  end.
  unfold dict_item in Hframe.
  destruct (dict_get (Gating.fmo G) fmo) as [ctrl |] eqn:Hctrl;
    [| discriminate].
  cbn [of_option bind] in Hframe.
  match goal with
  | Hc : dict_item (fmo_search_cache G) fmo = Ok ?c0 |- _ =>
      rename Hc into Hcache; rename c0 into c
  end.
  unfold dict_item in Hcache.
  destruct (dict_get (fmo_search_cache G) fmo) as [c0 |] eqn:Hc;
    [| discriminate].
  injection Hcache as ->.
  match goal with
  | Hs : mask_select fmo_data _ = Ok ?i |- _ =>
      rename Hs into Hsel; rename i into idx
  end.
  exists ctrl, c. split; [reflexivity |]. split; [reflexivity |].
  split; [| reflexivity].
  cbn [fst]. intros e He. apply (mask_select_incl _ _ _ Hsel) in He.
  rewrite (loc_index _ _ _ Hframe) in He.
  unfold loc in Hframe.
  destruct (forallb _ (fst acc)) eqn:Hall; [| discriminate].
  apply z_mem_In. exact (proj1 (forallb_forall _ _) Hall e He).
Qed.

(** The prediction loop: the controls are not touched, and the entry of
    the last population of the route holds the index the loop ends with. *)
Lemma predict_loop (ext : External) (fmo : string)
  (sml : option (dict Geom)) (route : list string) :
  forall (acc acc' : list Z * DataFrame) (G G' : Gating),
    fold_m (predict_population fmo sml) route acc G = (Ok acc', G') ->
    Gating.fmo G' = Gating.fmo G /\
    (route = [] -> acc' = acc /\ G' = G) /\
    (forall pre last,
        route = pre ++ [last] ->
        exists ctrl c,
          dict_get (Gating.fmo G) fmo = Some ctrl /\
          dict_get (fmo_search_cache G') fmo = Some c /\
          dict_get c last = Some (fst acc') /\
          incl (fst acc') (df_index ctrl)).
Proof.
  induction route as [| p t IH]; intros acc acc' G G' Hrun.
  - cbn [fold_m] in Hrun. apply ret_inv in Hrun. destruct Hrun as [-> ->].
    split; [reflexivity |]. split; [auto |].
    intros pre last H. destruct pre; discriminate.
  - rewrite SubtreeProofs.fold_m_cons in Hrun. apply bindM_inv in Hrun.
    destruct Hrun as (acc1 & G1 & Hstep & Hrun).
    destruct (predict_population_inv ext fmo sml acc acc1 p G G1 Hstep)
      as (ctrl & c & Hctrl & Hc & Hincl & HG1).
    assert (Hfmo1 : Gating.fmo G1 = Gating.fmo G) by (now rewrite HG1).
    destruct (IH acc1 acc' G1 G' Hrun) as (Hfmo & Hnil & Hlast).
    split; [congruence |]. split; [discriminate |].
    intros pre last Hroute. destruct pre as [| q pre]; simpl in Hroute.
    + injection Hroute as <- ->.
      destruct (Hnil eq_refl) as [-> ->].
      exists ctrl, (dict_set c p (fst acc1)).
      split; [assumption |]. split; [| split; [| assumption]].
      * rewrite HG1. cbn [fmo_search_cache set_cache].
        now rewrite dict_get_set, String.eqb_refl.
      * now rewrite dict_get_set, String.eqb_refl.
    + injection Hroute as <- ->.
      destruct (Hlast pre last eq_refl) as (ctrl' & c' & Hctrl' & Hrest).
      rewrite Hfmo1 in Hctrl'.
      assert (ctrl' = ctrl) by congruence. subst ctrl'.
      exists ctrl, c'. split; assumption.
Qed.

Lemma ancestors_cons (f : nat) (pops : dict Node) (n : string) :
  exists rest, ancestors (S f) pops n = n :: rest.
Proof.
  cbn [ancestors]. destruct (dict_get pops n) as [nd |]; [| eauto].
  destruct (parent nd); eauto.
Qed.

(** The route of [get_fmo_data] is empty or ends with the target. *)
Lemma route_ends_with_target (pops : dict Node) (target : string) :
  pops <> [] ->
  tl (node_path pops target) = [] \/
  exists pre, tl (node_path pops target) = pre ++ [target].
Proof.
  intros Hne. unfold node_path.
  destruct pops as [| kv t]; [congruence |]. cbn [List.length].
  destruct (ancestors_cons (List.length t) (kv :: t) target) as [rest ->].
  cbn [rev]. destruct (rev rest) as [| a l]; [now left | right].
  exists l. reflexivity.
Qed.

Lemma start_ends_with_target (keys route : list string) (target : string)
  (pre : list string) (i : nat) (pop : string) :
  route = pre ++ [target] ->
  find_start keys (rev route) 0 = Some (i, pop) ->
  exists pre', rev (firstn (S i) (rev route)) = pre' ++ [target].
Proof.
  intros -> _. rewrite rev_app_distr. cbn [rev app firstn].
  eexists. reflexivity.
Qed.

(** X16.  The FMO prediction is memoised for the population asked for:
    after a call of [get_fmo_data] has returned a frame, the same call on
    the state it left returns the same events and changes nothing, so no
    classifier is fitted again. *)
Theorem get_fmo_data_is_memoised :
  forall (ext : External) (G G1 : Gating) (target_population fmo : string)
         (sml_profiles : option (dict Geom)) (df : DataFrame),
    get_fmo_data target_population fmo sml_profiles G = (Ok df, G1) ->
    exists df',
      get_fmo_data target_population fmo sml_profiles G1 = (Ok df', G1) /\
      df_index df' = df_index df /\
      knn_fit_log (snd (get_fmo_data target_population fmo sml_profiles G1))
      = knn_fit_log G1.
Proof.
  intros ext G G1 target fmo sml df Hrun.
  assert (Hsame : G1 = G ->
                  exists df',
                    get_fmo_data target fmo sml G1 = (Ok df', G1) /\
                    df_index df' = df_index df /\
                    knn_fit_log (snd (get_fmo_data target fmo sml G1))
                    = knn_fit_log G1).
  { intros ->. exists df. rewrite Hrun. auto. }
  pose proof Hrun as Hrun0.
  unfold get_fmo_data in Hrun. inv_m Hrun.
  match goal with
  | Hs : search_fmo_cache G target fmo = Ok ?o |- _ =>
      rename Hs into Hsearch; destruct o as [cache_idx |]
  end.
  { apply lift_inv in Hrun. destruct Hrun as [_ ->]. now apply Hsame. }
  inv_m Hrun. apply lift_inv in Hrun. destruct Hrun as [Hloc ->].
  match goal with
  | Hf : fold_m _ (fst ?s) _ G = (Ok ?fin, ?G2) |- _ =>
      rename Hf into Hfold; rename s into start; rename fin into final;
      rename G2 into G1
  end.
  destruct (predict_loop ext fmo sml (fst start) _ final G G1 Hfold)
    as (Hfmo & Hnil & Hlast).
  match goal with
  | Hp : dict_item (populations G) target = Ok _ |- _ => rename Hp into Htarget
  end.
  assert (Hne : populations G <> []).
  { intros E. rewrite E in Htarget. discriminate. }
  match goal with
  | Hst : match find_start _ _ 0 with _ => _ end = Ok start |- _ =>
      rename Hst into Hstart
  end.
  assert (Hroute : fst start = [] \/ exists pre, fst start = pre ++ [target]).
  { destruct (route_ends_with_target (populations G) target Hne)
      as [Hempty | [pre Hpre]].
    - rewrite Hempty in Hstart. cbn [rev find_start] in Hstart.
      injection Hstart as <-. now left.
    - destruct (find_start _ _ 0) as [[i pop] |] eqn:Hfs.
      + destruct (dict_item (populations G) pop); [| discriminate].
        cbn [bind] in Hstart. injection Hstart as <-. cbn [fst]. right.
        exact (start_ends_with_target _ _ target pre i pop Hpre Hfs).
      + injection Hstart as <-. cbn [fst]. right. now exists pre. }
  destruct Hroute as [Hempty | [pre Hpre]].
  { destruct (Hnil Hempty) as [_ ->]. now apply Hsame. }
  destruct (Hlast pre target Hpre) as (ctrl & c & Hctrl & Hc & Hidx & Hincl).
  rewrite <- Hfmo in Hctrl.
  assert (Hhit : get_fmo_data target fmo sml G1
                 = (Ok (mkDataFrame (fst final) (df_columns ctrl)
                          (df_value ctrl)), G1)).
  { rewrite (get_fmo_data_cache_hit ext G1 target fmo sml c (fst final) Hc Hidx).
    unfold dict_item. rewrite Hctrl. cbn [of_option bind].
    now rewrite (loc_incl _ _ Hincl). }
  eexists. split; [exact Hhit |]. rewrite Hhit. cbn [df_index snd].
  split; [| reflexivity]. symmetry. exact (loc_index _ _ _ Hloc).
Qed.

(** In [root -> A -> B], predicting [B] in the control fits two
    classifiers; asking again fits none and returns the same events. *)
Lemma get_fmo_data_is_memoised_witness :
  exists df',
    get_fmo_data (ext := Fixtures.demo_external) "B" "ctrl" None
      (snd (get_fmo_data (ext := Fixtures.demo_external) "B" "ctrl" None
              Fixtures.G_AB))
    = (Ok df',
       snd (get_fmo_data (ext := Fixtures.demo_external) "B" "ctrl" None
              Fixtures.G_AB)) /\
    df_index df' = [1; 2]%Z.
Proof.
  destruct (get_fmo_data_is_memoised Fixtures.demo_external Fixtures.G_AB
              (snd (get_fmo_data (ext := Fixtures.demo_external) "B" "ctrl"
                      None Fixtures.G_AB))
              "B" "ctrl" None
              (mkDataFrame [1; 2]%Z ["FSC-A"; "SSC-A"]
                 (df_value Fixtures.events)))
    as (df' & Hrun & Hidx & _).
  - reflexivity.
  - exists df'. split; [exact Hrun | exact Hidx].
Defined.

End CacheProofs.

(** ** The region evaluator and gate editing *)

Module EditProofs.
Import Py PyFacts Gating GatingTools TreeProofs InvariantProofs SubtreeProofs.
Import Samples.

(** X17.  [__update_index] evaluates a geometry on the events of the
    parent of the population: whatever the shape, the index it returns
    holds only events of the parent (transforms and the polygon test
    returning rows of the frame they are given).  A population that is
    not in the tree fails the assertion, and a population without parent,
    the root, cannot be evaluated: the call raises [AttributeError]. *)
Theorem update_index_within_parent :
  forall (ext : External) (G : Gating) (population_name : string)
         (geom : Geom),
    transform_keeps_rows ext -> polygon_selects_rows ext ->
    (forall idx,
        __update_index G population_name geom = Ok idx ->
        exists nd p,
          dict_get (populations G) population_name = Some nd /\
          parent nd = Some p /\
          forall pn, dict_get (populations G) p = Some pn ->
                     incl idx (index pn)) /\
    (~ In population_name (dict_keys (populations G)) ->
     __update_index G population_name geom
     = Raise (AssertionError "Population does not exist")) /\
    (forall nd,
        dict_get (populations G) population_name = Some nd ->
        parent nd = None ->
        __update_index G population_name geom = Raise AttributeError).
Proof.
  intros ext G c g Hkeep Hpoly. split; [| split].
  - intros idx Hrun. exact (update_index_incl ext Hkeep Hpoly G c g idx Hrun).
  - intros Hnot. unfold __update_index.
    destruct (dict_mem (populations G) c) eqn:E; [| reflexivity].
    apply dict_mem_keys in E. contradiction.
  - intros nd Hget Hpar. unfold __update_index, dict_item, dict_mem.
    rewrite Hget. cbn [assert bind of_option]. now rewrite Hpar.
Qed.

(** On [root -> A -> B]: the [-] side of the threshold 2 for [B] holds
    event 1 of [A]; the root cannot be evaluated. *)
Lemma update_index_within_parent_witness :
  __update_index (ext := Fixtures.demo_external) Fixtures.G_AB "B"
    (Fixtures.threshold_geom (2 # 1) "-") = Ok [1%Z] /\
  __update_index (ext := Fixtures.demo_external) Fixtures.G_AB "root"
    (Fixtures.threshold_geom (2 # 1) "-") = Raise AttributeError.
Proof.
  destruct (update_index_within_parent Fixtures.demo_external Fixtures.G_AB
              "root" (Fixtures.threshold_geom (2 # 1) "-")
              demo_transform_keeps_rows demo_polygon_selects_rows)
    as (_ & _ & Hroot).
  split; [reflexivity |].
  eapply Hroot; reflexivity.
Defined.

Lemma Qgeb_le (a b : Q) : Qgeb a b = true <-> (b <= a)%Q.
Proof.
  unfold Qgeb. rewrite negb_true_iff. split.
  - intros H. apply Qnot_lt_le. intros Hlt.
    apply RegionProofs.Qltb_lt in Hlt. congruence.
  - intros H. destruct (Qltb a b) eqn:E; [| reflexivity].
    apply RegionProofs.Qltb_lt in E. exfalso.
    exact (Qlt_not_le _ _ E H).
Qed.

Lemma Qleb_le (a b : Q) : Qleb a b = true <-> (a <= b)%Q.
Proof. unfold Qleb. exact (Qgeb_le b a). Qed.

(** The rectangle of a geometry read on a row. *)
Definition in_rect (vx vy x_min x_max y_min y_max : Q) : Prop :=
  ((x_min <= vx)%Q /\ (vx <= x_max)%Q) /\ ((y_min <= vy)%Q /\ (vy <= y_max)%Q).

(** X18.  A rectangle gate compares the raw values with inclusive bounds
    (no rounding, unlike the 2D threshold): the [+] side holds exactly the
    rows of the parent frame with [x_min <= x <= x_max] and
    [y_min <= y <= y_max], events on the border included, and the [-]
    side holds exactly the other rows of the frame. *)
Theorem rect_index_inclusive_bounds :
  forall (geom : Geom) (y : GVal) (p : DataFrame) (idx : list Z),
    rect_index geom y (Some p) = Ok idx ->
    exists cx cy x_min x_max y_min y_max d,
      dict_get geom "x" = Some (GStr cx) /\
      dict_get geom "y" = Some (GStr cy) /\
      dict_get geom "x_min" = Some (GNum x_min) /\
      dict_get geom "x_max" = Some (GNum x_max) /\
      dict_get geom "y_min" = Some (GNum y_min) /\
      dict_get geom "y_max" = Some (GNum y_max) /\
      dict_get geom "definition" = Some (GStr d) /\
      (d = "+" \/ d = "-") /\
      (d = "+" ->
       forall e, In e idx <->
                 In e (df_index p) /\
                 in_rect (df_value p e cx) (df_value p e cy)
                   x_min x_max y_min y_max) /\
      (d = "-" ->
       forall e, In e idx <->
                 In e (df_index p) /\
                 ~ in_rect (df_value p e cx) (df_value p e cy)
                     x_min x_max y_min y_max).
Proof.
  intros geom y p idx Hrun. unfold rect_index in Hrun.
  inv_binds Hrun.
  cbn [need_frame of_option] in Ha3. injection Ha3 as <-.
  unfold dict_item in Ha4, Ha6, Ha7, Ha8, Ha10, Ha11, Ha12.
  destruct (dict_get geom "x") as [gx |]; [| discriminate].
  destruct (dict_get geom "y") as [gy |]; [| discriminate].
  destruct (dict_get geom "x_min") as [vx_min |]; [| discriminate].
  destruct (dict_get geom "x_max") as [vx_max |]; [| discriminate].
  destruct (dict_get geom "y_min") as [vy_min |]; [| discriminate].
  destruct (dict_get geom "y_max") as [vy_max |]; [| discriminate].
  destruct (dict_get geom "definition") as [vd |]; [| discriminate].
  cbn [of_option bind] in Ha4, Ha6, Ha7, Ha8, Ha10, Ha11, Ha12.
  injection Ha4 as <-. injection Ha8 as <-. injection Ha12 as <-.
  destruct vx_min as [| | q | | |]; try discriminate Ha6.
  destruct vx_max as [| | q0 | | |]; try discriminate Ha7.
  destruct vy_min as [| | q1 | | |]; try discriminate Ha10.
  destruct vy_max as [| | q2 | | |]; try discriminate Ha11.
  cbn [as_float] in Ha6, Ha7, Ha10, Ha11.
  injection Ha6 as <-. injection Ha7 as <-.
  injection Ha10 as <-. injection Ha11 as <-.
  destruct gx as [| s | | | |]; try discriminate Ha5.
  destruct gy as [| s0 | | | |]; try discriminate Ha9.
  cbn [df_gcol] in Ha5, Ha9. unfold df_col in Ha5, Ha9.
  destruct (str_mem s (df_columns p)); [| discriminate].
  destruct (str_mem s0 (df_columns p)); [| discriminate].
  injection Ha5 as <-. injection Ha9 as <-.
  exists s, s0, q, q0, q1, q2.
  assert (Hrect : forall e,
             (Qgeb (df_value p e s) q && Qleb (df_value p e s) q0)
             && (Qgeb (df_value p e s0) q1 && Qleb (df_value p e s0) q2)
             = true <->
             in_rect (df_value p e s) (df_value p e s0) q q0 q1 q2).
  { intros e. unfold in_rect.
    rewrite !andb_true_iff, !Qgeb_le, !Qleb_le. reflexivity. }
  destruct vd as [| d | | | |]; cbn [is_str] in Hrun; try discriminate Hrun.
  exists d. repeat (split; [reflexivity |]).
  destruct (String.eqb d "+") eqn:Hplus.
  - apply String.eqb_eq in Hplus. subst d.
    injection Hrun as <-. split; [now left |]. split; [| discriminate].
    intros _ e. rewrite RegionProofs.In_df_where, Hrect. reflexivity.
  - destruct (String.eqb d "-") eqn:Hminus; [| discriminate].
    apply String.eqb_eq in Hminus. subst d.
    injection Hrun as <-. split; [now right |]. split; [discriminate |].
    intros _ e. unfold complement.
    rewrite RegionProofs.In_df_where, negb_true_iff, z_mem_false.
    rewrite RegionProofs.In_df_where, Hrect. tauto.
Qed.


(** The events 2 and 4, on the border, are inside; event 5 is not. *)
Lemma rect_index_inclusive_bounds_witness :
  exists idx,
    rect_index (rect_geom "+") (GStr "SSC-A") (Some Fixtures.events)
    = Ok idx /\
    In 2%Z idx /\ In 4%Z idx /\ ~ In 5%Z idx.
Proof.
  exists [2; 3; 4]%Z. split; [reflexivity |].
  destruct (rect_index_inclusive_bounds (rect_geom "+") (GStr "SSC-A")
              Fixtures.events [2; 3; 4]%Z eq_refl)
    as (cx & cy & x_min & x_max & y_min & y_max & d & Hx & Hy & Hxmin & Hxmax
        & Hymin & Hymax & Hd & _ & Hplus & _).
  vm_compute in Hx, Hy, Hxmin, Hxmax, Hymin, Hymax, Hd.
  injection Hx as <-. injection Hy as <-. injection Hxmin as <-.
  injection Hxmax as <-. injection Hymin as <-. injection Hymax as <-.
  injection Hd as <-.
  specialize (Hplus eq_refl).
  split; [| split].
  - apply Hplus. split; [simpl; auto |].
    unfold in_rect, Qle. simpl. lia.
  - apply Hplus. split; [simpl; auto |].
    unfold in_rect, Qle. simpl. lia.
  - intros H. apply Hplus in H. destruct H as [_ H].
    unfold in_rect, Qle in H. simpl in H. lia.
Defined.

(** *** Editing a gate *)

(** One iteration of the loop of [edit_gate]: the node of the child is
    replaced by a node with the same parent, nothing else changes, and
    the children of the child are added to [immediate_children]. *)
Lemma edit_child_frame (ext : External) (geoms : dict Geom)
  (acc acc' : list string * list string) (c : string) (G G' : Gating) :
  edit_child geoms acc c G = (Ok acc', G') ->
  exists nd nd',
    dict_get (populations G) c = Some nd /\
    G' = set_populations G (dict_set (populations G) c nd') /\
    parent nd' = parent nd /\
    snd acc' = snd acc ++ node_children (populations G') c.
Proof.
  intros H. unfold edit_child in H. inv_m H.
  apply set_node_geom_inv in Hm. destruct Hm as (nd & Hnd & ->).
  apply set_node_index_inv in Hm0. destruct Hm0 as (nd1 & Hnd1 & ->).
  simpl in Hnd1. rewrite dict_get_set, String.eqb_refl in Hnd1.
  injection Hnd1 as <-.
  unfold find_dependencies_m in Hm1. inv_m Hm1.
  apply lift_inv in Hm1. destruct Hm1 as [_ ->].
  apply ret_inv in H. destruct H as [-> ->].
  match goal with
  | Hu : __update_index _ _ ?g = Ok ?i |- _ =>
      exists nd, (set_index (set_geom nd (Some g)) i)
  end.
  split; [assumption |]. simpl. rewrite dict_set_set.
  split; [now destruct G |]. split; reflexivity.
Qed.

Lemma edit_loop_frame (ext : External) (geoms : dict Geom) :
  forall (cs : list string) (acc acc' : list string * list string)
         (G G' : Gating),
    fold_m (edit_child geoms) cs acc G = (Ok acc', G') ->
    shape_of (populations G') = shape_of (populations G) /\
    gates G' = gates G /\ fmo_search_cache G' = fmo_search_cache G /\
    incl (snd acc) (snd acc') /\
    (forall c, In c cs ->
               incl (node_children (populations G') c) (snd acc')) /\
    (forall n, ~ In n cs ->
               dict_get (populations G') n = dict_get (populations G) n).
Proof.
  induction cs as [| c t IH]; intros acc acc' G G' Hrun.
  - cbn [fold_m] in Hrun. apply ret_inv in Hrun. destruct Hrun as [-> ->].
    repeat split; try reflexivity; try apply incl_refl. intros c [].
  - rewrite fold_m_cons in Hrun. apply bindM_inv in Hrun.
    destruct Hrun as (acc1 & G1 & Hstep & Hrun).
    destruct (edit_child_frame ext geoms acc acc1 c G G1 Hstep)
      as (nd & nd' & Hnd & HG1 & Hpar & Hacc).
    assert (Hshape1 : shape_of (populations G1) = shape_of (populations G)).
    { rewrite HG1. now apply (shape_dict_set _ c nd nd'). }
    destruct (IH acc1 acc' G1 G' Hrun)
      as (Hshape & Hgates & Hcache & Hsub & Hkids & Hother).
    split; [congruence |].
    split; [rewrite Hgates, HG1; reflexivity |].
    split; [rewrite Hcache, HG1; reflexivity |].
    split; [| split].
    + intros x Hx. apply Hsub. rewrite Hacc. apply in_app_iff. now left.
    + intros c' [<- | Hin]; [| now apply Hkids].
      intros x Hx. apply Hsub. rewrite Hacc. apply in_app_iff. right.
      now rewrite (shape_children _ _ c Hshape) in Hx.
    + intros n Hn. rewrite Hother by (intros Hin; apply Hn; now right).
      rewrite HG1. cbn [populations set_populations]. rewrite dict_get_set.
      destruct (String.eqb_spec n c) as [-> | Hne]; [| reflexivity].
      exfalso. apply Hn. now left.
Qed.

Lemma remove_loop_frame (imm : list string) :
  forall G G' : Gating,
    tree_ok (populations G) ->
    for_each imm remove_population G = (Ok tt, G') ->
    gates G' = gates G /\ fmo_search_cache G' = fmo_search_cache G.
Proof.
  induction imm as [| c t IH]; intros G G' Hok Hrun.
  - cbn [for_each] in Hrun. apply ret_inv in Hrun. destruct Hrun as [_ ->].
    auto.
  - cbn [for_each] in Hrun. apply bindM_inv in Hrun.
    destruct Hrun as ([] & G1 & Hstep & Hrun).
    destruct (remove_population_tree_ok G G1 c Hok Hstep) as (Hok1 & _).
    destruct (IH G1 G' Hok1 Hrun) as [Hg Hc].
    assert (HG1 : gates G1 = gates G /\
                  fmo_search_cache G1 = fmo_search_cache G).
    { destruct (dict_mem (populations G) c) eqn:E.
      - apply dict_mem_keys in E.
        rewrite (remove_population_run G c Hok E) in Hstep.
        injection Hstep as <-. auto.
      - unfold remove_population, bindM, get in Hstep. rewrite E in Hstep.
        apply ret_inv in Hstep. destruct Hstep as [_ ->]. auto. }
    destruct HG1 as [Hg1 Hc1]. split; congruence.
Qed.

Lemma shape_get (a b : dict Node) (n : string) (nd : Node) :
  shape_of a = shape_of b -> dict_get a n = Some nd ->
  exists nd0, dict_get b n = Some nd0 /\ parent nd0 = parent nd.
Proof.
  revert b. induction a as [| [k v] t IH]; intros b Hshape Hget;
    [discriminate |].
  destruct b as [| [k' v'] t']; [discriminate |].
  cbn [shape_of map fst snd] in Hshape. injection Hshape as <- Hpar Hrest.
  cbn [dict_get] in *. destruct (String.eqb n k).
  - injection Hget as <-. eauto.
  - now apply IH.
Qed.

(** [edit_gate] with [delete=True] on a well-formed tree. *)
Lemma edit_gate_frame (ext : External) (G G' : Gating) (g : string)
  (geoms : dict Geom) (gate : Gate) :
  tree_ok (populations G) ->
  dict_get (gates G) g = Some gate ->
  edit_gate g geoms true G = (Ok tt, G') ->
  (forall c, In c (children gate) ->
             node_children (populations G') c = []) /\
  (forall n nd,
      dict_get (populations G') n = Some nd ->
      exists nd0,
        dict_get (populations G) n = Some nd0 /\ parent nd0 = parent nd /\
        (~ In n (children gate) -> nd0 = nd)) /\
  gates G' = gates G /\ fmo_search_cache G' = fmo_search_cache G.
Proof.
  intros Hok Hgate Hrun. unfold edit_gate in Hrun. inv_m Hrun.
  unfold dict_item in Hl0. rewrite Hgate in Hl0. injection Hl0 as <-.
  destruct (edit_loop_frame ext geoms _ _ _ _ _ Hm)
    as (Hshape & Hgates & Hcache & _ & Hkids & Hother).
  assert (Hok1 : tree_ok (populations G0)).
  { apply (tree_ok_shape (populations G)); [now symmetry | assumption]. }
  destruct (remove_loop _ G0 G' Hok1 Hrun) as (Hok' & Hsub & Hgone).
  destruct (remove_loop_frame _ G0 G' Hok1 Hrun) as [Hg Hc].
  split; [| split; [| split; congruence]].
  - intros c Hc'.
    destruct (node_children (populations G') c) as [| n l] eqn:Hch;
      [reflexivity |].
    assert (Hn : In n (node_children (populations G') c))
      by (rewrite Hch; now left).
    apply node_children_In in Hn. destruct Hn as (nd & Hin & Hpar).
    apply (dict_get_In_unique _ _ _ (proj1 Hok')) in Hin.
    pose proof (Hsub n nd Hin) as Hin0.
    assert (Hchild : In n (node_children (populations G0) c)).
    { apply node_children_In. exists nd. split; [| assumption].
      now apply dict_get_In. }
    apply (Hkids c Hc') in Hchild. apply Hgone in Hchild. congruence.
  - intros n nd Hn. pose proof (Hsub n nd Hn) as Hn0.
    destruct (shape_get _ _ n nd Hshape Hn0) as (nd0 & Hnd0 & Hpar).
    exists nd0. split; [assumption |]. split; [assumption |].
    intros Hnot. rewrite (Hother n Hnot) in Hn0. congruence.
Qed.

(** X19.  [edit_gate] with [delete=True], on a well-formed tree: when it
    returns, no child of the edited gate has children left (everything
    downstream of the children is removed); every population that
    remains was there before with the same parent, and is unchanged
    unless it is a child of the gate.  The gate registry and the FMO
    cache are not touched: the entries cached for the edited populations
    stay as they were. *)
Theorem edit_gate_removes_downstream :
  forall (ext : External) (G G' : Gating) (gate_name : string)
         (updated_geom : dict Geom) (gate : Gate),
    tree_ok (populations G) ->
    dict_get (gates G) gate_name = Some gate ->
    edit_gate gate_name updated_geom true G = (Ok tt, G') ->
    (forall c, In c (children gate) ->
               node_children (populations G') c = []) /\
    (forall n nd,
        dict_get (populations G') n = Some nd ->
        exists nd0,
          dict_get (populations G) n = Some nd0 /\ parent nd0 = parent nd /\
          (~ In n (children gate) -> nd0 = nd)) /\
    gates G' = gates G /\ fmo_search_cache G' = fmo_search_cache G.
Proof.
  intros ext G G' g geoms gate. apply edit_gate_frame.
Qed.

(** Editing [gA] in [root -> A -> B], after [A] was cached for the
    control: [B] is removed, the cache of the control still holds [A]. *)
Lemma edit_gate_removes_downstream_witness :
  node_children
    (populations
       (snd (edit_gate (ext := Fixtures.demo_external) "gA"
               [("A", Fixtures.threshold_geom (3 # 1) "+")] true
               Fixtures.G_cached_A))) "A" = [] /\
  fmo_search_cache
    (snd (edit_gate (ext := Fixtures.demo_external) "gA"
            [("A", Fixtures.threshold_geom (3 # 1) "+")] true
            Fixtures.G_cached_A))
  = [("ctrl", [("root", [1; 2; 3; 4; 5; 6]%Z); ("A", [1; 2; 3; 4]%Z)])].
Proof.
  destruct (edit_gate_removes_downstream Fixtures.demo_external
              Fixtures.G_cached_A
              (snd (edit_gate (ext := Fixtures.demo_external) "gA"
                      [("A", Fixtures.threshold_geom (3 # 1) "+")] true
                      Fixtures.G_cached_A))
              "gA" [("A", Fixtures.threshold_geom (3 # 1) "+")]
              (mkGate "gA" ["A"] "root" "rect_gate"
                 [("child_populations",
                   KColl (mkCollection "geom"
                            [("A", mkChild [1; 2; 3; 4]%Z
                                     (Fixtures.axes_geom "rect"))]))]
                 "Static"))
    as (Hkids & _ & _ & Hcache).
  - apply tree_okb_ok. reflexivity.
  - reflexivity.
  - reflexivity.
  - split; [apply Hkids; now left |]. rewrite Hcache. reflexivity.
Defined.

(** *** Nudging a threshold *)

(** X20.  [nudge_threshold] accepts registered [DensityThreshold] gates
    only: for any other name or class it raises [AssertionError] and
    leaves the state as it is.  When it returns, on a well-formed tree
    in which every population holds only events of its parent, the tree
    is still well formed with the same subset property, no child of the
    gate has children left, and the registry is unchanged. *)
Theorem nudge_threshold_checks_and_keeps_invariants :
  forall (ext : External) (G : Gating) (gate_name : string) (new_x : Q)
         (new_y : option Q),
    transform_keeps_rows ext -> polygon_selects_rows ext ->
    (~ In gate_name (dict_keys (gates G)) ->
     nudge_threshold gate_name new_x new_y G
     = (Raise (AssertionError "Invalid gate name"), G)) /\
    (forall gate,
        dict_get (gates G) gate_name = Some gate ->
        class_ gate <> "DensityThreshold" ->
        nudge_threshold gate_name new_x new_y G
        = (Raise (AssertionError "Can only nudge threshold gates"), G)) /\
    (forall gate G',
        tree_ok (populations G) -> subset_invariant G ->
        dict_get (gates G) gate_name = Some gate ->
        nudge_threshold gate_name new_x new_y G = (Ok tt, G') ->
        class_ gate = "DensityThreshold" /\
        tree_ok (populations G') /\ subset_invariant G' /\
        (forall c, In c (children gate) ->
                   node_children (populations G') c = []) /\
        gates G' = gates G).
Proof.
  intros ext G g new_x new_y Hkeep Hpoly. split; [| split].
  - intros Hnot. unfold nudge_threshold, bindM, get, lift.
    destruct (dict_mem (gates G) g) eqn:E; [| reflexivity].
    apply dict_mem_keys in E. contradiction.
  - intros gate Hget Hcls. unfold nudge_threshold, bindM, get, lift.
    unfold dict_mem, dict_item. rewrite Hget. cbn [assert of_option].
    destruct (String.eqb_spec (class_ gate) "DensityThreshold");
      [contradiction | reflexivity].
  - intros gate G' Hok Hinv Hget Hrun. unfold nudge_threshold in Hrun.
    inv_m Hrun.
    unfold dict_item in Hl0. rewrite Hget in Hl0. injection Hl0 as <-.
    apply assert_true, String.eqb_eq in Hl1.
    destruct (edit_gate_subset ext Hkeep Hpoly G G' g _ Hok Hinv Hrun)
      as [Hinv' Hok'].
    destruct (edit_gate_frame ext G G' g _ gate Hok Hget Hrun)
      as (Hkids & _ & Hgates & _).
    auto.
Qed.

(** Nudging [gT] to the threshold 2 moves event 2 from [lo] to [hi];
    nudging the static gate [gA] is refused. *)
Lemma nudge_threshold_checks_and_keeps_invariants_witness :
  nudge_threshold (ext := Fixtures.demo_external) "gA" (2 # 1) None
    G_threshold
  = (Raise (AssertionError "Can only nudge threshold gates"), G_threshold) /\
  subset_invariant
    (snd (nudge_threshold (ext := Fixtures.demo_external) "gT" (2 # 1) None
            G_threshold)) /\
  map (fun kv : string * Node => (fst kv, index (snd kv)))
    (populations
       (snd (nudge_threshold (ext := Fixtures.demo_external) "gT" (2 # 1)
               None G_threshold)))
  = [("root", [1; 2; 3; 4; 5; 6]%Z); ("A", [1; 2; 3; 4]%Z);
     ("B", [1; 2]%Z); ("hi", [2; 3; 4]%Z); ("lo", [1%Z])].
Proof.
  destruct (nudge_threshold_checks_and_keeps_invariants
              Fixtures.demo_external G_threshold "gA" (2 # 1) None
              demo_transform_keeps_rows demo_polygon_selects_rows)
    as (_ & Hclass & _).
  destruct (nudge_threshold_checks_and_keeps_invariants
              Fixtures.demo_external G_threshold "gT" (2 # 1) None
              demo_transform_keeps_rows demo_polygon_selects_rows)
    as (_ & _ & Hinv).
  split; [| split].
  - eapply Hclass; [reflexivity | discriminate].
  - eapply Hinv.
    + apply tree_okb_ok. reflexivity.
    + apply subset_okb_ok. reflexivity.
    + reflexivity.
    + reflexivity.
  - reflexivity.
Defined.



End EditProofs.

(** ** Merging [Population] documents *)

Module PopulationProofs.
Import Py PyFacts PopulationDoc PopulationMerging.

Lemma opt_str_eqb_eq (a b : option string) :
  opt_str_eqb a b = true <-> a = b.
Proof.
  destruct a as [s |], b as [t |]; simpl; try (split; congruence).
  rewrite String.eqb_eq. split; congruence.
Qed.

Lemma np_unique_comm (l r : list Z) : np_unique (l ++ r) = np_unique (r ++ l).
Proof.
  apply sorted_same_elements; try apply np_unique_sorted.
  intros e. rewrite !In_np_unique, !in_app_iff. tauto.
Qed.

Lemma np_unique_twice (l : list Z) : np_unique (l ++ l) = np_unique l.
Proof.
  apply sorted_same_elements; try apply np_unique_sorted.
  intros e. rewrite !In_np_unique, !in_app_iff. tauto.
Qed.

(** X21.  [_merge_index] is the union of two event sets: it does not
    depend on the order of the two populations, its result is strictly
    increasing (so without duplicates) and holds exactly the events of
    either index, and merging a population with itself gives its distinct
    events.  An index that was never set makes it raise. *)
Theorem merge_index_is_set_union :
  forall left right : Population,
    _merge_index left right = _merge_index right left /\
    (forall il ir,
        index left = Some il -> index right = Some ir ->
        exists idx,
          _merge_index left right = Ok idx /\
          StronglySorted Z.lt idx /\ NoDup idx /\
          (forall e, In e idx <-> In e il \/ In e ir)) /\
    (forall il, index left = Some il ->
                _merge_index left left = Ok (np_unique il)) /\
    (index left = None \/ index right = None ->
     exists msg, _merge_index left right = Raise (ValueError msg)).
Proof.
  intros left right. unfold _merge_index.
  split; [| split; [| split]].
  - destruct (index left) as [l |], (index right) as [r |]; try reflexivity.
    now rewrite np_unique_comm.
  - intros il ir -> ->. eexists. split; [reflexivity |].
    split; [apply np_unique_sorted |]. split; [apply np_unique_NoDup |].
    intros e. now rewrite In_np_unique, in_app_iff.
  - intros il ->. now rewrite np_unique_twice.
  - intros [-> | Hr].
    + eauto.
    + rewrite Hr. destruct (index left); eauto.
Qed.

Lemma merge_index_is_set_union_witness :
  _merge_index Fixtures.pos_population Fixtures.neg_population
  = _merge_index Fixtures.neg_population Fixtures.pos_population /\
  _merge_index Fixtures.pos_population Fixtures.pos_population
  = Ok [3; 4; 5; 6]%Z.
Proof.
  destruct (merge_index_is_set_union Fixtures.pos_population
              Fixtures.neg_population) as (Hcomm & _ & Hself & _).
  split; [exact Hcomm |]. apply (Hself [3; 4; 5; 6]%Z). reflexivity.
Defined.

Lemma left_after_merge (left right : Population) :
  let left' := match clusters left, clusters right with
               | [], [] => left
               | _, _ => set_clusters left []
               end in
  index left' = index left /\ definition left' = definition left /\
  parent left' = parent left /\ geom left' = geom left /\
  warnings left' = warnings left /\ signature left' = signature left /\
  population_name left' = population_name left.
Proof.
  destruct (clusters left), (clusters right); simpl; repeat split.
Qed.

(** X22.  [merge_populations] returns only for compatible populations:
    the same two axes and transforms, the same parent, geometries of the
    same kind and, for thresholds, equal thresholds, for polygons,
    overlapping shapes.  The population it returns carries the given name
    (or [merge_<left>_<right>]), the parent of the two, no clusters, the
    warnings of both followed by [MERGED POPULATION], and as index the
    sorted union of the two indices. *)
Theorem merge_populations_requires_compatible :
  forall (shp : Shapely) (left right : Population)
         (new_population_name : option string) (merged left' : Population),
    merge_populations left right new_population_name = Ok (merged, left') ->
    geom_axes (geom left) = geom_axes (geom right) /\
    parent left = parent right /\
    is_threshold (geom left) = is_threshold (geom right) /\
    (is_threshold (geom left) = true ->
     exists lx ly rx ry,
       x_threshold (geom left) = Ok lx /\ x_threshold (geom right) = Ok rx /\
       y_threshold (geom left) = Ok ly /\ y_threshold (geom right) = Ok ry /\
       opt_float_eqb lx rx = true /\ opt_float_eqb ly ry = true) /\
    (is_threshold (geom left) = false ->
     intersects (geom left) (geom right) = true) /\
    population_name merged
    = merge_name left right new_population_name /\
    parent merged = parent left /\
    clusters merged = [] /\
    warnings merged
    = warnings left ++ warnings right ++ ["MERGED POPULATION"] /\
    exists il ir,
      index left = Some il /\ index right = Some ir /\
      index merged = Some (np_unique (il ++ ir)).
Proof.
  intros shp left right name merged left' Hrun.
  unfold merge_populations in Hrun.
  destruct (_check_transforms_dimensions left right) as [[] |] eqn:Hdims;
    [| discriminate].
  cbn [bind] in Hrun.
  unfold _check_transforms_dimensions in Hdims.
  destruct (opt_str_eqb (transform_x (geom_axes (geom left))) _) eqn:E1;
    [| discriminate].
  destruct (opt_str_eqb (transform_y (geom_axes (geom left))) _) eqn:E2;
    [| discriminate].
  destruct (opt_str_eqb (x (geom_axes (geom left))) _) eqn:E3;
    [| discriminate].
  destruct (opt_str_eqb (y (geom_axes (geom left))) _) eqn:E4;
    [| discriminate].
  apply opt_str_eqb_eq in E1, E2, E3, E4.
  destruct (String.eqb (parent left) (parent right)) eqn:Hpar;
    [| discriminate].
  apply String.eqb_eq in Hpar. cbn [assert bind] in Hrun.
  destruct (same_kind (geom left) (geom right)) eqn:Hkind; [| discriminate].
  cbn [assert bind] in Hrun. unfold same_kind in Hkind.
  apply Bool.eqb_prop in Hkind.
  split.
  { destruct (geom_axes (geom left)), (geom_axes (geom right)).
    simpl in *. congruence. }
  split; [exact Hpar |]. split; [exact Hkind |].
  destruct (left_after_merge left right)
    as (Hi' & Hd' & Hp' & Hg' & Hw' & _ & _).
  destruct (is_threshold (geom left)) eqn:Hthr.
  - unfold _merge_thresholds in Hrun.
    rewrite Hg', Hi', Hd', Hp', Hw' in Hrun.
    destruct (x_threshold (geom left)) as [lx |]; [| discriminate].
    destruct (x_threshold (geom right)) as [rx |]; [| discriminate].
    cbn [bind] in Hrun.
    destruct (opt_float_eqb lx rx) eqn:Hx; [| discriminate].
    cbn [assert bind] in Hrun.
    destruct (y_threshold (geom left)) as [ly |]; [| discriminate].
    destruct (y_threshold (geom right)) as [ry |]; [| discriminate].
    cbn [bind] in Hrun.
    destruct (opt_float_eqb ly ry) eqn:Hy; [| discriminate].
    cbn [assert bind] in Hrun.
    unfold _merge_index in Hrun. rewrite Hi' in Hrun.
    destruct (index left) as [il |]; [| discriminate].
    destruct (index right) as [ir |]; [| discriminate].
    cbn [py_len bind] in Hrun.
    destruct (definition left); [| discriminate].
    destruct (definition right); [| discriminate].
    cbn [of_option bind] in Hrun. injection Hrun as <- _. cbn.
    split; [intros _; exists lx, ly, rx, ry; repeat split; assumption |].
    split; [discriminate |]. repeat (split; [reflexivity |]).
    exists il, ir. auto.
  - unfold _merge_polygons, _check_overlap in Hrun.
    destruct (match geom left, geom right with
              | PolygonGeom _ _ _, PolygonGeom _ _ _ => true
              | _, _ => false
              end); [| discriminate].
    cbn [assert bind] in Hrun.
    destruct (intersects (geom left) (geom right)) eqn:Hint;
      [| discriminate].
    cbn [assert bind] in Hrun. unfold _merge_index in Hrun.
    destruct (index left) as [il |]; [| discriminate].
    destruct (index right) as [ir |]; [| discriminate].
    cbn [bind] in Hrun. injection Hrun as <- _. cbn.
    split; [discriminate |]. split; [reflexivity |].
    repeat (split; [reflexivity |]).
    exists il, ir. auto.
Qed.

Lemma merge_populations_requires_compatible_witness :
  exists merged left',
    merge_populations (shp := {| intersects := fun _ _ => true;
                                 unary_union_xy := fun _ _ => ([], []) |})
      Fixtures.pos_population Fixtures.neg_population None
    = Ok (merged, left') /\
    population_name merged = "merge_pos_neg" /\
    index merged = Some [1; 2; 3; 4; 5; 6]%Z.
Proof.
  eexists. eexists. split; [reflexivity |].
  destruct (merge_populations_requires_compatible
              {| intersects := fun _ _ => true;
                 unary_union_xy := fun _ _ => ([], []) |}
              Fixtures.pos_population Fixtures.neg_population None _ _
              eq_refl)
    as (_ & _ & _ & _ & _ & Hname & _).
  split; [exact Hname | reflexivity].
Defined.


Lemma nodup_length_le (l : list Z) :
  (List.length (nodup Z.eq_dec l) <= List.length l)%nat.
Proof.
  induction l as [| a t IH]; simpl; [lia |].
  destruct (in_dec Z.eq_dec a t); simpl; lia.
Qed.

Lemma nodup_length_eq (l : list Z) :
  List.length (nodup Z.eq_dec l) = List.length l <-> NoDup l.
Proof.
  split.
  - induction l as [| a t IH]; simpl; intros H; [constructor |].
    destruct (in_dec Z.eq_dec a t) as [Hin | Hnot].
    + pose proof (nodup_length_le t). lia.
    + constructor; [assumption |]. apply IH. simpl in H. lia.
  - intros H. now rewrite nodup_fixed_point.
Qed.

(** X23.  The event count [n] of a merged population.  For two threshold
    populations [_merge_thresholds] records the sum of the two counts,
    which is at least the length of the merged index and equals it only
    when the two indices share no event and repeat none; for two polygon
    populations [_merge_polygons] records the length of the merged
    index. *)
Theorem merged_count_and_index :
  forall (shp : Shapely) (left right : Population) (name : string)
         (merged left' : Population) (il ir : list Z),
    index left = Some il -> index right = Some ir ->
    (_merge_thresholds left right name = Ok (merged, left') ->
     exists idx,
       index merged = Some idx /\
       n merged = (List.length il + List.length ir)%nat /\
       (List.length idx <= n merged)%nat /\
       (List.length idx = n merged <-> NoDup (il ++ ir))) /\
    (_merge_polygons left right name = Ok (merged, left') ->
     exists idx, index merged = Some idx /\ n merged = List.length idx).
Proof.
  intros shp left right name merged left' il ir Hil Hir. split.
  - intros Hrun. unfold _merge_thresholds in Hrun.
    destruct (left_after_merge left right)
      as (Hi' & Hd' & Hp' & Hg' & Hw' & _ & _).
    rewrite Hg', Hi', Hd', Hp', Hw' in Hrun.
    destruct (x_threshold (geom left)) as [lx |]; [| discriminate].
    destruct (x_threshold (geom right)) as [rx |]; [| discriminate].
    cbn [bind] in Hrun.
    destruct (opt_float_eqb lx rx); [| discriminate].
    cbn [assert bind] in Hrun.
    destruct (y_threshold (geom left)) as [ly |]; [| discriminate].
    destruct (y_threshold (geom right)) as [ry |]; [| discriminate].
    cbn [bind] in Hrun.
    destruct (opt_float_eqb ly ry); [| discriminate].
    cbn [assert bind] in Hrun.
    unfold _merge_index in Hrun. rewrite Hi', Hil, Hir in Hrun.
    cbn [py_len bind] in Hrun.
    destruct (definition left); [| discriminate].
    destruct (definition right); [| discriminate].
    cbn [of_option bind] in Hrun. injection Hrun as <- _. cbn [index n].
    exists (np_unique (il ++ ir)). split; [reflexivity |].
    split; [reflexivity |].
    rewrite np_unique_length, <- length_app.
    split; [apply nodup_length_le | apply nodup_length_eq].
  - intros Hrun. unfold _merge_polygons in Hrun.
    destruct (_check_overlap left right true); [| discriminate].
    cbn [bind] in Hrun. unfold _merge_index in Hrun.
    rewrite Hil, Hir in Hrun. cbn [bind] in Hrun.
    injection Hrun as <- _. cbn [index n]. eauto.
Qed.

(** Merging the [+] side [{3,4,5,6}] with itself records 8 events for an
    index of 4. *)
Lemma merged_count_and_index_witness :
  exists merged left',
    _merge_thresholds Fixtures.pos_population Fixtures.pos_population "twice"
    = Ok (merged, left') /\
    n merged = 8%nat /\ index merged = Some [3; 4; 5; 6]%Z.
Proof.
  edestruct (merged_count_and_index
               {| intersects := fun _ _ => true;
                  unary_union_xy := fun _ _ => ([], []) |}
               Fixtures.pos_population Fixtures.pos_population "twice")
    as [Hthr _]; [reflexivity | reflexivity |].
  destruct (Hthr eq_refl) as (idx & _ & Hn & _).
  eexists. eexists. split; [reflexivity |].
  split; [exact Hn | reflexivity].
Defined.

(** *** Merging many populations *)

(** A threshold population of one gate: parent, axes and thresholds as
    given, with an index and a definition. *)
Definition threshold_of (par : string) (ax : GeomAxes) (tx ty : option Q)
  (p : Population) : Prop :=
  parent p = par /\
  (exists tx' ty', geom p = ThresholdGeom ax tx' ty' /\
                   opt_float_eqb tx tx' = true /\
                   opt_float_eqb ty ty' = true) /\
  (exists i, index p = Some i) /\ (exists d, definition p = Some d).

Definition events_of (p : Population) : list Z :=
  match index p with Some i => i | None => [] end.

Lemma merge_threshold_step (shp : Shapely) (par : string) (ax : GeomAxes)
  (tx ty : option Q) (acc p : Population) :
  geom acc = ThresholdGeom ax tx ty ->
  parent acc = par ->
  (exists i, index acc = Some i) -> (exists d, definition acc = Some d) ->
  threshold_of par ax tx ty p ->
  exists m,
    merge_populations acc p None = Ok m /\
    geom (fst m) = ThresholdGeom ax tx ty /\
    parent (fst m) = par /\
    index (fst m) = Some (np_unique (events_of acc ++ events_of p)) /\
    (exists d, definition (fst m) = Some d).
Proof.
  intros Hg Hpar [ia Hia] [da Hda] (Hpp & (tx' & ty' & Hgp & Htx & Hty)
                                    & [ip Hip] & [dp Hdp]).
  rewrite (MergeProofs.merge_populations_thresholds shp acc p None ax
             tx ty tx' ty' Hg Hgp) by congruence.
  unfold _merge_thresholds.
  destruct (left_after_merge acc p) as (Hi' & Hd' & Hp' & Hg' & Hw' & _ & _).
  rewrite Hg', Hi', Hd', Hp', Hw'. rewrite Hg, Hgp.
  cbn [x_threshold y_threshold bind]. rewrite Htx, Hty.
  cbn [assert bind]. unfold _merge_index. rewrite Hi', Hia, Hip, Hda, Hdp.
  cbn [py_len of_option bind]. eexists. split; [reflexivity |].
  cbn [fst geom parent index definition geom_axes].
  unfold events_of. rewrite Hia, Hip.
  split; [reflexivity |]. split; [assumption |]. split; [reflexivity |].
  eauto.
Qed.

Lemma reduce_merge_thresholds (shp : Shapely) (par : string) (ax : GeomAxes)
  (tx ty : option Q) (rest : list Population) :
  forall acc : Population,
    geom acc = ThresholdGeom ax tx ty ->
    parent acc = par ->
    (exists i, index acc = Some i) -> (exists d, definition acc = Some d) ->
    Forall (threshold_of par ax tx ty) rest ->
    exists m,
      reduce_merge acc rest = Ok m /\
      parent m = par /\
      (exists i, index m = Some i) /\
      (forall e, In e (events_of m) <->
                 In e (events_of acc) \/
                 exists q, In q rest /\ In e (events_of q)) /\
      (rest <> [] -> StronglySorted Z.lt (events_of m)).
Proof.
  induction rest as [| p t IH]; intros acc Hg Hpar Hi Hd Hall.
  - exists acc. cbn [reduce_merge]. split; [reflexivity |].
    split; [assumption |]. split; [assumption |]. split; [| congruence].
    intros e. split; [now left |]. intros [H | (q & [] & _)]. exact H.
  - inversion Hall as [| ? ? Hp Ht]; subst.
    destruct (merge_threshold_step shp (parent acc) ax tx ty acc p Hg
                eq_refl Hi Hd Hp) as (m & Hrun & Hgm & Hpm & Him & Hdm).
    cbn [reduce_merge]. rewrite Hrun. cbn [bind].
    destruct (IH (fst m) Hgm Hpm (ex_intro _ _ Him) Hdm Ht)
      as (r & Hr & Hpr & Hir & Hmem & Hsorted).
    exists r. split; [exact Hr |]. split; [exact Hpr |].
    split; [exact Hir |]. split.
    + intros e. rewrite Hmem. unfold events_of at 1. rewrite Him.
      rewrite In_np_unique, in_app_iff. split.
      * intros [[H | H] | (q & Hq & H)]; [now left | right | right].
        -- exists p. split; [now left | assumption].
        -- exists q. split; [now right | assumption].
      * intros [H | (q & [<- | Hq] & H)]; [left; now left | left; now right |].
        right. now exists q.
    + intros _. destruct t as [| q t'].
      * cbn [reduce_merge] in Hr. injection Hr as <-.
        unfold events_of. rewrite Him. apply np_unique_sorted.
      * apply Hsorted. discriminate.
Qed.

(** X24.  [merge_multiple_populations] on no population at all raises:
    [AssertionError] without a name, [IndexError] with an empty name,
    [TypeError] with a name.  On the threshold populations of one gate
    (same parent, axes and thresholds, each with an index and a
    definition) it returns a population under the given name, or under
    the name of the first one when none is given and all are named
    alike; the result holds exactly the events of the populations given
    and, for two or more of them, in strictly increasing order. *)
Theorem merge_multiple_populations_unions_all :
  forall (shp : Shapely),
    merge_multiple_populations [] None
    = MergeRaise
        (AssertionError
           "populations are expected to have the same population name") /\
    merge_multiple_populations [] (Some "") = IndexError /\
    (forall s, s <> "" ->
               merge_multiple_populations [] (Some s) = MergeRaise TypeError) /\
    (forall (p : Population) (rest : list Population)
            (new_population_name : option string)
            (ax : GeomAxes) (tx ty : option Q),
        geom p = ThresholdGeom ax tx ty ->
        (exists i, index p = Some i) -> (exists d, definition p = Some d) ->
        Forall (threshold_of (parent p) ax tx ty) rest ->
        (new_population_name = None -> distinct_names (p :: rest) = 1%nat) ->
        exists m,
          merge_multiple_populations (p :: rest) new_population_name
          = Merged m /\
          population_name m
          = match new_population_name with
            | Some s => if String.eqb s "" then population_name p else s
            | None => population_name p
            end /\
          parent m = parent p /\
          (forall e, In e (events_of m) <->
                     exists q, In q (p :: rest) /\ In e (events_of q)) /\
          (rest <> [] -> StronglySorted Z.lt (events_of m))).
Proof.
  intros shp. split; [reflexivity |]. split; [reflexivity |]. split.
  { intros s Hs. unfold merge_multiple_populations.
    apply String.eqb_neq in Hs. now rewrite Hs. }
  intros p rest name ax tx ty Hg Hi Hd Hall Hname.
  destruct (reduce_merge_thresholds shp (parent p) ax tx ty rest p Hg
              eq_refl Hi Hd Hall) as (m & Hrun & Hpm & Him & Hmem & Hsorted).
  unfold merge_multiple_populations.
  assert (Hcheck : match name with
                   | None => negb (Nat.eqb (distinct_names (p :: rest)) 1)
                   | Some _ => false
                   end = false).
  { destruct name; [reflexivity |]. now rewrite (Hname eq_refl). }
  rewrite Hcheck.
  set (nm := match name with
             | Some s => if String.eqb s "" then population_name p else s
             | None => population_name p
             end).
  exists (set_population_name m nm). split.
  - subst nm.
    destruct name as [s |]; [destruct (String.eqb s "") |];
      cbv beta iota; rewrite Hrun; reflexivity.
  - split; [reflexivity |]. split; [exact Hpm |].
    change (events_of (set_population_name m nm)) with (events_of m).
    split; [| exact Hsorted].
    intros e. rewrite Hmem. split.
    + intros [H | (q & Hq & H)]; [exists p | exists q]; simpl; auto.
    + intros (q & [<- | Hq] & H); [now left | right; now exists q].
Qed.

(** The two sides of the threshold 3 and the [+] side again, merged under
    one name, hold the six events in order. *)
Lemma merge_multiple_populations_unions_all_witness :
  exists m,
    merge_multiple_populations
      (shp := {| intersects := fun _ _ => true;
                 unary_union_xy := fun _ _ => ([], []) |})
      [Fixtures.pos_population; Fixtures.neg_population;
       Fixtures.pos_population] (Some "all")
    = Merged m /\
    population_name m = "all" /\
    index m = Some [1; 2; 3; 4; 5; 6]%Z.
Proof.
  destruct (merge_multiple_populations_unions_all
              {| intersects := fun _ _ => true;
                 unary_union_xy := fun _ _ => ([], []) |})
    as (_ & _ & _ & Hmany).
  destruct (Hmany Fixtures.pos_population
              [Fixtures.neg_population; Fixtures.pos_population]
              (Some "all")
              (mkAxes (Some "FSC-A") None None None) (Some (3 # 1)%Q) None)
    as (m & Hrun & Hname & _).
  - reflexivity.
  - eexists. reflexivity.
  - eexists. reflexivity.
  - repeat constructor; try reflexivity;
      try (eexists; eexists; repeat split; reflexivity);
      try (eexists; reflexivity).
  - discriminate.
  - exists m. split; [exact Hrun |]. split; [exact Hname |].
    vm_compute in Hrun. injection Hrun as <-. reflexivity.
Defined.

End PopulationProofs.

(** ** Clusters of a population *)

Module ClusterProofs.
Import Py PyFacts PopulationClusters Samples.

(** What identifies a cluster in a population: its id and its tag. *)
Definition cluster_key (c : Cluster) : string * string :=
  (cluster_id c, tag c).

Lemma same_key_In (clusters : list Cluster) (c : Cluster) :
  existsb (fun x => String.eqb (cluster_id x) (cluster_id c)
                    && String.eqb (tag x) (tag c)) clusters = true
  <-> In (cluster_key c) (map cluster_key clusters).
Proof.
  rewrite existsb_exists, in_map_iff. unfold cluster_key.
  split; intros (x & H1 & H2); exists x.
  - apply andb_true_iff in H2. rewrite !String.eqb_eq in H2.
    destruct H2 as [-> ->]. auto.
  - injection H1 as -> ->. rewrite !String.eqb_refl. auto.
Qed.

Lemma NoDup_map_filter {A B : Type} (f : A -> B) (P : A -> bool)
  (l : list A) :
  NoDup (map f l) -> NoDup (map f (filter P l)).
Proof.
  induction l as [| a t IH]; simpl; intros H; [constructor |].
  inversion H as [| ? ? Hnot Hnd]; subst.
  destruct (P a); simpl; [| now apply IH].
  constructor; [| now apply IH].
  intros Hin. apply Hnot. apply in_map_iff in Hin.
  destruct Hin as (x & Hx & Hin). apply filter_In in Hin.
  apply in_map_iff. exists x. tauto.
Qed.

(** X25.  A population never holds two clusters with the same id and
    tag: [add_cluster] raises [AssertionError] exactly when a cluster with
    the id and tag of the new one is there, otherwise it appends the new
    cluster and keeps the others; [add_cluster], [delete_cluster] and
    [delete_all_clusters] all keep the pairs of id and tag distinct. *)
Theorem cluster_keys_stay_unique :
  forall (clusters : list Cluster),
    NoDup (map cluster_key clusters) ->
    (forall c,
        (In (cluster_key c) (map cluster_key clusters) ->
         add_cluster clusters c
         = Raise (AssertionError "Cluster already exists")) /\
        (~ In (cluster_key c) (map cluster_key clusters) ->
         add_cluster clusters c = Ok (clusters ++ [c]) /\
         NoDup (map cluster_key (clusters ++ [c])))) /\
    (forall cluster_id_ tag_ meta_label_ clusters',
        delete_cluster clusters cluster_id_ tag_ meta_label_ = Ok clusters' ->
        NoDup (map cluster_key clusters') /\ incl clusters' clusters) /\
    (forall ids,
        NoDup (map cluster_key (delete_all_clusters clusters ids)) /\
        incl (delete_all_clusters clusters ids) clusters).
Proof.
  intros clusters Hnd. split; [| split].
  - intros c. unfold add_cluster. split.
    + intros Hin. apply same_key_In in Hin. now rewrite Hin.
    + intros Hnot.
      destruct (existsb _ clusters) eqn:E;
        [apply same_key_In in E; contradiction |].
      split; [reflexivity |].
      rewrite map_app. apply NoDup_app; [assumption | |].
      * constructor; [intros [] | constructor].
      * intros k Hk [<- | []]. contradiction.
  - intros i t m clusters' Hrun. unfold delete_cluster in Hrun.
    destruct (Nat.eqb _ 1); [| discriminate]. cbn [assert bind] in Hrun.
    destruct (given i), (given t), (given m); injection Hrun as <-;
      (split; [try assumption; now apply NoDup_map_filter |]);
      try apply incl_refl; apply incl_filter.
  - intros [l |]; simpl.
    + split; [now apply NoDup_map_filter | apply incl_filter].
    + split; [constructor | intros x []].
Qed.

Lemma cluster_keys_stay_unique_witness :
  add_cluster [c1; c2] c1 = Raise (AssertionError "Cluster already exists") /\
  add_cluster [c1] c2 = Ok [c1; c2].
Proof.
  destruct (cluster_keys_stay_unique [c1; c2]) as [Hadd _].
  { repeat constructor; simpl; intuition discriminate. }
  destruct (cluster_keys_stay_unique [c1]) as [Hadd1 _].
  { repeat constructor; simpl; intuition discriminate. }
  split.
  - apply (Hadd c1). simpl. auto.
  - apply (Hadd1 c2). simpl. intuition discriminate.
Defined.

(** X26.  [delete_cluster] wants exactly one of its three selectors:
    with none or more than one it raises [AssertionError].  With a
    cluster id it removes every cluster of that id and keeps the others
    in order, so the id is no longer listed by [list_clusters]; deleting
    by the id of a cluster just added to a population that had no
    cluster of this id gives back the clusters before.  An empty string
    as selector passes the check and deletes nothing. *)
Theorem delete_cluster_by_id :
  forall (clusters : list Cluster),
    (forall cluster_id_ tag_ meta_label_,
        (not_none cluster_id_ + not_none tag_ + not_none meta_label_)%nat
        <> 1%nat ->
        delete_cluster clusters cluster_id_ tag_ meta_label_
        = Raise (AssertionError
                   "Must provide either cluster_id, tag or meta_label")) /\
    (forall i,
        i <> "" ->
        exists clusters',
          delete_cluster clusters (Some i) None None = Ok clusters' /\
          ~ In i (list_clusters clusters' None None) /\
          (forall c, In c clusters' <-> In c clusters /\ cluster_id c <> i)) /\
    (forall c,
        cluster_id c <> "" ->
        ~ In (cluster_id c) (list_clusters clusters None None) ->
        exists clusters1,
          add_cluster clusters c = Ok clusters1 /\
          delete_cluster clusters1 (Some (cluster_id c)) None None
          = Ok clusters) /\
    delete_cluster clusters (Some "") None None = Ok clusters.
Proof.
  intros clusters. split; [| split; [| split]].
  - intros i t m Hne. unfold delete_cluster.
    apply Nat.eqb_neq in Hne. now rewrite Hne.
  - intros i Hi. unfold delete_cluster. cbn [not_none Nat.add Nat.eqb given].
    apply String.eqb_neq in Hi. rewrite Hi. cbn [assert bind negb].
    eexists. split; [reflexivity |]. split.
    + unfold list_clusters. cbn [given]. intros Hin.
      apply in_map_iff in Hin. destruct Hin as (c & Hc & Hin).
      apply filter_In in Hin. destruct Hin as [_ Hin].
      apply negb_true_iff, String.eqb_neq in Hin. contradiction.
    + intros c. rewrite filter_In, negb_true_iff, String.eqb_neq.
      reflexivity.
  - intros c Hid Hnot. unfold list_clusters in Hnot. cbn [given] in Hnot.
    assert (Hfresh : forall x, In x clusters ->
                               String.eqb (cluster_id x) (cluster_id c)
                               = false).
    { intros x Hx. apply String.eqb_neq. intros Heq. apply Hnot.
      rewrite <- Heq. now apply in_map. }
    unfold add_cluster.
    assert (Hex : existsb (fun x => String.eqb (cluster_id x) (cluster_id c)
                                    && String.eqb (tag x) (tag c)) clusters
                  = false).
    { apply not_true_is_false. intros H. apply existsb_exists in H.
      destruct H as (x & Hx & H). rewrite (Hfresh x Hx) in H. discriminate. }
    rewrite Hex. cbn [negb assert bind]. eexists. split; [reflexivity |].
    unfold delete_cluster. cbn [not_none Nat.add Nat.eqb given].
    apply String.eqb_neq in Hid. rewrite Hid. cbn [assert bind negb].
    f_equal. rewrite filter_app. cbn [filter].
    rewrite String.eqb_refl. cbn [negb]. rewrite app_nil_r.
    clear - Hfresh. induction clusters as [| x t IH]; [reflexivity |].
    cbn [filter]. rewrite (Hfresh x (or_introl eq_refl)). cbn [negb].
    f_equal. apply IH. intros y Hy. apply Hfresh. now right.
  - reflexivity.
Qed.

Lemma delete_cluster_by_id_witness :
  delete_cluster [c1; c2] (Some "c1") (Some "run1") None
  = Raise (AssertionError
             "Must provide either cluster_id, tag or meta_label") /\
  (exists clusters1,
      add_cluster [c1] c2 = Ok clusters1 /\
      delete_cluster clusters1 (Some "c2") None None = Ok [c1]).
Proof.
  destruct (delete_cluster_by_id [c1; c2]) as (Hsel & _).
  destruct (delete_cluster_by_id [c1]) as (_ & _ & Hround & _).
  split.
  - apply Hsel. simpl. lia.
  - apply (Hround c2).
    + discriminate.
    + simpl. intuition discriminate.
Defined.

End ClusterProofs.

(** ** The file group *)

Module FileGroupProofs.
Import Py PyFacts FileGroupDoc Samples.

Lemma prefix_refl (s : string) : String.prefix s s = true.
Proof.
  induction s as [| c s IH]; simpl; [reflexivity |].
  destruct (Ascii.ascii_dec c c); [assumption | congruence].
Qed.

Lemma str_contains_suffix (needle pre : string) :
  str_contains needle (pre ++ needle)%string = true.
Proof.
  induction pre as [| c pre IH].
  - cbn [append]. destruct needle; cbn [str_contains];
      now rewrite prefix_refl.
  - cbn [append str_contains]. rewrite IH. apply orb_true_r.
Qed.

Lemma append_assoc (a b c : string) :
  ((a ++ b) ++ c = a ++ (b ++ c))%string.
Proof. induction a as [| x a IH]; simpl; [reflexivity | now rewrite IH]. Qed.

(** X27.  A file group registered as invalid is never valid again:
    whatever its flags were, after [register_as_invalid] they contain
    [invalid] and [validity] answers [False]; registering it once more
    does not change that. *)
Theorem register_as_invalid_makes_invalid :
  forall fg : FileGroup,
    validity (register_as_invalid fg) = false /\
    validity (register_as_invalid (register_as_invalid fg)) = false /\
    populations (register_as_invalid fg) = populations fg /\
    gates (register_as_invalid fg) = gates fg.
Proof.
  assert (H : forall fg, validity (register_as_invalid fg) = false).
  { intros fg. unfold register_as_invalid, validity.
    destruct (flags fg) as [f |]; [| reflexivity].
    destruct (String.eqb f ""); [reflexivity |].
    cbn [flags set_flags].
    change (f ++ ",invalid")%string with (f ++ ("," ++ "invalid"))%string.
    rewrite <- append_assoc. now rewrite str_contains_suffix. }
  intros fg. split; [apply H |]. split; [apply H |].
  unfold register_as_invalid.
  destruct (flags fg) as [f |]; [destruct (String.eqb f "") |]; auto.
Qed.

Lemma In_filter_name (l : list Population) (nm : string) (p : Population) :
  In p (filter (fun q => String.eqb (population_name q) nm) l) <->
  In p l /\ population_name p = nm.
Proof. now rewrite filter_In, String.eqb_eq. Qed.

(** X28.  [update_population] and [get_population] round trip: after a
    population is stored under its own name, [get_population] returns
    exactly that document, whether or not the name was there before,
    and that name is listed once; the answer for every other name is
    unchanged.  [delete_populations] with a list of names makes
    [get_population] fail for each of them and leaves the others. *)
Theorem update_then_get_population :
  forall (fg : FileGroup) (new_population : Population),
    let nm := population_name new_population in
    get_population (update_population fg nm new_population) nm
    = Ok new_population /\
    count_occ string_dec
      (list_populations (update_population fg nm new_population)) nm
    = 1%nat /\
    (forall other,
        other <> nm ->
        get_population (update_population fg nm new_population) other
        = get_population fg other) /\
    (forall names other,
        get_population (delete_populations fg (Names names)) other
        = if str_mem other names
          then Raise (AssertionError "Population does not exist")
          else get_population fg other).
Proof.
  intros fg new nm.
  assert (Hnone : forall l,
             filter (fun p => String.eqb (population_name p) nm)
               (filter (fun p => negb (String.eqb (population_name p) nm)) l)
             = []).
  { induction l as [| a t IH]; simpl; [reflexivity |].
    destruct (String.eqb (population_name a) nm) eqn:E; simpl;
      [assumption |]. now rewrite E. }
  split; [| split; [| split]].
  - unfold get_population, update_population.
    cbn [populations set_fg_populations]. rewrite filter_app, Hnone.
    cbn [filter app]. unfold nm. now rewrite String.eqb_refl.
  - unfold list_populations, update_population.
    cbn [populations set_fg_populations]. rewrite map_app, count_occ_app.
    cbn [map count_occ].
    assert (Hzero : forall l,
               count_occ string_dec
                 (map population_name
                    (filter (fun p => negb (String.eqb (population_name p) nm))
                       l)) nm = 0%nat).
    { induction l as [| a t IH]; simpl; [reflexivity |].
      destruct (String.eqb (population_name a) nm) eqn:E; simpl;
        [assumption |].
      destruct (string_dec (population_name a) nm) as [Heq | _];
        [| assumption].
      apply String.eqb_neq in E. contradiction. }
    rewrite Hzero.
    destruct (string_dec _ _) as [_ | Hne]; [reflexivity |].
    exfalso. now apply Hne.
  - intros other Hother. unfold get_population, update_population.
    cbn [populations set_fg_populations]. rewrite filter_app.
    cbn [filter]. fold nm.
    assert (Hnew : String.eqb nm other = false)
      by (apply String.eqb_neq; congruence).
    rewrite Hnew. rewrite app_nil_r.
    assert (Hsame : forall l,
               filter (fun p => String.eqb (population_name p) other)
                 (filter (fun p => negb (String.eqb (population_name p) nm))
                    l)
               = filter (fun p => String.eqb (population_name p) other) l).
    { induction l as [| a t IH]; simpl; [reflexivity |].
      destruct (String.eqb (population_name a) nm) eqn:E; simpl.
      - apply String.eqb_eq in E. rewrite E, Hnew. assumption.
      - now rewrite IH. }
    now rewrite Hsame.
  - intros names other. unfold get_population, delete_populations.
    cbn [populations set_fg_populations].
    assert (Hdel : forall l,
               filter (fun p => String.eqb (population_name p) other)
                 (filter (fun p => negb (str_mem (population_name p) names))
                    l)
               = if str_mem other names then []
                 else filter (fun p => String.eqb (population_name p) other)
                        l).
    { induction l as [| a t IH]; simpl; [now destruct (str_mem other names) |].
      destruct (String.eqb (population_name a) other) eqn:E.
      - apply String.eqb_eq in E. rewrite E.
        destruct (str_mem other names) eqn:Hm; simpl.
        + exact IH.
        + rewrite E, String.eqb_refl, IH. reflexivity.
      - destruct (str_mem (population_name a) names); simpl;
          [| rewrite E]; exact IH. }
    rewrite Hdel. now destruct (str_mem other names).
Qed.

(** Storing a new [A] replaces the old one and leaves [root] alone. *)
Lemma update_then_get_population_witness :
  get_population
    (update_population fg_AB "A" (stored "A" "root" [1; 2; 3]%Z)) "A"
  = Ok (stored "A" "root" [1; 2; 3]%Z) /\
  get_population
    (update_population fg_AB "A" (stored "A" "root" [1; 2; 3]%Z)) "root"
  = Ok (stored "root" "root" [1; 2; 3; 4]%Z).
Proof.
  destruct (update_then_get_population fg_AB
              (stored "A" "root" [1; 2; 3]%Z))
    as (Hget & _ & Hother & _).
  split; [exact Hget |].
  change (population_name (stored "A" "root" [1; 2; 3]%Z)) with "A"
    in Hother.
  rewrite (Hother "root"); [reflexivity | discriminate].
Defined.

End FileGroupProofs.
